(** * Plant-doctor server: prediction pipeline and translation layer

    A shallow embedding of [app/schemas.py], [app/inference.py] and
    [app/translator.py].

    Conventions of the embedding.
    - Python [float] values that are finite (confidences, pixel coordinates)
      are rationals [Q]; Python's [<], [<=], [==] on them are [Qlt], [Qle],
      [Qeq].  Rounding of float arithmetic is not modelled.
    - Python [str] is [string], one [ascii] per character.
    - Exceptions are values of [exn]; a call that may raise returns
      [result A].
    - Everything the repository calls but does not define (the detector, PIL,
      the font files of the host, the PNG encoder, the translation provider)
      is an explicit parameter. *)

From Stdlib Require Import ZArith QArith String Ascii List Lia Bool.
From Stdlib Require Import Sorting.Sorted Sorting.Permutation Lqa.
From stdpp Require Import gmap strings list pretty.

Set Default Proof Using "Type".
Local Open Scope string_scope.
Local Open Scope list_scope.

(* ===================================================================== *)
(** * Part I. Definitions                                                  *)
(* ===================================================================== *)

(** ** Exceptions and results *)

Inductive exn : Type :=
| KeyError            (* [class_names[int(class_id)]] on a missing id *)
| IndexError          (* [l[0]] on an empty list *)
| ValidationError     (* pydantic rejects a field *)
| ImportError         (* ultralytics is not installed *)
| FileNotFoundError   (* the weights file is absent *)
| LoadError           (* [YOLO(path)] itself raised *)
| TypeError           (* an operation applied to a value of the wrong type *)
| AttributeError      (* a method looked up on a value that lacks it *)
| OSError.            (* a resource of the host cannot be read *)

Inductive result (A : Type) : Type :=
| Ok (a : A)
| Raise (e : exn).
Arguments Ok {A} a.
Arguments Raise {A} e.

Definition bind_result {A B} (r : result A) (k : A -> result B) : result B :=
  match r with
  | Ok a => k a
  | Raise e => Raise e
  end.

(** ** schemas.py *)

(** [class PredictionItem(BaseModel)]. *)
Record PredictionItem : Type := mkItem {
  class_name : string;
  confidence : Q
}.

(** The field constraint [ge=0.0, le=1.0] of [confidence]. *)
Definition confidence_in_range (c : Q) : bool :=
  Qle_bool 0 c && Qle_bool c 1.

(** The constructor call [PredictionItem(class_name=.., confidence=..)]:
    pydantic validates the fields and raises when a constraint fails. *)
Definition new_PredictionItem (name : string) (c : Q) : result PredictionItem :=
  if confidence_in_range c then Ok (mkItem name c) else Raise ValidationError.

(** ** inference.py: text, fonts and drawing *)

(** Python's [max(0, v)]: the first argument wins unless the second is
    strictly larger. *)
Definition py_max0 (v : Q) : Q :=
  match (0 ?= v)%Q with
  | Lt => v
  | _ => 0%Q
  end.

(** Rounding to the nearest integer, ties to even, as float formatting
    does on the exact value. *)
Definition round_half_even (q : Q) : Z :=
  let n := Qnum q in
  let d := Z.pos (Qden q) in
  let fl := (n / d)%Z in
  match (2 * (n mod d) ?= d)%Z with
  | Lt => fl
  | Gt => (fl + 1)%Z
  | Eq => if Z.even fl then fl else (fl + 1)%Z
  end.

(** [f"{q:.2f}"]. *)
Definition format_2f (q : Q) : string :=
  let c := Z.abs (round_half_even (q * 100)) in
  (if Qle_bool 0 q then "" else "-")
    +:+ pretty (c / 100)%Z +:+ "."
    +:+ pretty ((c / 10) mod 10)%Z +:+ pretty (c mod 10)%Z.

(** [f"{class_name}: {confidence:.2f}"]. *)
Definition make_label (name : string) (c : Q) : string :=
  name +:+ ": " +:+ format_2f c.

Definition color : Type := (Z * Z * Z)%type.

(** The list [colors] of [predict]. *)
Definition colors : list color :=
  [ (255, 0, 0); (0, 255, 0); (0, 0, 255); (255, 255, 0);
    (255, 0, 255); (0, 255, 255); (255, 128, 0); (128, 0, 255) ]%Z.

(** [colors[int(class_id) % len(colors)]]; Python's [%] with a positive
    modulus is [Z.modulo]. *)
Definition pick_color (class_id : Z) : color :=
  nth (Z.to_nat (class_id mod Z.of_nat (length colors))) colors (0, 0, 0)%Z.

(** The list [font_paths] of [predict]. *)
Definition font_paths : list string :=
  [ "/System/Library/Fonts/Helvetica.ttc";
    "/usr/share/fonts/truetype/dejavu/DejaVuSans.ttf";
    "C:/Windows/Fonts/arial.ttf" ].

(** What a text-measuring call of PIL may do. *)
Inductive measure (A : Type) : Type :=
| Measured (a : A)
| NoAttribute          (* raises [AttributeError]: the method is absent *)
| MeasureFails.        (* raises anything else *)
Arguments Measured {A} a.
Arguments NoAttribute {A}.
Arguments MeasureFails {A}.

(** The font resources of the host and PIL's text measuring, as
    [predict] uses them. [None] stands for a call that raises;
    [load_default_error] is the exception [ImageFont.load_default()]
    raises on a host where it raises. *)
Record FontEnv : Type := mkFontEnv {
  Font : Type;
  path_exists : string -> bool;                     (* os.path.exists *)
  truetype : string -> option Font;                 (* ImageFont.truetype(p, 16) *)
  load_default : option Font;                       (* ImageFont.load_default() *)
  load_default_error : exn;
  textbbox : Font -> string -> measure (Q * Q * Q * Q);  (* draw.textbbox((0,0), ..) *)
  textsize : Font -> string -> measure (Q * Q)      (* draw.textsize(..) *)
}.

(** The loop [for font_path in font_paths]: the first existing path that
    loads wins; a path that is absent or fails to load is skipped. *)
Fixpoint probe_fonts (env : FontEnv) (paths : list string) : option (Font env) :=
  match paths with
  | [] => None
  | p :: rest =>
      if path_exists env p then
        match truetype env p with
        | Some f => Some f
        | None => probe_fonts env rest
        end
      else probe_fonts env rest
  end.

(** Lines 135-155: probe the paths, else the built-in default, else (the
    outer [except]) no font at all. *)
Definition resolve_font (env : FontEnv) : option (Font env) :=
  match probe_fonts env font_paths with
  | Some f => Some f
  | None => load_default env
  end.

(** The fallback estimate of lines 203-204 and 207-208. *)
Definition estimate_size (label : string) : Q * Q :=
  (inject_Z (Z.of_nat (String.length label) * 6), 12%Q).

(** Lines 191-208: the text size of a label. *)
Definition text_size (env : FontEnv) (font : option (Font env)) (label : string)
  : Q * Q :=
  match font with
  | Some f =>
      match textbbox env f label with
      | Measured (b0, b1, b2, b3) => ((b2 - b0)%Q, (b3 - b1)%Q)
      | NoAttribute =>
          match textsize env f label with
          | Measured wh => wh
          | _ => estimate_size label
          end
      | MeasureFails => estimate_size label
      end
  | None => estimate_size label
  end.

(** A PIL image: its size and its pixels, row by row. *)
Record Image : Type := mkImage {
  img_width : Z;
  img_height : Z;
  img_pixels : list color
}.

(** The drawing calls issued on the copy of the image, in order. *)
Inductive DrawOp (F : Type) : Type :=
| RectOutline (x1 y1 x2 y2 : Q) (outline : color) (width : Z)
| RectFill (x1 y1 x2 y2 : Q) (fill : color)
| Text (x y : Q) (text : string) (fill : color) (font : option F).
Arguments RectOutline {F}.
Arguments RectFill {F}.
Arguments Text {F}.

(** One detected box: a row of [zip(box_coords, class_ids, confidences)],
    with [int(class_id)] already taken. *)
Record Detection : Type := mkDet {
  det_box : Q * Q * Q * Q;
  det_class_id : Z;
  det_conf : Q
}.

(** [label_y = max(0, y1 - text_height - 5)]. *)
Definition label_origin_y (y1 text_height : Q) : Q :=
  py_max0 (y1 - text_height - 5)%Q.

(** The drawing calls of one loop iteration (lines 184-221). *)
Definition draw_detection (env : FontEnv) (font : option (Font env))
    (name : string) (d : Detection) : list (DrawOp (Font env)) :=
  let '(x1, y1, x2, y2) := det_box d in
  let col := pick_color (det_class_id d) in
  let label := make_label name (det_conf d) in
  let '(text_width, text_height) := text_size env font label in
  let label_y := label_origin_y y1 text_height in
  [ RectOutline x1 y1 x2 y2 col 3;
    RectFill x1 label_y (x1 + text_width + 10)%Q (label_y + text_height + 5)%Q col;
    Text (x1 + 5)%Q (label_y + 2)%Q label (255, 255, 255)%Z font ].

(** The font [draw.text] renders with (lines 218-221).  With the
    argument [font=font] it is that font.  On the [else] branch the call
    passes no font, and PIL's [ImageDraw.text] then takes the font of the
    drawing context, which it loads with [ImageFont.load_default()]: on
    a host where that raises, the call raises, outside every [try] of
    [predict]. *)
Definition draw_text_font (env : FontEnv) (font : option (Font env))
  : result (Font env) :=
  match font with
  | Some f => Ok f
  | None =>
      match load_default env with
      | Some f => Ok f
      | None => Raise (load_default_error env)
      end
  end.
Arguments draw_text_font : simpl never.

(** The body of the [for] loop over the detections (lines 179-229),
    threading the drawing calls issued so far and [all_predictions].  An
    iteration raises at [class_names[int(class_id)]], at [draw.text] or
    at [PredictionItem(..)], in this order; the other drawing calls are
    taken as total. *)
Fixpoint detection_loop (env : FontEnv) (font : option (Font env))
    (names : gmap Z string) (dets : list Detection)
    (ops : list (DrawOp (Font env))) (items : list PredictionItem)
  : result (list (DrawOp (Font env)) * list PredictionItem) :=
  match dets with
  | [] => Ok (ops, items)
  | d :: rest =>
      match names !! det_class_id d with
      | None => Raise KeyError
      | Some name =>
          let ops' := (ops ++ draw_detection env font name d)%list in
          bind_result (draw_text_font env font) (fun _ =>
          bind_result (new_PredictionItem name (det_conf d)) (fun it =>
          detection_loop env font names rest ops' (items ++ [it])%list))
      end
  end.

(** ** inference.py: the reduction *)

(** [list.sort(key=lambda x: x.confidence, reverse=True)] is Python's
    built-in stable sort; with [reverse=True] items with equal keys keep
    their order.  It is modelled by the stable insertion sort below: an
    item goes in front of the first item whose key is not larger. *)
Fixpoint insert_desc (x : PredictionItem) (l : list PredictionItem)
  : list PredictionItem :=
  match l with
  | [] => [x]
  | y :: l' =>
      if Qle_bool (confidence y) (confidence x) then x :: y :: l'
      else y :: insert_desc x l'
  end.

Definition sort_by_confidence_desc (l : list PredictionItem) : list PredictionItem :=
  foldr insert_desc [] l.

Definition sentinel_name : string := "No Disease Detected".
Definition sentinel_item : PredictionItem := mkItem sentinel_name 0.

(** ** inference.py: base64 and the data URI *)

Definition b64_alphabet : string :=
  "ABCDEFGHIJKLMNOPQRSTUVWXYZabcdefghijklmnopqrstuvwxyz0123456789+/".

Definition b64_char (i : N) : ascii :=
  match String.get (N.to_nat i) b64_alphabet with
  | Some c => c
  | None => "="%char
  end.

(** [base64.b64encode]: three bytes give four characters; a last group of
    one or two bytes is padded with [=]. *)
Fixpoint b64encode (bs : list Byte.byte) : string :=
  match bs with
  | [] => ""
  | [a] =>
      let n := (Byte.to_N a * 16)%N in
      String (b64_char (n / 64)) (String (b64_char (n mod 64)) "==")
  | [a; b] =>
      let n := ((Byte.to_N a * 256 + Byte.to_N b) * 4)%N in
      String (b64_char (n / 4096))
        (String (b64_char ((n / 64) mod 64))
           (String (b64_char (n mod 64)) "="))
  | a :: b :: c :: rest =>
      let n := ((Byte.to_N a * 256 + Byte.to_N b) * 256 + Byte.to_N c)%N in
      String (b64_char (n / 262144))
        (String (b64_char ((n / 4096) mod 64))
           (String (b64_char ((n / 64) mod 64))
              (String (b64_char (n mod 64)) (b64encode rest))))
  end.

(** [bytes.decode('utf-8')] on ASCII bytes, and its use to view raw bytes
    as text. *)
Definition bytes_to_string (bs : list Byte.byte) : string :=
  string_of_list_ascii (map ascii_of_byte bs).

Definition data_uri_prefix : string := "data:image/png;base64,".

(** Lines 247-251: [f"data:image/png;base64,{img_str}"]. *)
Definition encode_annotated (png : list Byte.byte) : string :=
  data_uri_prefix +:+ b64encode png.

(** ** inference.py: [ModelInference.predict] *)

(** The dictionary [predict] returns. *)
Record PredictionResult : Type := mkResult {
  disease : string;
  res_confidence : Q;
  all_predictions : list PredictionItem;
  annotated_image : string
}.

Section Predict.

(** The host's fonts. *)
Variable env : FontEnv.
(** [Image.save(buffer, format='PNG')] applied to the copy of the image
    on which the given calls were drawn. *)
Variable png_save : Image -> list (DrawOp (Font env)) -> list Byte.byte.
(** [result.names], the id-to-name table of the model. *)
Variable names : gmap Z string.

(** [predict], from the point where the detector has answered:
    [boxes] is [result.boxes] ([None] is Python's [None]). *)
Definition predict (image : Image) (boxes : option (list Detection))
  : result PredictionResult :=
  let font := resolve_font env in
  match boxes with
  | Some (d :: rest) =>
      bind_result (detection_loop env font names (d :: rest) [] []) (fun '(ops, items) =>
      let sorted := sort_by_confidence_desc items in
      match sorted with
      | primary :: _ =>
          Ok (mkResult (class_name primary) (confidence primary) sorted
                (encode_annotated (png_save image ops)))
      | [] => Raise IndexError
      end)
  | _ =>
      Ok (mkResult sentinel_name 0 [sentinel_item]
            (encode_annotated (png_save image [])))
  end.

End Predict.

(** ** inference.py: [ModelInference.__init__] and [get_model] *)

(** A loaded [ModelInference] object.  Two objects are the same object
    exactly when they come from the same constructor call, so the number
    of that call is the identity of the object. *)
Record ModelInference : Type := mkModel {
  instance_id : nat
}.

(** What the constructor depends on: the import-time flag
    [ULTRALYTICS_AVAILABLE], and at the k-th constructor call whether the
    weights file exists and whether [YOLO(path)] succeeds. *)
Record LoadEnv : Type := mkLoadEnv {
  ULTRALYTICS_AVAILABLE : bool;
  model_path_exists : nat -> bool;
  yolo_loads : nat -> bool
}.

(** [ModelInference()], the k-th constructor call of the process. *)
Definition ModelInference_init (host : LoadEnv) (k : nat) : result ModelInference :=
  if negb (ULTRALYTICS_AVAILABLE host) then Raise ImportError
  else if negb (model_path_exists host k) then Raise FileNotFoundError
  else if yolo_loads host k then Ok (mkModel k)
  else Raise LoadError.

(** The module-level state: the global [_model_instance] and, for the
    record, the outcome of every constructor call so far. *)
Record AdapterState : Type := mkAdapter {
  _model_instance : option ModelInference;
  constructions : list (result ModelInference)
}.

Definition adapter_init : AdapterState := mkAdapter None [].

(** The constructor call performed in state [s], with its bookkeeping. *)
Definition construct (host : LoadEnv) (s : AdapterState)
  : result ModelInference * AdapterState :=
  let r := ModelInference_init host (length (constructions s)) in
  (r, mkAdapter (_model_instance s) (constructions s ++ [r])%list).

(** [get_model()], run from start to end without interruption. *)
Definition get_model (host : LoadEnv) (s : AdapterState)
  : result ModelInference * AdapterState :=
  match _model_instance s with
  | Some h => (Ok h, s)
  | None =>
      match construct host s with
      | (Ok h, s') => (Ok h, mkAdapter (Some h) (constructions s'))
      | (Raise e, s') => (Raise e, s')
      end
  end.

(** [n] calls of [get_model] one after the other. *)
Fixpoint get_model_calls (host : LoadEnv) (n : nat) (s : AdapterState)
  : list (result ModelInference) * AdapterState :=
  match n with
  | O => ([], s)
  | S n' =>
      let '(r, s1) := get_model host s in
      let '(rs, s2) := get_model_calls host n' s1 in
      (r :: rs, s2)
  end.

(** How many constructor calls completed with a loaded model. *)
Definition is_ok {A} (r : result A) : bool :=
  match r with
  | Ok _ => true
  | Raise _ => false
  end.

Definition loads_done (s : AdapterState) : nat :=
  length (List.filter is_ok (constructions s)).

(** *** [get_model] under interleaving

    The same function cut at the points where another caller may run:
    the test of the global, the constructor call, the assignment to the
    global and the read of the global for [return]. The source takes no
    lock, so no step waits for another caller. *)
Inductive Caller : Type :=
| AtTest                          (* about to run [if _model_instance is None] *)
| AtConstruct                     (* about to call [ModelInference()] *)
| AtAssign (h : ModelInference)   (* about to store into [_model_instance] *)
| AtReturn                        (* about to run [return _model_instance] *)
| Returned (r : option ModelInference)
| Raised (e : exn).

Definition caller_step (host : LoadEnv) (s : AdapterState) (c : Caller)
  : AdapterState * Caller :=
  match c with
  | AtTest =>
      match _model_instance s with
      | None => (s, AtConstruct)
      | Some _ => (s, AtReturn)
      end
  | AtConstruct =>
      match construct host s with
      | (Ok h, s') => (s', AtAssign h)
      | (Raise e, s') => (s', Raised e)
      end
  | AtAssign h => (mkAdapter (Some h) (constructions s), AtReturn)
  | AtReturn => (s, Returned (_model_instance s))
  | Returned r => (s, Returned r)
  | Raised e => (s, Raised e)
  end.

(** A configuration: the shared state and the callers in flight. A
    schedule names, step by step, the caller that runs next. *)
Definition Config : Type := (AdapterState * list Caller)%type.

Definition sched_step (host : LoadEnv) (cfg : Config) (i : nat) : Config :=
  match snd cfg !! i with
  | Some c =>
      let '(s', c') := caller_step host (fst cfg) c in
      (s', <[i := c']> (snd cfg))
  | None => cfg
  end.

Definition run_schedule (host : LoadEnv) (sched : list nat) (cfg : Config) : Config :=
  fold_left (sched_step host) sched cfg.

(** Caller [i] is inside the construction step: it has passed the test
    and has not yet published its object. *)
Definition in_construction (c : Caller) : bool :=
  match c with
  | AtConstruct | AtAssign _ => true
  | _ => false
  end.

(** ** translator.py: Python values, objects and the store

    The translation layer receives the dictionary built by [predict] and
    builds new dictionaries and lists from it.  Dictionaries, lists and
    pydantic models are objects of a store and are passed by reference, so
    that what is shared and what is copied is explicit. *)

(** Locations of the store. *)
Abbreviation loc := nat (only parsing).

Inductive val : Type :=
| VNone
| VFloat (q : Q)
| VStr (s : string)
| VRef (l : loc).

Inductive obj : Type :=
| ODict (d : gmap string val)          (* a [dict] with [str] keys *)
| OList (l : list val)                 (* a [list] *)
| OModel (fields : gmap string val)    (* a pydantic model: it has [dict] *)
| OModelDump (fields : gmap string val) (* has [model_dump] but no [dict] *)
| OOther.                              (* any other object *)

(** One request to the translation provider:
    [GoogleTranslator(source, target).translate(text)]. *)
Definition request : Type := (string * string * val)%type.

(** The store and the requests sent to the provider so far. *)
Record World : Type := mkWorld {
  heap : list obj;
  requests : list request
}.

(** Computations that read and write the world and may raise. *)
Definition M (A : Type) : Type := World -> result A * World.

Definition ret {A} (a : A) : M A := fun w => (Ok a, w).

Definition raise {A} (e : exn) : M A := fun w => (Raise e, w).

Definition bind {A B} (m : M A) (k : A -> M B) : M B :=
  fun w =>
    match m w with
    | (Ok a, w') => k a w'
    | (Raise e, w') => (Raise e, w')
    end.

Notation "'let!' x ':=' m 'in' k" := (bind m (fun x => k))
  (at level 10, x name, m at level 100, k at level 200).

(** A new object at a fresh location. *)
Definition alloc (o : obj) : M loc :=
  fun w => (Ok (length (heap w)), mkWorld (heap w ++ [o])%list (requests w)).

Definition load (l : loc) : M (option obj) :=
  fun w => (Ok (heap w !! l), w).

(** In-place update of the object at [l]. *)
Definition store (l : loc) (o : obj) : M unit :=
  fun w => (Ok tt, mkWorld (<[l := o]> (heap w)) (requests w)).

(** [d[k] = v] on the dictionary at [l]. *)
Definition dict_set (l : loc) (k : string) (v : val) : M unit :=
  let! o := load l in
  match o with
  | Some (ODict d) => store l (ODict (<[k := v]> d))
  | _ => raise TypeError
  end.

(** [k in d] and [d[k]] in one: the value under [k], if any. *)
Definition dict_lookup (l : loc) (k : string) : M (option val) :=
  let! o := load l in
  match o with
  | Some (ODict d) => ret (d !! k)
  | _ => raise TypeError
  end.

(** [xs.append(v)] on the list at [l]. *)
Definition list_append (l : loc) (v : val) : M unit :=
  let! o := load l in
  match o with
  | Some (OList xs) => store l (OList (xs ++ [v])%list)
  | _ => raise TypeError
  end.

(** The items a [for] loop over [v] visits.  Only lists are iterated
    here, as the annotation [predictions: List] has it. *)
Definition iterate (v : val) : M (list val) :=
  match v with
  | VRef l =>
      let! o := load l in
      match o with
      | Some (OList xs) => ret xs
      | _ => raise TypeError
      end
  | _ => raise TypeError
  end.

Fixpoint for_each {A} (body : A -> M unit) (xs : list A) : M unit :=
  match xs with
  | [] => ret tt
  | x :: rest => let! _ := body x in for_each body rest
  end.

Definition lang_eqb (a b : string) : bool := String.eqb a b.

Section Translator.

(** The external translation capability: whether the request succeeds,
    and with which text, may depend on everything asked before. [None]
    stands for any exception. *)
Variable provider : list request -> request -> option string.

(** Python's [str()] on a value that is neither a dictionary nor a
    model. *)
Variable py_str : val -> string.

(** [GoogleTranslator(source=.., target=..).translate(text)]. *)
Definition provider_translate (source target : string) (text : val)
  : M (option string) :=
  fun w =>
    let rq := (source, target, text) in
    (Ok (provider (requests w) rq),
     mkWorld (heap w) (requests w ++ [rq])%list).

(** [TranslationService.translate_text]. *)
Definition translate_text (text : val) (target_lang source_lang : string)
  : M val :=
  if lang_eqb target_lang "en" || lang_eqb target_lang source_lang then
    ret text
  else
    let! translated := provider_translate source_lang target_lang text in
    match translated with
    | Some t => ret (VStr t)
    | None => ret text          (* [except Exception]: the original text *)
    end.

(** The dictionary built for an item that is neither a dictionary nor
    a model. *)
Definition fallback_dict (pred : val) : gmap string val :=
  <["confidence" := VFloat 0]> {["class_name" := VStr (py_str pred)]}.

(** Lines 88-96: the item as a dictionary; a dictionary is passed on
    as it is. *)
Definition to_dict_shared (pred : val) : M val :=
  match pred with
  | VRef l =>
      let! o := load l in
      match o with
      | Some (OModel f) => let! d := alloc (ODict f) in ret (VRef d)       (* pred.dict() *)
      | Some (OModelDump f) => let! d := alloc (ODict f) in ret (VRef d)   (* pred.model_dump() *)
      | Some (ODict _) => ret pred
      | _ => let! d := alloc (ODict (fallback_dict pred)) in ret (VRef d)
      end
  | _ => let! d := alloc (ODict (fallback_dict pred)) in ret (VRef d)
  end.

(** Lines 101-109: the item as a dictionary of its own; a dictionary is
    copied. *)
Definition to_dict_copy (pred : val) : M loc :=
  match pred with
  | VRef l =>
      let! o := load l in
      match o with
      | Some (OModel f) => alloc (ODict f)          (* pred.dict() *)
      | Some (OModelDump f) => alloc (ODict f)      (* pred.model_dump() *)
      | Some (ODict f) => alloc (ODict f)           (* pred.copy() *)
      | _ => alloc (ODict (fallback_dict pred))
      end
  | _ => alloc (ODict (fallback_dict pred))
  end.

(** The body of the loop of lines 88-96, appending to [result]. *)
Definition convert_one (result : loc) (pred : val) : M unit :=
  let! d := to_dict_shared pred in
  list_append result d.

(** The body of the loop of lines 100-114, appending to
    [translated_predictions]. *)
Definition translate_one (translated_predictions : loc) (target_lang : string)
    (pred : val) : M unit :=
  let! pred_dict := to_dict_copy pred in
  let! found := dict_lookup pred_dict "class_name" in
  let original_name := default (VStr "") found in      (* .get("class_name", "") *)
  let! translated_name := translate_text original_name target_lang "en" in
  let! _ := dict_set pred_dict "class_name" translated_name in
  list_append translated_predictions (VRef pred_dict).

(** [TranslationService.translate_disease_names]. *)
Definition translate_disease_names (predictions : val) (target_lang : string)
  : M val :=
  if lang_eqb target_lang "en" then
    let! result := alloc (OList []) in
    let! preds := iterate predictions in
    let! _ := for_each (convert_one result) preds in
    ret (VRef result)
  else
    let! translated_predictions := alloc (OList []) in
    let! preds := iterate predictions in
    let! _ := for_each (translate_one translated_predictions target_lang) preds in
    ret (VRef translated_predictions).

(** [response.copy()], for a dictionary. *)
Definition dict_copy (response : val) : M loc :=
  match response with
  | VRef r =>
      let! o := load r in
      match o with
      | Some (ODict d) => alloc (ODict d)
      | _ => raise TypeError
      end
  | _ => raise TypeError
  end.

(** [TranslationService.translate_prediction_response]. *)
Definition translate_prediction_response (response : val) (target_lang : string)
  : M val :=
  if lang_eqb target_lang "en" then ret response
  else
    let! translated_response := dict_copy response in
    let! has_disease := dict_lookup translated_response "disease" in
    let! _ := match has_disease with
         | Some original_disease =>
             let! translated_disease := translate_text original_disease target_lang "en" in
             dict_set translated_response "disease" translated_disease
         | None => ret tt
         end in
    let! has_predictions := dict_lookup translated_response "all_predictions" in
    let! _ := match has_predictions with
         | Some predictions =>
             let! translated_predictions := translate_disease_names predictions target_lang in
             dict_set translated_response "all_predictions" translated_predictions
         | None => ret tt
         end in
    ret (VRef translated_response).

End Translator.

(** ** The dictionary of [predict] in the store *)

(** A [PredictionItem] object. *)
Definition item_object (it : PredictionItem) : obj :=
  OModel (<["confidence" := VFloat (confidence it)]>
            {["class_name" := VStr (class_name it)]}).

(** The objects of the items, one after the other from location [base]. *)
Definition item_refs (base : loc) (n : nat) : list val :=
  map VRef (seq base n).

(** The dictionary literal returned by [predict]. *)
Definition response_dict (r : PredictionResult) (items_at : loc) : gmap string val :=
  <["disease" := VStr (disease r)]>
  (<["confidence" := VFloat (res_confidence r)]>
  (<["all_predictions" := VRef items_at]>
  {["annotated_image" := VStr (annotated_image r)]})).

(** The result of [predict] laid out in the store: the items, their
    list, then the dictionary; the value is the reference to the
    dictionary. *)
Definition store_result (r : PredictionResult) : M val :=
  fun w =>
    let base := length (heap w) in
    let n := length (all_predictions r) in
    let items := map item_object (all_predictions r) in
    let lst := OList (item_refs base n) in
    let dict := ODict (response_dict r (base + n)) in
    (Ok (VRef (base + n + 1)),
     mkWorld (heap w ++ items ++ [lst; dict])%list (requests w)).

(** ** Reading a response back from the store *)

(** The field [k] of an item, be it a model ([item.k]) or a dictionary
    ([item[k]]). *)
Definition item_field (h : list obj) (item : val) (k : string) : option val :=
  match item with
  | VRef l =>
      match h !! l with
      | Some (ODict f) | Some (OModel f) | Some (OModelDump f) => f !! k
      | _ => None
      end
  | _ => None
  end.

(** The dictionary a response refers to. *)
Definition response_fields (h : list obj) (response : val) : option (gmap string val) :=
  match response with
  | VRef r =>
      match h !! r with
      | Some (ODict d) => Some d
      | _ => None
      end
  | _ => None
  end.

(** The list under [all_predictions]. *)
Definition response_items (h : list obj) (response : val) : option (list val) :=
  match response_fields h response with
  | Some d =>
      match d !! "all_predictions" with
      | Some (VRef l) =>
          match h !! l with
          | Some (OList xs) => Some xs
          | _ => None
          end
      | _ => None
      end
  | None => None
  end.

(** A value that does not refer beyond the store [h]. *)
Definition val_in_store (h : list obj) (v : val) : Prop :=
  match v with
  | VRef l => l < length h
  | _ => True
  end.

(** ** Vocabulary of the statements *)

(** The item [predict] builds for a detection. *)
Definition item_of (names : gmap Z string) (d : Detection) : PredictionItem :=
  mkItem (default "" (names !! det_class_id d)) (det_conf d).

(** A detection the loop accepts: its class id is in the table of names
    and its confidence passes the validation of [PredictionItem]. *)
Definition well_formed_detection (names : gmap Z string) (d : Detection) : bool :=
  match names !! det_class_id d with
  | Some _ => confidence_in_range (det_conf d)
  | None => false
  end.

(** [a] may stand before [b] in a list sorted by descending confidence. *)
Definition by_confidence_desc (a b : PredictionItem) : Prop :=
  (confidence b <= confidence a)%Q.

(** The items whose confidence equals [c]. *)
Definition with_confidence (c : Q) (l : list PredictionItem) : list PredictionItem :=
  List.filter (fun it => Qeq_bool (confidence it) c) l.

(** The invariant of a [PredictionResult]: the primary diagnosis is the
    first item. *)
Definition result_invariant (r : PredictionResult) : Prop :=
  exists first rest,
    all_predictions r = first :: rest /\
    disease r = class_name first /\
    res_confidence r = confidence first.

(** The same invariant read from a response in the store. *)
Definition response_invariant (h : list obj) (response : val) : Prop :=
  exists d first rest name conf,
    response_fields h response = Some d /\
    response_items h response = Some (first :: rest) /\
    d !! "disease" = Some name /\
    item_field h first "class_name" = Some name /\
    d !! "confidence" = Some conf /\
    item_field h first "confidence" = Some conf.

(** The part of the invariant about the confidences. *)
Definition confidence_invariant (h : list obj) (response : val) : Prop :=
  exists d first rest conf,
    response_fields h response = Some d /\
    response_items h response = Some (first :: rest) /\
    d !! "confidence" = Some conf /\
    item_field h first "confidence" = Some conf.

(** All the drawing calls of the loop over [dets]. *)
Fixpoint drawn (env : FontEnv) (font : option (Font env))
    (names : gmap Z string) (dets : list Detection) : list (DrawOp (Font env)) :=
  match dets with
  | [] => []
  | d :: rest =>
      (draw_detection env font (default "" (names !! det_class_id d)) d
         ++ drawn env font names rest)%list
  end.



(** What a request leaves in a field: the translation, or the original
    when the provider raised. *)
Definition outcome (answer : option string) (original : val) : val :=
  match answer with
  | Some t => VStr t
  | None => original
  end.

(** ** Concrete hosts and inputs used in the examples *)

(** A host without any usable font: no path exists and the built-in
    default fails to load. *)
Definition no_fonts : FontEnv :=
  mkFontEnv unit (fun _ => false) (fun _ => None) None OSError
    (fun _ _ => MeasureFails) (fun _ _ => MeasureFails).

(** A host whose Linux font loads and measures 8 by 15 pixels per
    character. *)
Definition dejavu_host : FontEnv :=
  mkFontEnv unit
    (fun p => String.eqb p "/usr/share/fonts/truetype/dejavu/DejaVuSans.ttf")
    (fun _ => Some tt) (Some tt) OSError
    (fun _ label => Measured (0, 0, inject_Z (Z.of_nat (String.length label) * 8), 15)%Q)
    (fun _ _ => NoAttribute).

(** The eight bytes every PNG file starts with, standing for an encoder. *)
Definition png_signature : list Byte.byte :=
  [Byte.x89; Byte.x50; Byte.x4e; Byte.x47; Byte.x0d; Byte.x0a; Byte.x1a; Byte.x0a].

Definition signature_only {F} (_ : Image) (_ : list (DrawOp F)) : list Byte.byte :=
  png_signature.

Definition square_100 : Image := mkImage 100 100 [].

Definition two_classes : gmap Z string :=
  <[1%Z := "Leaf Blight"]> {[0%Z := "Healthy"]}.

Definition blight_and_healthy : list Detection :=
  [ mkDet (10, 20, 60, 80)%Q 1 (91 # 100);
    mkDet (90, 50, 100, 100)%Q 0 (4 # 10) ].

(** A host on which the model loads at every attempt, and one on which
    the weights file appears only after the first attempt. *)
Definition always_loads : LoadEnv :=
  mkLoadEnv true (fun _ => true) (fun _ => true).

Definition file_arrives_late : LoadEnv :=
  mkLoadEnv true (fun k => negb (Nat.eqb k 0)) (fun _ => true).

(** The state is coherent when the global is set exactly if one
    constructor call has succeeded. *)
Definition coherent (s : AdapterState) : Prop :=
  match _model_instance s with
  | None => loads_done s = 0%nat
  | Some _ => loads_done s = 1%nat
  end.

(** What a caller that ran [get_model] to its end holds. *)
Definition finished (r : result ModelInference) : Caller :=
  match r with
  | Ok h => Returned (Some h)
  | Raise e => Raised e
  end.

(** ** What the translation of a response amounts to *)

Section TranslationOutcome.

Variable provider : list request -> request -> option string.
Variable py_str : val -> string.
Variable target_lang : string.

(** The dictionary made of an item before its name is translated: the
    fields of a model, the entries of a dictionary, or the fallback. *)
Definition item_dict (h : list obj) (pred : val) : gmap string val :=
  match pred with
  | VRef l =>
      match h !! l with
      | Some (OModel f) | Some (OModelDump f) | Some (ODict f) => f
      | _ => fallback_dict py_str pred
      end
  | _ => fallback_dict py_str pred
  end.

(** The name of an item as it is sent to the provider. *)
Definition original_name (h : list obj) (pred : val) : val :=
  default (VStr "") (item_dict h pred !! "class_name").

(** The request that asks for the translation of [text]. *)
Definition name_request (text : val) : request := ("en", target_lang, text).

(** The dictionaries of the translated items, when [past] lists the
    requests sent before the first of them. *)
Fixpoint translated_dicts (h : list obj) (items : list val) (past : list request)
  : list (gmap string val) :=
  match items with
  | [] => []
  | it :: rest =>
      let name := original_name h it in
      <["class_name" := outcome (provider past (name_request name)) name]>
        (item_dict h it)
      :: translated_dicts h rest (past ++ [name_request name])
  end.

(** The strings of a response that are sent for translation, in the
    order of the requests: [disease] if present, then the name of every
    item. *)
Definition translatable (h : list obj) (d : gmap string val) (items : list val)
  : list val :=
  (option_list (d !! "disease") ++ map (original_name h) items)%list.

(** The same strings read from a response after translation. *)
Definition translated (h : list obj) (d : gmap string val) (items : list val)
  : list val :=
  (option_list (d !! "disease")
     ++ map (fun it => default VNone (item_field h it "class_name")) items)%list.

End TranslationOutcome.

(** The copy of the dictionary once [disease] has been translated. *)
Definition translated_disease (provider : list request -> request -> option string)
    (target : string) (d : gmap string val) (rq : list request) : gmap string val :=
  match d !! "disease" with
  | Some od => <["disease" := outcome (provider rq (name_request target od)) od]> d
  | None => d
  end.

(** The request sent for [disease], if the key is present. *)
Definition disease_requests (target : string) (d : gmap string val) : list request :=
  map (name_request target) (option_list (d !! "disease")).

(** An item that is a dictionary or a model. *)
Definition is_record (h : list obj) (item : val) : bool :=
  match item with
  | VRef l =>
      match h !! l with
      | Some (ODict _) | Some (OModel _) | Some (OModelDump _) => true
      | _ => false
      end
  | _ => false
  end.

(** A provider that always fails, one that fails on the first request
    only, and one that fails exactly for "Leaf Blight". *)
Definition provider_down : list request -> request -> option string :=
  fun _ _ => None.

Definition provider_recovers : list request -> request -> option string :=
  fun past _ =>
    match past with
    | [] => None
    | _ => Some "Tizon de la hoja"
    end.

Definition provider_fails_on_blight : list request -> request -> option string :=
  fun _ rq =>
    match snd rq with
    | VStr "Leaf Blight" => None
    | VStr "Healthy" => Some "Sano"
    | _ => Some "?"
    end.

Definition str_unknown (_ : val) : string := "<object>".

Definition empty_world : World := mkWorld [] [].

(** The result of the scenario of the specification, and the world in
    which [predict] has just returned it. *)
Definition blight_result : PredictionResult :=
  mkResult "Leaf Blight" (91 # 100)
    [mkItem "Leaf Blight" (91 # 100); mkItem "Healthy" (4 # 10)]
    "data:image/png;base64,iVBORw0KGgo=".

Definition blight_world : World := snd (store_result blight_result empty_world).
Definition blight_response : val := VRef 3.

(** [str()] on text, and a marker for everything else. *)
Definition str_of_text (v : val) : string :=
  match v with
  | VStr s => s
  | _ => "<object>"
  end.

(** A provider that answers every request with "Roya". *)
Definition provider_roya : list request -> request -> option string :=
  fun _ _ => Some "Roya".

(** A response whose only item is the bare text "Rust": neither a
    dictionary nor a model. *)
Definition rust_world : World :=
  mkWorld
    [ OList [VStr "Rust"];
      ODict (<["all_predictions" := VRef 0]> {["confidence" := VFloat (1 # 2)]}) ]
    [].

Definition rust_response : val := VRef 1.

(** ** Reading the data URI back

    What a client of the API does with [annotated_image]: drop the
    prefix and undo base64. *)

Fixpoint find_index (c : ascii) (s : string) (i : N) : option N :=
  match s with
  | EmptyString => None
  | String c' s' => if Ascii.eqb c c' then Some i else find_index c s' (N.succ i)
  end.

(** The position of a character in the base64 alphabet. *)
Definition b64_index (c : ascii) : option N := find_index c b64_alphabet 0.

Definition b64_pad : ascii := "="%char.

(** [base64.b64decode] on text made of whole groups of four characters. *)
Fixpoint b64decode (s : string) : option (list Byte.byte) :=
  match s with
  | EmptyString => Some []
  | String c1 (String c2 (String c3 (String c4 rest))) =>
      i1 ← b64_index c1;
      i2 ← b64_index c2;
      if Ascii.eqb c3 b64_pad then
        if Ascii.eqb c4 b64_pad && String.eqb rest "" then
          a ← Byte.of_N ((i1 * 64 + i2) / 16);
          Some [a]
        else None
      else
        i3 ← b64_index c3;
        if Ascii.eqb c4 b64_pad then
          if String.eqb rest "" then
            let n := ((i1 * 64 + i2) * 64 + i3)%N in
            a ← Byte.of_N (n / 1024);
            b ← Byte.of_N ((n / 4) mod 256);
            Some [a; b]
          else None
        else
          i4 ← b64_index c4;
          let n := (((i1 * 64 + i2) * 64 + i3) * 64 + i4)%N in
          a ← Byte.of_N (n / 65536);
          b ← Byte.of_N ((n / 256) mod 256);
          c ← Byte.of_N (n mod 256);
          tail ← b64decode rest;
          Some (a :: b :: c :: tail)
  | _ => None
  end.

(** [s] without the prefix [p], when it starts with it. *)
Fixpoint strip_prefix (p s : string) : option string :=
  match p, s with
  | EmptyString, _ => Some s
  | String a p', String b s' => if Ascii.eqb a b then strip_prefix p' s' else None
  | String _ _, EmptyString => None
  end.

(** The bytes of the image a data URI carries. *)
Definition data_uri_payload (uri : string) : option (list Byte.byte) :=
  text ← strip_prefix data_uri_prefix uri;
  b64decode text.

(** A font path the probing loop skips: it does not exist or fails to
    load. *)
Definition font_unusable (env : FontEnv) (p : string) : Prop :=
  path_exists env p = false \/ truetype env p = None.

(** [e] is the exception of the first iteration of the loop that
    raises.  Where [draw.text] finds a font, that is the first detection
    with an unknown class id or a confidence outside [0, 1]; where it
    finds none, the very first iteration raises. *)
Definition first_rejected (env : FontEnv) (font : option (Font env))
    (names : gmap Z string) (dets : list Detection) (e : exn) : Prop :=
  match draw_text_font env font with
  | Ok _ =>
      exists pre d post,
        dets = pre ++ d :: post /\
        forallb (well_formed_detection names) pre = true /\
        ((names !! det_class_id d = None /\ e = KeyError) \/
         (is_Some (names !! det_class_id d) /\
          confidence_in_range (det_conf d) = false /\ e = ValidationError))
  | Raise font_error =>
      exists d post,
        dets = d :: post /\
        ((names !! det_class_id d = None /\ e = KeyError) \/
         (is_Some (names !! det_class_id d) /\ e = font_error))
  end.

(** ** translator.py: the rest of [TranslationService] *)

(** An item that is a plain dictionary. *)
Definition is_dict (h : list obj) (item : val) : bool :=
  match item with
  | VRef l =>
      match h !! l with
      | Some (ODict _) => true
      | _ => false
      end
  | _ => false
  end.

(** What the loop of lines 88-96 appends and allocates, when [next] is
    the next free location: a dictionary is appended as it is, anything
    else as a new dictionary. *)
Fixpoint converted_items (py_str : val -> string) (h : list obj) (next : loc)
    (items : list val) : list val * list obj :=
  match items with
  | [] => ([], [])
  | it :: rest =>
      if is_dict h it then
        let '(vs, os) := converted_items py_str h next rest in
        (it :: vs, os)
      else
        let '(vs, os) := converted_items py_str h (S next) rest in
        (VRef next :: vs, ODict (item_dict py_str h it) :: os)
  end.

(** The module-level dictionary [SUPPORTED_LANGUAGES]. *)
Definition SUPPORTED_LANGUAGES : gmap string val :=
  list_to_map
    [ ("en", VStr "English"); ("es", VStr "Spanish"); ("fr", VStr "French");
      ("de", VStr "German"); ("it", VStr "Italian"); ("pt", VStr "Portuguese");
      ("ru", VStr "Russian"); ("zh", VStr "Chinese (Simplified)");
      ("ja", VStr "Japanese"); ("ko", VStr "Korean"); ("ar", VStr "Arabic");
      ("hi", VStr "Hindi"); ("ta", VStr "Tamil"); ("te", VStr "Telugu");
      ("ml", VStr "Malayalam"); ("kn", VStr "Kannada"); ("mr", VStr "Marathi");
      ("bn", VStr "Bengali"); ("gu", VStr "Gujarati"); ("ur", VStr "Urdu");
      ("pa", VStr "Punjabi"); ("ne", VStr "Nepali"); ("si", VStr "Sinhala");
      ("my", VStr "Myanmar"); ("th", VStr "Thai"); ("vi", VStr "Vietnamese");
      ("id", VStr "Indonesian"); ("ms", VStr "Malay"); ("tl", VStr "Filipino") ].

(** A [TranslationService] object: which construction made it, and its
    attribute [supported_langs], a reference to the module-level
    dictionary (the constructor stores the dictionary itself, not a
    copy). *)
Record TranslationService : Type := mkService {
  service_id : nat;
  supported_langs : loc
}.

(** [TranslationService.get_supported_languages]:
    [self.supported_langs.copy()]. *)
Definition get_supported_languages (self : TranslationService) : M val :=
  let! copy := dict_copy (VRef (supported_langs self)) in
  ret (VRef copy).

(** The global [_translation_service] and the number of services
    constructed so far. *)
Record TranslatorState : Type := mkTranslatorState {
  _translation_service : option TranslationService;
  services_made : nat
}.

Definition translator_init : TranslatorState := mkTranslatorState None 0.

(** [get_translator()]; [catalog] is where [SUPPORTED_LANGUAGES] lives. *)
Definition get_translator (catalog : loc) (s : TranslatorState)
  : TranslationService * TranslatorState :=
  match _translation_service s with
  | Some t => (t, s)
  | None =>
      let t := mkService (services_made s) catalog in
      (t, mkTranslatorState (Some t) (S (services_made s)))
  end.

Fixpoint get_translator_calls (catalog : loc) (n : nat) (s : TranslatorState)
  : list TranslationService * TranslatorState :=
  match n with
  | O => ([], s)
  | S n' =>
      let '(t, s1) := get_translator catalog s in
      let '(ts, s2) := get_translator_calls catalog n' s1 in
      (t :: ts, s2)
  end.

(** ** utils.py *)

(** [max_size = 10 * 1024 * 1024]. *)
Definition max_size : N := (10 * 1024 * 1024)%N.

(** [validate_image]. [pil_verify] stands for [Image.open] followed by
    [image.verify()]: [None] when both succeed, else the text of the
    exception. *)
Definition validate_image (pil_verify : list Byte.byte -> option string)
    (file_content : list Byte.byte) : bool * option string :=
  match pil_verify file_content with
  | Some e => (false, Some ("Invalid image file: " +:+ e))
  | None =>
      if (max_size <? N.of_nat (length file_content))%N then
        (false, Some "Image file is too large (max 10MB)")
      else (true, None)
  end.

(** ** main.py *)

(** The dictionary [health_check] returns. *)
Record HealthReport : Type := mkHealth {
  status : string;
  model_exists : bool;
  model_loaded : bool;
  ultralytics_available : bool;
  error : option string
}.

(** What an endpoint answers: the body of a 200 response, or the status
    code and detail of an [HTTPException]. *)
Inductive HttpResponse (A : Type) : Type :=
| Http200 (body : A)
| HttpError (status_code : Z) (detail : string).
Arguments Http200 {A} body.
Arguments HttpError {A} status_code detail.

(** The fields of an item as pydantic reads them: the keys of a
    dictionary or the attributes of a model. *)
Definition item_record (h : list obj) (item : val) : option (gmap string val) :=
  match item with
  | VRef l =>
      match h !! l with
      | Some (ODict f) | Some (OModel f) => Some f
      | _ => None
      end
  | _ => None
  end.

(** The validation of one element of [all_predictions] against
    [PredictionItem]. *)
Definition validate_item (h : list obj) (item : val) : result PredictionItem :=
  match item_record h item with
  | Some f =>
      match f !! "class_name", f !! "confidence" with
      | Some (VStr name), Some (VFloat c) => new_PredictionItem name c
      | _, _ => Raise ValidationError
      end
  | None => Raise ValidationError
  end.

Fixpoint validate_items (h : list obj) (items : list val) : result (list PredictionItem) :=
  match items with
  | [] => Ok []
  | v :: rest =>
      bind_result (validate_item h v) (fun it =>
      bind_result (validate_items h rest) (fun its => Ok (it :: its)))
  end.

(** The construction of [PredictionResponse] from the keys of the
    result: the four fields are required, the
    confidences must lie in [0, 1], other keys are ignored. *)
Definition validate_response (h : list obj) (response : val) : result PredictionResult :=
  match response_fields h response with
  | Some d =>
      match d !! "disease", d !! "confidence", d !! "annotated_image" with
      | Some (VStr dis), Some (VFloat c), Some (VStr img) =>
          if confidence_in_range c then
            match response_items h response with
            | Some items =>
                bind_result (validate_items h items) (fun its =>
                Ok (mkResult dis c its img))
            | None => Raise ValidationError
            end
          else Raise ValidationError
      | _, _, _ => Raise ValidationError
      end
  | None => Raise ValidationError
  end.

(** The state of the process: the model adapter, the translation
    service and the world of the translation layer. *)
Record AppState : Type := mkApp {
  app_model : AdapterState;
  app_translator : TranslatorState;
  app_world : World
}.

Section Main.

(** Whether [from app.inference import get_model] succeeded. *)
Variable INFERENCE_AVAILABLE : bool.
Variable host : LoadEnv.

(** PIL: [Image.open] with [verify], [Image.open] giving the mode and
    the image, and [image.convert("RGB")]. *)
Variable pil_verify : list Byte.byte -> option string.
Variable pil_open : list Byte.byte -> result (string * Image).
Variable convert_rgb : Image -> Image.

(** The detector: [self.model(image)] with [results[0].boxes], and
    [results[0].names]. *)
Variable detector : ModelInference -> Image -> result (option (list Detection)).
Variable names : gmap Z string.

Variable env : FontEnv.
Variable png_save : Image -> list (DrawOp (Font env)) -> list Byte.byte.
Variable provider : list request -> request -> option string.
Variable py_str : val -> string.

(** [str(e)] for an exception. *)
Variable exn_text : exn -> string.
(** Where the module-level [SUPPORTED_LANGUAGES] lives. *)
Variable catalog : loc.

(** [get_model] as main.py sees it: the one of inference.py, or the
    stand-in that raises when the import failed. *)
Definition main_get_model (s : AdapterState) : result ModelInference * AdapterState :=
  if INFERENCE_AVAILABLE then get_model host s else (Raise ImportError, s).

(** [startup_event]; [exists_now] is what [check_model_exists()]
    answers. Every exception is caught. *)
Definition startup_event (exists_now : bool) (s : AdapterState) : AdapterState :=
  if negb exists_now then s else snd (main_get_model s).

(** [health_check]: only an [ImportError] leaves its text in [error]. *)
Definition health_check (exists_now : bool) (s : AdapterState) : HealthReport * AdapterState :=
  let '(r, s') := main_get_model s in
  let loaded := is_ok r in
  let error_message :=
    match r with
    | Raise ImportError => Some (exn_text ImportError)
    | _ => None
    end in
  (mkHealth (if loaded then "healthy" else "degraded") exists_now loaded
     INFERENCE_AVAILABLE error_message,
   s').

(** [ModelInference.predict] with the detector call in front. *)
Definition model_predict (m : ModelInference) (image : Image) : result PredictionResult :=
  bind_result (detector m image) (predict env png_save names image).

(** Python's [lang and lang != "en"]. *)
Definition wants_translation (lang : option string) : bool :=
  match lang with
  | Some l => negb (String.eqb l "") && negb (String.eqb l "en")
  | None => false
  end.

(** The [except] clauses of [predict_disease] for an exception other
    than [HTTPException]. *)
Definition http_error_of (e : exn) : Z * string :=
  match e with
  | ImportError =>
      (503, "Ultralytics YOLOv8 not available: " +:+ exn_text e
              +:+ ". Please upgrade to Python 3.8+ and install dependencies.")%Z
  | FileNotFoundError => (503, "Model not available: " +:+ exn_text e)%Z
  | _ => (500, "Error during prediction: " +:+ exn_text e)%Z
  end.

Definition http_raise {A} (e : exn) : HttpResponse A :=
  HttpError (fst (http_error_of e)) (snd (http_error_of e)).

(** [predict_disease]. *)
Definition predict_disease (content_type : option string)
    (file_content : list Byte.byte) (lang : option string) (st : AppState)
  : HttpResponse PredictionResult * AppState :=
  if negb (match content_type with
           | Some ct => negb (String.eqb ct "") && String.prefix "image/" ct
           | None => false
           end)
  then (HttpError 400 "File must be an image (JPEG, PNG, etc.)", st)
  else
    match validate_image pil_verify file_content with
    | (false, error_msg) => (HttpError 400 (default "" error_msg), st)
    | (true, _) =>
        match pil_open file_content with
        | Raise e => (http_raise e, st)
        | Ok (mode, opened) =>
            let image := if String.eqb mode "RGB" then opened else convert_rgb opened in
            match main_get_model (app_model st) with
            | (Raise e, s') => (http_raise e, mkApp s' (app_translator st) (app_world st))
            | (Ok model, s') =>
                match model_predict model image with
                | Raise e => (http_raise e, mkApp s' (app_translator st) (app_world st))
                | Ok r =>
                    let '(result, w1) := store_result r (app_world st) in
                    match result with
                    | Raise e => (http_raise e, mkApp s' (app_translator st) w1)
                    | Ok response =>
                        let '(response', t', w2) :=
                          if wants_translation lang then
                            let '(_, t') := get_translator catalog (app_translator st) in
                            match translate_prediction_response provider py_str response
                                    (default "" lang) w1 with
                            | (Ok translated, w2) => (translated, t', w2)
                            | (Raise _, w2) => (response, t', w2)
                            end
                          else (response, app_translator st, w1) in
                        match validate_response (heap w2) response' with
                        | Ok body => (Http200 body, mkApp s' t' w2)
                        | Raise e => (http_raise e, mkApp s' t' w2)
                        end
                    end
                end
            end
        end
    end.

End Main.
(** The items of a response once their names went through the
    provider, when [past] lists the requests sent before; the
    confidences stay. *)
Fixpoint translated_records (provider : list request -> request -> option string)
    (target : string) (items : list PredictionItem) (past : list request)
  : list PredictionItem :=
  match items with
  | [] => []
  | it :: rest =>
      let rq := name_request target (VStr (class_name it)) in
      mkItem (default (class_name it) (provider past rq)) (confidence it)
      :: translated_records provider target rest (past ++ [rq])
  end.

(** The result of [predict] after the translation of its strings. *)
Definition translated_result (provider : list request -> request -> option string)
    (target : string) (r : PredictionResult) (past : list request) : PredictionResult :=
  let rq := name_request target (VStr (disease r)) in
  mkResult (default (disease r) (provider past rq)) (res_confidence r)
    (translated_records provider target (all_predictions r) (past ++ [rq]))
    (annotated_image r).

(** The requests the translation of a result sends: one for [disease],
    then one per item, in order. *)
Definition translation_requests (target : string) (r : PredictionResult) : list request :=
  name_request target (VStr (disease r))
  :: map (fun it => name_request target (VStr (class_name it))) (all_predictions r).

(** A confidence that passes the validation of the schema. *)
Definition valid_item (it : PredictionItem) : Prop :=
  confidence_in_range (confidence it) = true.
(** A process that has just started on a host where everything works:
    every upload decodes to the same RGB image and the detector finds the
    two boxes of the scenario. *)
Definition fresh_app : AppState := mkApp adapter_init translator_init empty_world.

Definition accepts_all (_ : list Byte.byte) : option string := None.

Definition opens_square (_ : list Byte.byte) : result (string * Image) :=
  Ok ("RGB", square_100).

Definition finds_blight (_ : ModelInference) (_ : Image)
  : result (option (list Detection)) :=
  Ok (Some blight_and_healthy).

Definition plain_text (_ : exn) : string := "error".

(** A reference that the schema reads as the item [it]. *)
Definition reads_as (h : list obj) (v : val) (it : PredictionItem) : Prop :=
  exists f,
    item_record h v = Some f /\
    f !! "class_name" = Some (VStr (class_name it)) /\
    f !! "confidence" = Some (VFloat (confidence it)).

(** A dictionary with the name and the confidence of [it]. *)
Definition dict_reads_as (f : gmap string val) (it : PredictionItem) : Prop :=
  f !! "class_name" = Some (VStr (class_name it)) /\
  f !! "confidence" = Some (VFloat (confidence it)).

(** The test on [file.content_type] that [predict_disease] starts with. *)
Definition is_image_type (content_type : option string) : bool :=
  match content_type with
  | Some ct => negb (String.eqb ct "") && String.prefix "image/" ct
  | None => false
  end.

(** ** What holds of [get_model] under every schedule *)

(** A caller that has left the test behind on either branch and, if it
    took the constructing branch, has run the constructor. *)
Definition past_construct (c : Caller) : bool :=
  match c with
  | AtTest | AtConstruct => false
  | _ => true
  end.

Definition count_past (callers : list Caller) : nat :=
  length (List.filter past_construct callers).

(** What a caller holds is backed by the shared state. *)
Definition caller_backed (s : AdapterState) (c : Caller) : Prop :=
  match c with
  | AtTest | AtConstruct => True
  | AtAssign h => In (Ok h) (constructions s)
  | AtReturn => exists h, _model_instance s = Some h
  | Returned r => exists h, r = Some h /\ In (Ok h) (constructions s)
  | Raised e => In (Raise e) (constructions s)
  end.

Definition schedule_invariant (cfg : Config) : Prop :=
  (forall h, _model_instance (fst cfg) = Some h -> In (Ok h) (constructions (fst cfg))) /\
  Forall (caller_backed (fst cfg)) (snd cfg) /\
  (length (constructions (fst cfg)) <= count_past (snd cfg))%nat.

(* ===================================================================== *)
(** * Part II. Properties                                                  *)
(* ===================================================================== *)

(** ** The stable descending sort *)

Lemma insert_desc_perm x l : Permutation (insert_desc x l) (x :: l).
Proof.
  induction l as [|y l IH]; simpl; [reflexivity|].
  destruct (Qle_bool (confidence y) (confidence x)); [reflexivity|].
  rewrite IH. apply perm_swap.
Qed.

Lemma sort_by_confidence_desc_perm l : Permutation (sort_by_confidence_desc l) l.
Proof.
  induction l as [|x l IH]; simpl; [reflexivity|].
  rewrite insert_desc_perm. by constructor.
Qed.

Lemma insert_desc_sorted x l :
  StronglySorted by_confidence_desc l ->
  StronglySorted by_confidence_desc (insert_desc x l).
Proof.
  induction 1 as [|y l Hs IH Hall]; simpl.
  - repeat constructor.
  - destruct (Qle_bool (confidence y) (confidence x)) eqn:E.
    + apply Qle_bool_iff in E. constructor; [by constructor|].
      constructor; [exact E|].
      eapply Forall_impl; [exact Hall|].
      intros z Hz. unfold by_confidence_desc in *. by eapply Qle_trans.
    + constructor; [exact IH|].
      rewrite insert_desc_perm. constructor; [|exact Hall].
      unfold by_confidence_desc.
      destruct (Qlt_le_dec (confidence x) (confidence y)) as [Hlt|Hle].
      * by apply Qlt_le_weak.
      * apply Qle_bool_iff in Hle. congruence.
Qed.

Lemma sort_by_confidence_desc_sorted l :
  StronglySorted by_confidence_desc (sort_by_confidence_desc l).
Proof.
  induction l as [|x l IH]; simpl; [constructor|].
  by apply insert_desc_sorted.
Qed.

(** An inserted item passes only items of strictly larger confidence, so
    it stays in front of the items it is equal to. *)
Lemma insert_desc_with_confidence c x l :
  with_confidence c (insert_desc x l) = with_confidence c (x :: l).
Proof.
  unfold with_confidence.
  induction l as [|y l IH]; [reflexivity|].
  cbn [insert_desc].
  destruct (Qle_bool (confidence y) (confidence x)) eqn:E; [reflexivity|].
  cbn [List.filter] in *. rewrite IH.
  destruct (Qeq_bool (confidence x) c) eqn:Ex; [|reflexivity].
  destruct (Qeq_bool (confidence y) c) eqn:Ey; [|reflexivity].
  exfalso. apply Qeq_bool_iff in Ex, Ey.
  assert (Hle : (confidence y <= confidence x)%Q) by (rewrite Ex, Ey; apply Qle_refl).
  apply Qle_bool_iff in Hle. congruence.
Qed.

Lemma sort_by_confidence_desc_stable c l :
  with_confidence c (sort_by_confidence_desc l) = with_confidence c l.
Proof.
  induction l as [|x l IH]; [reflexivity|].
  cbn [sort_by_confidence_desc foldr].
  rewrite insert_desc_with_confidence.
  unfold with_confidence in *. cbn [List.filter].
  fold (sort_by_confidence_desc l). by rewrite IH.
Qed.

Lemma sort_by_confidence_desc_nonempty x l : sort_by_confidence_desc (x :: l) <> [].
Proof.
  intros H. pose proof (sort_by_confidence_desc_perm (x :: l)) as Hp.
  rewrite H in Hp. by apply Permutation_nil_cons in Hp.
Qed.

Lemma with_confidence_head x l :
  with_confidence (confidence x) (x :: l) = x :: with_confidence (confidence x) l.
Proof.
  unfold with_confidence. cbn [List.filter].
  assert (H : Qeq_bool (confidence x) (confidence x) = true)
    by (apply Qeq_bool_iff; reflexivity).
  by rewrite H.
Qed.

Lemma with_confidence_In c x l :
  In x (with_confidence c l) -> In x l.
Proof. unfold with_confidence. intros H. by apply List.filter_In in H as [H _]. Qed.

(** Two lists sorted by descending confidence that agree on the items
    of every confidence are the same list. *)
Lemma sorted_classes_unique a :
  forall b,
    StronglySorted by_confidence_desc a ->
    StronglySorted by_confidence_desc b ->
    (forall c, with_confidence c a = with_confidence c b) ->
    a = b.
Proof.
  induction a as [|x a IH]; intros b Ha Hb Hc.
  - destruct b as [|y b]; [reflexivity|].
    specialize (Hc (confidence y)). rewrite with_confidence_head in Hc. discriminate.
  - destruct b as [|y b].
    { specialize (Hc (confidence x)). rewrite with_confidence_head in Hc. discriminate. }
    apply StronglySorted_inv in Ha as [Ha Hxa].
    apply StronglySorted_inv in Hb as [Hb Hyb].
    assert (Hxy : (confidence x <= confidence y)%Q).
    { pose proof (Hc (confidence x)) as H. rewrite with_confidence_head in H.
      assert (Hin : In x (y :: b)).
      { apply (with_confidence_In (confidence x)). rewrite <- H. by left. }
      destruct Hin as [<-|Hin]; [apply Qle_refl|].
      rewrite List.Forall_forall in Hyb. by apply Hyb. }
    assert (Hyx : (confidence y <= confidence x)%Q).
    { pose proof (Hc (confidence y)) as H. rewrite with_confidence_head in H.
      assert (Hin : In y (x :: a)).
      { apply (with_confidence_In (confidence y)). rewrite H. by left. }
      destruct Hin as [<-|Hin]; [apply Qle_refl|].
      rewrite List.Forall_forall in Hxa. by apply Hxa. }
    assert (Heq : Qeq_bool (confidence y) (confidence x) = true).
    { apply Qeq_bool_iff. by apply Qle_antisym. }
    assert (x = y) as <-.
    { pose proof (Hc (confidence x)) as H. rewrite with_confidence_head in H.
      unfold with_confidence in H. cbn [List.filter] in H. rewrite Heq in H.
      by injection H. }
    f_equal. apply IH; [exact Ha|exact Hb|].
    intros c. specialize (Hc c). unfold with_confidence in *.
    cbn [List.filter] in Hc.
    destruct (Qeq_bool (confidence x) c); [by injection Hc|exact Hc].
Qed.

(** X7. The order of [all_predictions] is fixed by the detections: any
    list that is sorted by descending confidence and agrees with the
    input on the items of every confidence, in their order, is the list
    the sort returns. *)
Lemma stable_descending_sort_unique l l' :
  StronglySorted by_confidence_desc l' ->
  (forall c, with_confidence c l' = with_confidence c l) ->
  l' = sort_by_confidence_desc l.
Proof.
  intros Hs Hc. apply sorted_classes_unique.
  - exact Hs.
  - apply sort_by_confidence_desc_sorted.
  - intros c. by rewrite Hc, sort_by_confidence_desc_stable.
Qed.

(** ** The loop over the detections *)

(** [draw.text] finds a font exactly when one was resolved: without
    one, the default font it asks for is the one that failed to load. *)
Lemma resolve_font_draws env :
  is_ok (draw_text_font env (resolve_font env)) = true <-> resolve_font env <> None.
Proof.
  unfold draw_text_font.
  destruct (resolve_font env) as [f|] eqn:E; [done|].
  unfold resolve_font in E.
  destruct (probe_fonts env font_paths); [discriminate|].
  rewrite E. done.
Qed.

Lemma resolve_font_none_raises env :
  resolve_font env = None ->
  draw_text_font env (resolve_font env) = Raise (load_default_error env).
Proof.
  intros E. rewrite E. unfold draw_text_font.
  unfold resolve_font in E.
  destruct (probe_fonts env font_paths); [discriminate|].
  by rewrite E.
Qed.

Lemma detection_loop_ok env font names dets ops items :
  is_ok (draw_text_font env font) = true ->
  forallb (well_formed_detection names) dets = true ->
  detection_loop env font names dets ops items =
    Ok ((ops ++ drawn env font names dets)%list,
        (items ++ map (item_of names) dets)%list).
Proof.
  intros Hdraw. revert ops items.
  induction dets as [|d dets IH]; intros ops items Hwf; simpl.
  - by rewrite !app_nil_r.
  - simpl in Hwf. apply andb_true_iff in Hwf as [Hd Hrest].
    unfold well_formed_detection in Hd.
    unfold item_of at 1.
    destruct (names !! det_class_id d) as [name|] eqn:En; [|discriminate].
    destruct (draw_text_font env font) as [f|fe]; [|discriminate].
    unfold new_PredictionItem. rewrite Hd. simpl.
    rewrite IH by exact Hrest.
    by rewrite <- !app_assoc.
Qed.

(** What an iteration that has found its class name does next. *)
Lemma detection_loop_step env font names d name rest ops items :
  names !! det_class_id d = Some name ->
  detection_loop env font names (d :: rest) ops items
  = match draw_text_font env font with
    | Ok _ =>
        bind_result (new_PredictionItem name (det_conf d)) (fun it =>
        detection_loop env font names rest
          (ops ++ draw_detection env font name d)%list (items ++ [it])%list)
    | Raise e => Raise e
    end.
Proof.
  intros En. cbn [detection_loop]. rewrite En.
  by destruct (draw_text_font env font).
Qed.

Lemma detection_loop_accepts env font names dets ops items r :
  detection_loop env font names dets ops items = Ok r ->
  forallb (well_formed_detection names) dets = true /\
  (dets <> [] -> is_ok (draw_text_font env font) = true).
Proof.
  revert ops items.
  induction dets as [|d dets IH]; intros ops items; [done|].
  cbn [forallb]. unfold well_formed_detection at 1.
  destruct (names !! det_class_id d) as [name|] eqn:En;
    [|cbn [detection_loop]; rewrite En; discriminate].
  rewrite (detection_loop_step _ _ _ _ _ _ _ _ En).
  destruct (draw_text_font env font) as [f|fe] eqn:Ef; [|discriminate].
  unfold new_PredictionItem.
  destruct (confidence_in_range (det_conf d)); [|discriminate].
  cbn [bind_result]. intros H. apply IH in H as [H _].
  by rewrite H.
Qed.

Lemma detection_loop_length env font names dets ops items r :
  detection_loop env font names dets ops items = Ok r ->
  length (snd r) = (length items + length dets)%nat.
Proof.
  revert ops items.
  induction dets as [|d dets IH]; intros ops items; simpl.
  - intros [= <-]. simpl. lia.
  - destruct (names !! det_class_id d) as [name|]; [|discriminate].
    destruct (draw_text_font env font); simpl; [|discriminate].
    destruct (new_PredictionItem name (det_conf d)); simpl; [|discriminate].
    intros H. apply IH in H. rewrite H, length_app. simpl. lia.
Qed.

(** ** [predict] *)

Lemma predict_is_ok env png names image d rest :
  is_ok (predict env png names image (Some (d :: rest)))
  = is_ok (detection_loop env (resolve_font env) names (d :: rest) [] []).
Proof.
  unfold predict.
  destruct (detection_loop env (resolve_font env) names (d :: rest) [] [])
    as [[ops items]|e] eqn:E; [|reflexivity].
  apply detection_loop_length in E. simpl in E.
  destruct items as [|it items]; [discriminate|].
  cbn [bind_result].
  destruct (sort_by_confidence_desc (it :: items)) eqn:Es.
  - exfalso. by apply (sort_by_confidence_desc_nonempty it items).
  - reflexivity.
Qed.

Lemma predict_invariant env png names image boxes r :
  predict env png names image boxes = Ok r -> result_invariant r.
Proof.
  unfold predict, result_invariant.
  destruct boxes as [[|d rest]|].
  - intros [= <-]. by exists sentinel_item, [].
  - destruct (detection_loop env (resolve_font env) names (d :: rest) [] [])
      as [[ops items]|e]; simpl; [|discriminate].
    destruct (sort_by_confidence_desc items) as [|primary others] eqn:Es;
      [discriminate|].
    intros [= <-]. by exists primary, others.
  - intros [= <-]. by exists sentinel_item, [].
Qed.

(** C2. For every non-empty sequence of detections the loop accepts,
    on a host where a font is resolved, [predict] returns a result whose
    [all_predictions] is sorted by descending confidence, is a
    permutation of the items of the detections in which items of equal
    confidence keep their order, and whose [disease] and [confidence] are
    those of its first item.  (Where no font is resolved the loop raises
    at the first label, so there is no list to order.) *)
Theorem predict_orders_detections env png names image dets :
  dets <> [] ->
  forallb (well_formed_detection names) dets = true ->
  resolve_font env <> None ->
  exists r,
    predict env png names image (Some dets) = Ok r /\
    StronglySorted by_confidence_desc (all_predictions r) /\
    Permutation (all_predictions r) (map (item_of names) dets) /\
    (forall c, with_confidence c (all_predictions r)
               = with_confidence c (map (item_of names) dets)) /\
    all_predictions r = sort_by_confidence_desc (map (item_of names) dets) /\
    result_invariant r.
Proof.
  intros Hne Hwf Hfont. apply resolve_font_draws in Hfont.
  destruct dets as [|d rest]; [done|].
  unfold predict.
  rewrite detection_loop_ok by assumption. cbn [bind_result app].
  destruct (sort_by_confidence_desc (map (item_of names) (d :: rest)))
    as [|primary others] eqn:Es.
  { exfalso. simpl in Es. by apply sort_by_confidence_desc_nonempty in Es. }
  eexists. split; [reflexivity|]. cbn [all_predictions].
  rewrite <- Es.
  split; [apply sort_by_confidence_desc_sorted|].
  split; [apply sort_by_confidence_desc_perm|].
  split; [intros c; apply sort_by_confidence_desc_stable|].
  split; [reflexivity|].
  exists primary, others. by rewrite Es.
Qed.

Lemma predict_orders_detections_witness :
  rev blight_and_healthy <> [] /\
  forallb (well_formed_detection two_classes) (rev blight_and_healthy) = true /\
  resolve_font dejavu_host <> None /\
  exists r,
    predict dejavu_host signature_only two_classes square_100
      (Some (rev blight_and_healthy)) = Ok r /\
    StronglySorted by_confidence_desc (all_predictions r) /\
    Permutation (all_predictions r)
      (map (item_of two_classes) (rev blight_and_healthy)) /\
    (forall c, with_confidence c (all_predictions r)
               = with_confidence c (map (item_of two_classes) (rev blight_and_healthy))) /\
    all_predictions r
      = sort_by_confidence_desc (map (item_of two_classes) (rev blight_and_healthy)) /\
    result_invariant r.
Proof.
  split; [discriminate|]. split; [reflexivity|]. split; [discriminate|].
  apply (predict_orders_detections dejavu_host signature_only two_classes
           square_100 (rev blight_and_healthy));
    [discriminate|reflexivity|discriminate].
Defined.

(** The scenario of the specification: "Leaf Blight" at 0.91 and
    "Healthy" at 0.40, detected in either order. *)
Example predict_blight_and_healthy :
  forall dets, dets = blight_and_healthy \/ dets = rev blight_and_healthy ->
  exists img,
    predict dejavu_host signature_only two_classes square_100 (Some dets)
    = Ok (mkResult "Leaf Blight" (91 # 100)
            [mkItem "Leaf Blight" (91 # 100); mkItem "Healthy" (4 # 10)] img).
Proof. intros dets [-> | ->]; eexists; vm_compute; reflexivity. Qed.

(** Two detections of equal confidence keep the order of detection. *)
Example predict_tie_keeps_order :
  exists img,
    predict dejavu_host signature_only two_classes square_100
      (Some [ mkDet (0, 0, 5, 5)%Q 0 (1 # 2); mkDet (0, 0, 5, 5)%Q 1 (2 # 4);
              mkDet (0, 0, 5, 5)%Q 0 (3 # 4) ])
    = Ok (mkResult "Healthy" (3 # 4)
            [mkItem "Healthy" (3 # 4); mkItem "Healthy" (1 # 2);
             mkItem "Leaf Blight" (2 # 4)] img).
Proof. eexists; vm_compute; reflexivity. Qed.

(** C3. With no box detected ([boxes] is [None] or empty) [predict]
    returns, and what it returns holds the single item
    "No Disease Detected" with confidence 0.0 and repeats it as the
    primary diagnosis. *)
Theorem predict_no_detection env png names image :
  predict env png names image (Some [])
    = Ok (mkResult "No Disease Detected" 0
            [mkItem "No Disease Detected" 0]
            (encode_annotated (png image []))) /\
  predict env png names image None
    = Ok (mkResult "No Disease Detected" 0
            [mkItem "No Disease Detected" 0]
            (encode_annotated (png image []))).
Proof. split; reflexivity. Qed.

(** ** The encoding of the annotated image *)

(** The test vectors of RFC 4648. *)
Example b64_rfc4648 :
  map (fun s => b64encode (map byte_of_ascii (list_ascii_of_string s)))
    [""; "f"; "fo"; "foo"; "foob"; "fooba"; "foobar"]
  = [""; "Zg=="; "Zm8="; "Zm9v"; "Zm9vYg=="; "Zm9vYmE="; "Zm9vYmFy"].
Proof. reflexivity. Qed.

(** Python prints 0.125 as 0.12 and 0.375 as 0.38: ties go to even. *)
Example format_2f_examples :
  map format_2f [91 # 100; 4 # 10; 1 # 8; 3 # 8; 0; 1; 999 # 1000]%Q
  = ["0.91"; "0.40"; "0.12"; "0.38"; "0.00"; "1.00"; "1.00"].
Proof. reflexivity. Qed.

(** The drawing calls whose outcome [predict] encodes. *)
Lemma predict_annotated_image env png names image boxes r :
  predict env png names image boxes = Ok r ->
  annotated_image r
  = encode_annotated
      (png image (drawn env (resolve_font env) names (default [] boxes))).
Proof.
  unfold predict.
  destruct boxes as [[|d rest]|]; try (by intros [= <-]).
  destruct (detection_loop env (resolve_font env) names (d :: rest) [] [])
    as [[ops items]|e] eqn:E; [|discriminate].
  cbn [bind_result].
  destruct (sort_by_confidence_desc items); [discriminate|].
  intros [= <-]. cbn [annotated_image default].
  pose proof (detection_loop_accepts _ _ _ _ _ _ _ E) as [Hwf Hdraw].
  rewrite detection_loop_ok in E by (try apply Hdraw; done).
  by injection E as <- _.
Qed.

(** C6, as the code has it. Whenever [predict] returns, its
    [annotated_image] is the text "data:image/png;base64," followed by
    the base64 text of the PNG bytes of the annotated copy: the pipeline
    itself builds the data URI. *)
Theorem predict_returns_data_uri env png names image boxes r :
  predict env png names image boxes = Ok r ->
  annotated_image r
  = "data:image/png;base64,"
    +:+ b64encode
          (png image (drawn env (resolve_font env) names (default [] boxes))).
Proof. apply predict_annotated_image. Qed.

Lemma predict_returns_data_uri_witness :
  predict no_fonts signature_only two_classes square_100 None
    = Ok (mkResult "No Disease Detected" 0 [mkItem "No Disease Detected" 0]
            "data:image/png;base64,iVBORw0KGgo=") /\
  annotated_image
    (mkResult "No Disease Detected" 0 [mkItem "No Disease Detected" 0]
       "data:image/png;base64,iVBORw0KGgo=")
  = "data:image/png;base64,"
    +:+ b64encode
          (signature_only square_100
             (drawn no_fonts (resolve_font no_fonts) two_classes (default [] None))).
Proof.
  split; [reflexivity|].
  apply (predict_returns_data_uri no_fonts signature_only two_classes
           square_100 None). reflexivity.
Defined.

(** C6 as stated fails: what [predict] hands back is not the encoded
    bytes of the image but a data URI built from them. *)
Lemma predict_returns_bytes_counterexample :
  exists r,
    predict no_fonts signature_only two_classes square_100 None = Ok r /\
    annotated_image r = "data:image/png;base64,iVBORw0KGgo=" /\
    annotated_image r <> bytes_to_string (signature_only square_100 (@nil (DrawOp unit))).
Proof.
  eexists. split; [reflexivity|]. split; [reflexivity|]. discriminate.
Qed.

(** ** Fonts and the layout of labels *)

Lemma py_max0_nonneg v : (0 <= py_max0 v)%Q.
Proof.
  unfold py_max0. destruct (0 ?= v)%Q eqn:E; try apply Qle_refl.
  apply Qlt_le_weak. by rewrite Qlt_alt.
Qed.

Lemma py_max0_upper v : (v <= py_max0 v)%Q.
Proof.
  unfold py_max0. destruct (0 ?= v)%Q eqn:E; try apply Qle_refl.
  - apply Qeq_alt in E. rewrite <- E. apply Qle_refl.
  - apply Qlt_le_weak. by rewrite Qgt_alt.
Qed.

Lemma py_max0_cases v : py_max0 v = 0%Q \/ py_max0 v = v.
Proof. unfold py_max0. destruct (0 ?= v)%Q; auto. Qed.







(** On a host with a font the measured size is used. *)
Example text_size_with_font :
  resolve_font dejavu_host = Some tt /\
  text_size dejavu_host (resolve_font dejavu_host) "Healthy: 0.40" = (104 - 0, 15 - 0)%Q.
Proof. split; reflexivity. Qed.


(** ** The model adapter, one call after the other *)

Lemma get_model_cached host s h :
  _model_instance s = Some h -> get_model host s = (Ok h, s).
Proof. intros H. unfold get_model. by rewrite H. Qed.

Lemma get_model_ok host s h s' :
  get_model host s = (Ok h, s') -> _model_instance s' = Some h.
Proof.
  unfold get_model, construct.
  destruct (_model_instance s) as [h0|] eqn:E.
  - intros [= <- <-]. exact E.
  - destruct (ModelInference_init host (length (constructions s)));
      intros [= <- <-]; reflexivity.
Qed.

Lemma get_model_raise host s e s' :
  get_model host s = (Raise e, s') ->
  _model_instance s = None /\
  ModelInference_init host (length (constructions s)) = Raise e /\
  s' = mkAdapter None (constructions s ++ [Raise e])%list.
Proof.
  unfold get_model, construct.
  destruct (_model_instance s) as [h0|] eqn:E; [discriminate|].
  destruct (ModelInference_init host (length (constructions s))) as [h|e'];
    intros [= <- <-]; auto.
Qed.

Lemma get_model_calls_cached host n s h :
  _model_instance s = Some h ->
  get_model_calls host n s = (repeat (Ok h) n, s).
Proof.
  intros H. induction n as [|n IH]; [reflexivity|].
  cbn [get_model_calls]. rewrite (get_model_cached host s h H), IH. reflexivity.
Qed.

Lemma loads_done_snoc s r :
  loads_done (mkAdapter (_model_instance s) (constructions s ++ [r])%list)
  = (loads_done s + (if is_ok r then 1 else 0))%nat.
Proof.
  unfold loads_done. cbn [constructions].
  rewrite List.filter_app, length_app. cbn [List.filter].
  destruct (is_ok r); reflexivity.
Qed.

Lemma get_model_coherent host s :
  coherent s -> coherent (snd (get_model host s)).
Proof.
  unfold coherent, get_model, construct.
  destruct (_model_instance s) as [h|] eqn:E; cbn [snd].
  - by rewrite E.
  - intros H0.
    pose proof (loads_done_snoc s (ModelInference_init host (length (constructions s)))) as Hs.
    rewrite E in Hs.
    destruct (ModelInference_init host (length (constructions s))) as [h|e];
      cbn [snd _model_instance constructions is_ok] in *.
    + unfold loads_done in *. cbn [constructions] in *. lia.
    + lia.
Qed.

Lemma get_model_calls_coherent host n s :
  coherent s -> coherent (snd (get_model_calls host n s)).
Proof.
  revert s. induction n as [|n IH]; intros s Hs; [exact Hs|].
  cbn [get_model_calls].
  pose proof (get_model_coherent host s Hs) as H1.
  destruct (get_model host s) as [r s1]. cbn [snd] in H1.
  specialize (IH s1 H1).
  destruct (get_model_calls host n s1) as [rs s2]. exact IH.
Qed.

(** C8. In sequential execution: once [get_model] has returned an
    instance, every later call returns that instance and leaves the
    state, so also the record of constructor calls, as it is; a call that
    raises leaves the global unset, and the next call runs the
    constructor again; and from the start of the process at most one
    constructor call ever succeeds. *)
Theorem get_model_loads_once :
  (forall host s h s1,
      get_model host s = (Ok h, s1) ->
      forall n, get_model_calls host n s1 = (repeat (Ok h) n, s1)) /\
  (forall host s e s1,
      get_model host s = (Raise e, s1) ->
      _model_instance s1 = None /\
      get_model host s1
      = (let r := ModelInference_init host (length (constructions s1)) in
         (r, mkAdapter (match r with Ok h => Some h | Raise _ => None end)
               (constructions s1 ++ [r])%list))) /\
  (forall host n,
      (loads_done (snd (get_model_calls host n adapter_init)) <= 1)%nat).
Proof.
  split; [|split].
  - intros host s h s1 H n.
    apply get_model_calls_cached. by eapply get_model_ok.
  - intros host s e s1 H.
    apply get_model_raise in H as (_ & _ & ->).
    split; [reflexivity|].
    unfold get_model, construct. cbn [_model_instance constructions].
    by destruct (ModelInference_init host _).
  - intros host n.
    pose proof (get_model_calls_coherent host n adapter_init eq_refl) as H.
    unfold coherent in H.
    destruct (_model_instance (snd (get_model_calls host n adapter_init))); lia.
Qed.

Lemma get_model_loads_once_witness :
  (get_model always_loads adapter_init
   = (Ok (mkModel 0), mkAdapter (Some (mkModel 0)) [Ok (mkModel 0)]) /\
   get_model_calls always_loads 3 (mkAdapter (Some (mkModel 0)) [Ok (mkModel 0)])
   = (repeat (Ok (mkModel 0)) 3, mkAdapter (Some (mkModel 0)) [Ok (mkModel 0)])) /\
  (get_model file_arrives_late adapter_init
   = (Raise FileNotFoundError, mkAdapter None [Raise FileNotFoundError]) /\
   _model_instance (mkAdapter None [Raise FileNotFoundError]) = None /\
   get_model file_arrives_late (mkAdapter None [Raise FileNotFoundError])
   = (Ok (mkModel 1),
      mkAdapter (Some (mkModel 1)) [Raise FileNotFoundError; Ok (mkModel 1)])).
Proof.
  destruct get_model_loads_once as (Hcached & Hretry & _).
  split.
  - split; [reflexivity|].
    apply (Hcached always_loads adapter_init). reflexivity.
  - split; [reflexivity|].
    apply (Hretry file_arrives_late adapter_init FileNotFoundError). reflexivity.
Defined.

(** ** The model adapter under interleaving *)

Lemma run_schedule_app host s1 s2 cfg :
  run_schedule host (s1 ++ s2) cfg
  = run_schedule host s2 (run_schedule host s1 cfg).
Proof. apply fold_left_app. Qed.

(** A caller that is done stays as it is, and so does the state. *)
Lemma run_schedule_done host i k s callers c :
  callers !! i = Some c ->
  caller_step host s c = (s, c) ->
  run_schedule host (repeat i k) (s, callers) = (s, callers).
Proof.
  intros Hi Hc. induction k as [|k IH]; [reflexivity|].
  cbn [repeat run_schedule fold_left]. unfold sched_step at 2. cbn [fst snd].
  rewrite Hi, Hc, list_insert_id by exact Hi. exact IH.
Qed.

(** Run without interruption, the four steps of a caller are
    [get_model]. *)
Lemma caller_steps_are_get_model host s :
  let '(s1, c1) := caller_step host s AtTest in
  let '(s2, c2) := caller_step host s1 c1 in
  let '(s3, c3) := caller_step host s2 c2 in
  let '(s4, c4) := caller_step host s3 c3 in
  (s4, c4) = (snd (get_model host s), finished (fst (get_model host s))).
Proof.
  unfold get_model, caller_step, construct.
  destruct (_model_instance s) as [h|] eqn:E; cbn.
  - by rewrite E.
  - destruct (ModelInference_init host (length (constructions s)));
      cbn; rewrite ?E; reflexivity.
Qed.

Lemma init_ok_first host :
  is_ok (ModelInference_init host 0) = true ->
  ModelInference_init host 0 = Ok (mkModel 0).
Proof.
  unfold ModelInference_init.
  by destruct (ULTRALYTICS_AVAILABLE host), (model_path_exists host 0),
    (yolo_loads host 0).
Qed.

(** C9, as the code has it. When two callers find the model unloaded
    and run [get_model] one after the other, each to its end before the
    other starts (nothing in [get_model] suspends a caller), and the
    load succeeds, one constructor call is made and both receive the same
    object. *)
Theorem get_model_two_callers_in_turn host a b :
  is_ok (ModelInference_init host 0) = true ->
  (4 <= a)%nat -> (4 <= b)%nat ->
  run_schedule host (repeat 0%nat a ++ repeat 1%nat b)
    (adapter_init, [AtTest; AtTest])
  = (mkAdapter (Some (mkModel 0)) [Ok (mkModel 0)],
     [Returned (Some (mkModel 0)); Returned (Some (mkModel 0))]) /\
  run_schedule host (repeat 1%nat b ++ repeat 0%nat a)
    (adapter_init, [AtTest; AtTest])
  = (mkAdapter (Some (mkModel 0)) [Ok (mkModel 0)],
     [Returned (Some (mkModel 0)); Returned (Some (mkModel 0))]).
Proof.
  intros Hok Ha Hb. apply init_ok_first in Hok.
  replace a with (4 + (a - 4))%nat by lia.
  replace b with (4 + (b - 4))%nat by lia.
  rewrite !repeat_app, <- !app_assoc, !run_schedule_app.
  assert (H0 : run_schedule host (repeat 0%nat 4) (adapter_init, [AtTest; AtTest])
               = (mkAdapter (Some (mkModel 0)) [Ok (mkModel 0)],
                  [Returned (Some (mkModel 0)); AtTest])).
  { cbn. unfold construct. cbn. rewrite Hok. reflexivity. }
  assert (H1 : run_schedule host (repeat 1%nat 4) (adapter_init, [AtTest; AtTest])
               = (mkAdapter (Some (mkModel 0)) [Ok (mkModel 0)],
                  [AtTest; Returned (Some (mkModel 0))])).
  { cbn. unfold construct. cbn. rewrite Hok. reflexivity. }
  split.
  - rewrite H0.
    rewrite (run_schedule_done host 0 _ _ _ (Returned (Some (mkModel 0))))
      by reflexivity.
    replace (run_schedule host (repeat 1%nat 4) _)
      with (mkAdapter (Some (mkModel 0)) [Ok (mkModel 0)],
            [Returned (Some (mkModel 0)); Returned (Some (mkModel 0))])
      by reflexivity.
    by rewrite (run_schedule_done host 1 _ _ _ (Returned (Some (mkModel 0)))).
  - rewrite H1.
    rewrite (run_schedule_done host 1 _ _ _ (Returned (Some (mkModel 0))))
      by reflexivity.
    replace (run_schedule host (repeat 0%nat 4) _)
      with (mkAdapter (Some (mkModel 0)) [Ok (mkModel 0)],
            [Returned (Some (mkModel 0)); Returned (Some (mkModel 0))])
      by reflexivity.
    by rewrite (run_schedule_done host 0 _ _ _ (Returned (Some (mkModel 0)))).
Qed.

Lemma get_model_two_callers_in_turn_witness :
  is_ok (ModelInference_init always_loads 0) = true /\
  (4 <= 4)%nat /\ (4 <= 5)%nat /\
  run_schedule always_loads (repeat 0%nat 4 ++ repeat 1%nat 5)
    (adapter_init, [AtTest; AtTest])
  = (mkAdapter (Some (mkModel 0)) [Ok (mkModel 0)],
     [Returned (Some (mkModel 0)); Returned (Some (mkModel 0))]).
Proof.
  split; [reflexivity|]. split; [lia|]. split; [lia|].
  apply (get_model_two_callers_in_turn always_loads 4 5); [reflexivity|lia|lia].
Defined.

(** C9 as stated fails: no lock guards the construction. When the
    second caller tests the global before the first has stored its
    object, both are inside the construction step at once, the
    constructor runs twice and the callers receive different objects. *)
Lemma get_model_interleaved_counterexample :
  let start := (adapter_init, [AtTest; AtTest]) in
  forallb in_construction (snd (run_schedule always_loads [0; 1]%nat start)) = true /\
  run_schedule always_loads [0; 1; 0; 0; 0; 1; 1; 1]%nat start
  = (mkAdapter (Some (mkModel 1)) [Ok (mkModel 0); Ok (mkModel 1)],
     [Returned (Some (mkModel 0)); Returned (Some (mkModel 1))]) /\
  loads_done (fst (run_schedule always_loads [0; 1; 0; 0; 0; 1; 1; 1]%nat start)) = 2%nat /\
  mkModel 0 <> mkModel 1.
Proof. cbv zeta. repeat split; try reflexivity. discriminate. Qed.

(** ** The translation layer: the store *)

Lemma val_in_store_lookup pre ext l :
  val_in_store pre (VRef l) -> (pre ++ ext) !! l = pre !! l.
Proof. intros H. apply lookup_app_l. exact H. Qed.

Lemma store_at_end (pre : list obj) rest o o' :
  <[length pre := o']> (pre ++ o :: rest) = pre ++ o' :: rest.
Proof. rewrite insert_app_r_alt by lia. by rewrite Nat.sub_diag. Qed.

Lemma to_dict_copy_spec py_str pre ext rq pred :
  val_in_store pre pred ->
  to_dict_copy py_str pred (mkWorld (pre ++ ext) rq)
  = (Ok (length (pre ++ ext)),
     mkWorld ((pre ++ ext) ++ [ODict (item_dict py_str pre pred)]) rq).
Proof.
  intros Hv. destruct pred as [| | |l]; try reflexivity.
  unfold to_dict_copy, item_dict, bind, load. cbn [heap].
  rewrite (val_in_store_lookup pre ext l Hv).
  destruct (pre !! l) as [[]|]; reflexivity.
Qed.

Lemma translate_text_spec provider text target rq h :
  lang_eqb target "en" = false ->
  translate_text provider text target "en" (mkWorld h rq)
  = (Ok (outcome (provider rq ("en", target, text)) text),
     mkWorld h (rq ++ [("en", target, text)])).
Proof.
  intros Hne. unfold translate_text. rewrite Hne. cbn [orb].
  unfold bind, provider_translate. cbn [heap requests].
  destruct (provider rq ("en", target, text)); reflexivity.
Qed.

Lemma translate_one_spec provider py_str target pre acc dicts rq pred :
  lang_eqb target "en" = false ->
  val_in_store pre pred ->
  translate_one provider py_str (length pre) target pred
    (mkWorld (pre ++ OList acc :: map ODict dicts) rq)
  = (Ok tt,
     mkWorld
       (pre ++ OList (acc ++ [VRef (length pre + 1 + length dicts)])
          :: map ODict
               (dicts ++ [<["class_name" :=
                             outcome (provider rq (name_request target (original_name py_str pre pred)))
                               (original_name py_str pre pred)]>
                            (item_dict py_str pre pred)]))
       (rq ++ [name_request target (original_name py_str pre pred)])).
Proof.
  intros Hne Hv. unfold translate_one.
  unfold bind at 1. rewrite to_dict_copy_spec by exact Hv.
  set (H := pre ++ OList acc :: map ODict dicts).
  set (f := item_dict py_str pre pred).
  unfold bind at 1. unfold dict_lookup, bind at 1, load. cbn [heap].
  rewrite list_lookup_middle by reflexivity.
  unfold ret. 
  unfold bind at 1. rewrite translate_text_spec by exact Hne.
  unfold bind at 1, dict_set, bind at 1, load. cbn [heap].
  rewrite list_lookup_middle by reflexivity.
  unfold store. cbn [heap requests].
  rewrite store_at_end.
  unfold list_append, bind, load. cbn [heap].
  subst H. rewrite <- app_assoc. cbn [app].
  rewrite list_lookup_middle by reflexivity.
  unfold store. cbn [heap requests].
  rewrite store_at_end.
  rewrite map_app, length_app. cbn [length map]. rewrite length_map.
  replace (length pre + S (length dicts))%nat with (length pre + 1 + length dicts)%nat by lia.
  reflexivity.
Qed.

Lemma for_each_translate_one provider py_str target pre items :
  lang_eqb target "en" = false ->
  Forall (val_in_store pre) items ->
  forall acc dicts rq,
  for_each (translate_one provider py_str (length pre) target) items
    (mkWorld (pre ++ OList acc :: map ODict dicts) rq)
  = (Ok tt,
     mkWorld
       (pre ++ OList (acc ++ map VRef (seq (length pre + 1 + length dicts) (length items)))
          :: map ODict (dicts ++ translated_dicts provider py_str target pre items rq))
       (rq ++ map (fun it => name_request target (original_name py_str pre it)) items)).
Proof.
  intros Hne Hall. induction Hall as [|it items Hit Hall IH]; intros acc dicts rq.
  - cbn. by rewrite !app_nil_r.
  - cbn [for_each]. unfold bind at 1.
    rewrite translate_one_spec by assumption.
    rewrite IH. rewrite <- !app_assoc. cbn [length seq map app translated_dicts].
    rewrite length_app. cbn [length].
    replace (length pre + 1 + (length dicts + 1))%nat
      with (S (length pre + 1 + length dicts)) by lia.
    reflexivity.
Qed.

Lemma translate_disease_names_spec provider py_str target h rq li items :
  lang_eqb target "en" = false ->
  h !! li = Some (OList items) ->
  Forall (val_in_store h) items ->
  translate_disease_names provider py_str (VRef li) target (mkWorld h rq)
  = (Ok (VRef (length h)),
     mkWorld
       (h ++ OList (map VRef (seq (length h + 1) (length items)))
          :: map ODict (translated_dicts provider py_str target h items rq))
       (rq ++ map (fun it => name_request target (original_name py_str h it)) items)).
Proof.
  intros Hne Hli Hall. unfold translate_disease_names. rewrite Hne.
  unfold bind at 1, alloc. cbn [heap requests].
  unfold bind at 1, iterate, bind at 1, load. cbn [heap].
  rewrite (lookup_app_l_Some _ _ _ _ Hli). unfold ret at 1.
  unfold bind at 1.
  rewrite (for_each_translate_one provider py_str target h items Hne Hall [] []).
  cbn [length app map]. rewrite Nat.add_0_r. reflexivity.
Qed.

Lemma val_in_store_app h ext v : val_in_store h v -> val_in_store (h ++ ext) v.
Proof. destruct v; simpl; auto. rewrite length_app. lia. Qed.

Lemma item_dict_app py_str h ext v :
  val_in_store h v -> item_dict py_str (h ++ ext) v = item_dict py_str h v.
Proof.
  destruct v as [| | |l]; try reflexivity. intros Hv.
  unfold item_dict. by rewrite (val_in_store_lookup h ext l Hv).
Qed.

Lemma original_name_app py_str h ext v :
  val_in_store h v -> original_name py_str (h ++ ext) v = original_name py_str h v.
Proof. intros Hv. unfold original_name. by rewrite item_dict_app. Qed.

Lemma translated_dicts_app provider py_str target h ext items :
  Forall (val_in_store h) items ->
  forall rq,
  translated_dicts provider py_str target (h ++ ext) items rq
  = translated_dicts provider py_str target h items rq.
Proof.
  induction 1 as [|it items Hit Hall IH]; intros rq; [reflexivity|].
  cbn [translated_dicts]. by rewrite IH, original_name_app, item_dict_app.
Qed.

Lemma translate_prediction_response_spec provider py_str target h rq r d li items :
  lang_eqb target "en" = false ->
  h !! r = Some (ODict d) ->
  d !! "all_predictions" = Some (VRef li) ->
  h !! li = Some (OList items) ->
  Forall (val_in_store h) items ->
  translate_prediction_response provider py_str (VRef r) target (mkWorld h rq)
  = (Ok (VRef (length h)),
     mkWorld
       (h ++ ODict (<["all_predictions" := VRef (length h + 1)]>
                      (translated_disease provider target d rq))
          :: OList (map VRef (seq (length h + 2) (length items)))
          :: map ODict (translated_dicts provider py_str target h items
                          (rq ++ disease_requests target d)))
       (rq ++ disease_requests target d
           ++ map (fun it => name_request target (original_name py_str h it)) items)).
Proof.
  intros Hne Hr Hap Hli Hall.
  unfold translate_prediction_response. rewrite Hne.
  unfold bind at 1, dict_copy, bind at 1, load. cbn [heap]. rewrite Hr.
  unfold alloc. cbn [heap requests].
  unfold bind at 1, dict_lookup, bind at 1, load. cbn [heap].
  rewrite list_lookup_middle by reflexivity. unfold ret at 1.
  assert (Hstep :
    (match d !! "disease" with
     | Some original_disease =>
         let! translated_disease0 := translate_text provider original_disease target "en" in
         dict_set (length h) "disease" translated_disease0
     | None => ret ()
     end) (mkWorld (h ++ [ODict d]) rq)
    = (Ok tt, mkWorld (h ++ [ODict (translated_disease provider target d rq)])
                (rq ++ disease_requests target d))).
  { unfold translated_disease, disease_requests.
    destruct (d !! "disease") as [od|]; cbn [option_list map].
    - unfold bind at 1. rewrite translate_text_spec by exact Hne.
      unfold dict_set, bind, load. cbn [heap].
      rewrite list_lookup_middle by reflexivity.
      unfold store. cbn [heap requests]. by rewrite store_at_end.
    - unfold ret. by rewrite app_nil_r. }
  unfold bind at 1. rewrite Hstep. clear Hstep.
  set (d1 := translated_disease provider target d rq).
  assert (Hap1 : d1 !! "all_predictions" = Some (VRef li)).
  { subst d1. unfold translated_disease.
    destruct (d !! "disease"); [|exact Hap].
    by rewrite lookup_insert_ne. }
  unfold bind at 1, dict_lookup, bind at 1, load. cbn [heap].
  rewrite list_lookup_middle by reflexivity. unfold ret at 1. rewrite Hap1.
  unfold bind at 1. unfold bind at 1.
  rewrite (translate_disease_names_spec provider py_str target
             (h ++ [ODict d1]) _ li items Hne).
  2:{ by apply lookup_app_l_Some. }
  2:{ eapply Forall_impl; [exact Hall|]. intros v. apply val_in_store_app. }
  unfold dict_set, bind at 1, load. cbn [heap].
  rewrite <- !app_assoc. cbn [app].
  rewrite list_lookup_middle by reflexivity.
  unfold store, bind, ret. cbn [heap requests].
  rewrite store_at_end.
  rewrite translated_dicts_app by exact Hall.
  rewrite length_app. cbn [length].
  replace (length h + 1 + 1)%nat with (length h + 2)%nat by lia.
  f_equal. f_equal. f_equal. f_equal. apply map_ext_Forall.
  eapply Forall_impl; [exact Hall|]. intros v Hv. cbn beta.
  by rewrite original_name_app.
Qed.

Lemma translated_dicts_length provider py_str target h items past :
  length (translated_dicts provider py_str target h items past) = length items.
Proof.
  revert past. induction items as [|it items IH]; intros past; [reflexivity|].
  cbn [translated_dicts length]. by rewrite IH.
Qed.

Lemma translated_dicts_lookup provider py_str target h items past i it :
  items !! i = Some it ->
  translated_dicts provider py_str target h items past !! i
  = Some (<["class_name" :=
             outcome
               (provider
                  (past ++ map (fun x => name_request target (original_name py_str h x))
                             (take i items))
                  (name_request target (original_name py_str h it)))
               (original_name py_str h it)]>
            (item_dict py_str h it)).
Proof.
  revert past i. induction items as [|x items IH]; intros past i Hi; [done|].
  destruct i as [|i].
  - injection Hi as ->. cbn. by rewrite app_nil_r.
  - cbn [translated_dicts]. cbn in Hi. rewrite lookup_cons_ne_0 by done. cbn [pred].
    rewrite (IH _ _ Hi). cbn [take map]. by rewrite <- app_assoc.
Qed.

(** Reading the translated response back from the store. *)
Lemma read_fields (h : list obj) d rest :
  response_fields (h ++ ODict d :: rest) (VRef (length h)) = Some d.
Proof. unfold response_fields. by rewrite list_lookup_middle. Qed.

Lemma read_items (h : list obj) d refs rest :
  d !! "all_predictions" = Some (VRef (length h + 1)) ->
  response_items (h ++ ODict d :: OList refs :: rest) (VRef (length h)) = Some refs.
Proof.
  intros Hd. unfold response_items. rewrite read_fields, Hd.
  replace (h ++ ODict d :: OList refs :: rest)
    with ((h ++ [ODict d]) ++ OList refs :: rest) by by rewrite <- app_assoc.
  rewrite list_lookup_middle; [reflexivity|].
  rewrite length_app. reflexivity.
Qed.

Lemma lookup_map {A B} (f : A -> B) (l : list A) i :
  map f l !! i = f <$> (l !! i).
Proof.
  revert i. induction l as [|x l IH]; intros [|i]; try reflexivity. apply IH.
Qed.

Lemma read_item_field (h : list obj) o1 o2 dicts i k :
  item_field (h ++ o1 :: o2 :: map ODict dicts) (VRef (length h + 2 + i)) k
  = dicts !! i ≫= (fun f => f !! k).
Proof.
  unfold item_field.
  rewrite lookup_app_r by lia.
  replace (length h + 2 + i - length h)%nat with (S (S i)) by lia.
  change ((o1 :: o2 :: map ODict dicts) !! S (S i)) with (map ODict dicts !! i).
  rewrite lookup_map.
  by destruct (dicts !! i).
Qed.

Lemma map_is_fmap {A B} (f : A -> B) (l : list A) : map f l = f <$> l.
Proof. reflexivity. Qed.

Lemma lang_eqb_false a b : a <> b -> lang_eqb a b = false.
Proof. intros H. by apply String.eqb_neq. Qed.

(** ** The translation layer: the claims *)

(** C4. For every response, [translate_prediction_response] with the
    target "en" returns the response itself and leaves the world, so also
    the list of requests to the provider, as it is; and [translate_text]
    returns its text in an unchanged world whenever the target is "en" or
    equals the source. *)
Theorem translation_identity_shortcut :
  (forall provider py_str response w,
      translate_prediction_response provider py_str response "en" w
      = (Ok response, w)) /\
  (forall provider text target_lang source_lang w,
      target_lang = "en" \/ target_lang = source_lang ->
      translate_text provider text target_lang source_lang w = (Ok text, w)).
Proof.
  split.
  - reflexivity.
  - intros provider text target_lang source_lang w H.
    unfold translate_text, lang_eqb.
    destruct H as [-> | ->].
    + reflexivity.
    + by rewrite String.eqb_refl, orb_true_r.
Qed.

(** C5. For a response dictionary with its list of items and a target
    other than "en", whatever the provider does request by request,
    [translate_prediction_response] returns a response; one request is
    sent per translatable string, [disease] first and then the name of
    every item in order; and each string ends as the translation when its
    own request succeeded and as the original when it raised. *)
Theorem translation_is_best_effort provider py_str target h rq r d li items :
  target <> "en" ->
  h !! r = Some (ODict d) ->
  d !! "all_predictions" = Some (VRef li) ->
  h !! li = Some (OList items) ->
  Forall (val_in_store h) items ->
  exists response' w' d' items',
    translate_prediction_response provider py_str (VRef r) target (mkWorld h rq)
      = (Ok response', w') /\
    response_fields (heap w') response' = Some d' /\
    response_items (heap w') response' = Some items' /\
    let texts := translatable py_str h d items in
    requests w' = rq ++ map (name_request target) texts /\
    length (translated (heap w') d' items') = length texts /\
    forall k text,
      texts !! k = Some text ->
      translated (heap w') d' items' !! k
      = Some (outcome
                (provider (rq ++ map (name_request target) (take k texts))
                   (name_request target text))
                text).
Proof.
  intros Hne Hr Hap Hli Hall. apply lang_eqb_false in Hne.
  eexists _, _, _, _.
  split; [exact (translate_prediction_response_spec provider py_str target h rq r d li items Hne Hr Hap Hli Hall)|].
  cbn [heap requests].
  split; [apply read_fields|].
  split; [apply read_items; apply lookup_insert_eq|].
  cbv zeta. unfold translatable, translated, disease_requests.
  rewrite lookup_insert_ne by done.
  assert (Hd' : translated_disease provider target d rq !! "disease"
                = (fun od => outcome (provider rq (name_request target od)) od)
                    <$> (d !! "disease")).
  { unfold translated_disease. destruct (d !! "disease") as [od|] eqn:E.
    - by rewrite lookup_insert_eq.
    - by rewrite E. }
  rewrite Hd'. clear Hd'.
  split; [by rewrite map_app, map_map|].
  split.
  { rewrite !length_app, !length_map, length_seq.
    by destruct (d !! "disease"). }
  intros k text Hk.
  set (names := map (original_name py_str h) items) in *.
  set (p := option_list (d !! "disease")) in *.
  assert (Hitem : forall i, (i < length items)%nat ->
            forall past it, items !! i = Some it ->
            map (fun it' => default VNone
                   (item_field
                      (h ++ ODict (<["all_predictions" := VRef (length h + 1)]>
                                     (translated_disease provider target d rq))
                         :: OList (map VRef (seq (length h + 2) (length items)))
                         :: map ODict (translated_dicts provider py_str target h items past))
                      it' "class_name"))
              (map VRef (seq (length h + 2) (length items))) !! i
            = Some (outcome
                      (provider
                         (past ++ map (fun x => name_request target (original_name py_str h x))
                                    (take i items))
                         (name_request target (original_name py_str h it)))
                      (original_name py_str h it))).
  { intros i Hi past it Hit.
    rewrite !lookup_map, lookup_seq_lt by exact Hi. cbn [fmap option_fmap option_map].
    rewrite read_item_field, (translated_dicts_lookup _ _ _ _ _ _ _ _ Hit).
    cbn [mbind option_bind]. by rewrite lookup_insert_eq. }
  destruct (d !! "disease") as [od|] eqn:Ed; subst p;
    unfold option_list in *;
    cbn [fmap option_fmap option_map option_rect app] in *.
  - destruct k as [|i].
    + injection Hk as <-. cbn. by rewrite app_nil_r.
    + rewrite lookup_cons in Hk. rewrite lookup_cons.
      subst names. rewrite lookup_map in Hk.
      destruct (items !! i) as [it|] eqn:Hit; [|discriminate].
      injection Hk as <-.
      rewrite (Hitem i (lookup_lt_Some _ _ _ Hit) _ it Hit).
      cbn [take map]. rewrite <- app_assoc. cbn [app].
      by rewrite firstn_map, map_map.
  - subst names. rewrite lookup_map in Hk.
    destruct (items !! k) as [it|] eqn:Hit; [|discriminate].
    injection Hk as <-.
    rewrite (Hitem k (lookup_lt_Some _ _ _ Hit) _ it Hit).
    cbn [map app]. rewrite app_nil_r.
    by rewrite firstn_map, map_map.
Qed.

Lemma item_dict_record py_str h it k :
  is_record h it = true -> item_dict py_str h it !! k = item_field h it k.
Proof.
  unfold is_record, item_dict, item_field.
  destruct it as [| | |l]; try discriminate.
  by destruct (h !! l) as [[]|].
Qed.

Lemma item_dict_other py_str h it :
  is_record h it = false -> item_dict py_str h it = fallback_dict py_str it.
Proof.
  unfold is_record, item_dict.
  destruct it as [| | |l]; try reflexivity.
  by destruct (h !! l) as [[]|].
Qed.

Lemma fallback_dict_renamed py_str it v :
  <["class_name" := v]> (fallback_dict py_str it)
  = <["confidence" := VFloat 0]> {["class_name" := v]}.
Proof.
  unfold fallback_dict.
  rewrite insert_insert_ne by done. by rewrite insert_singleton_eq.
Qed.

Lemma original_name_other py_str h it :
  is_record h it = false -> original_name py_str h it = VStr (py_str it).
Proof.
  intros H. unfold original_name. rewrite item_dict_other by exact H.
  unfold fallback_dict. rewrite lookup_insert_ne by done.
  by rewrite lookup_singleton_eq.
Qed.

(** C10, as the code has it. For a target other than "en" the input is
    not mutated (the store only grows and the result is a new
    dictionary); every key but [disease] and [all_predictions], so
    [confidence] and [annotated_image], keeps its value; the list of
    items keeps its length; every returned item is a new plain
    dictionary; an item that was a dictionary or a model keeps its
    confidence and every field but [class_name]; and an item that was
    neither becomes the dictionary with confidence 0.0 whose
    [class_name] is the translation of [str(item)], or [str(item)] itself
    when that request raised. *)
Theorem translation_frame provider py_str target h rq r d li items :
  target <> "en" ->
  h !! r = Some (ODict d) ->
  d !! "all_predictions" = Some (VRef li) ->
  h !! li = Some (OList items) ->
  Forall (val_in_store h) items ->
  exists r' w' d' items',
    translate_prediction_response provider py_str (VRef r) target (mkWorld h rq)
      = (Ok (VRef r'), w') /\
    (exists fresh, heap w' = h ++ fresh) /\
    (length h <= r')%nat /\
    response_fields (heap w') (VRef r') = Some d' /\
    response_items (heap w') (VRef r') = Some items' /\
    (forall k, k <> "disease" -> k <> "all_predictions" -> d' !! k = d !! k) /\
    d' !! "confidence" = d !! "confidence" /\
    d' !! "annotated_image" = d !! "annotated_image" /\
    length items' = length items /\
    forall i it,
      items !! i = Some it ->
      exists l f,
        items' !! i = Some (VRef l) /\
        (length h <= l)%nat /\
        heap w' !! l = Some (ODict f) /\
        (is_record h it = true ->
           f !! "confidence" = item_field h it "confidence" /\
           forall k, k <> "class_name" -> f !! k = item_field h it k) /\
        (is_record h it = false ->
           f = <["confidence" := VFloat 0]>
                 {["class_name" :=
                     outcome
                       (provider
                          (rq ++ disease_requests target d
                              ++ map (fun x => name_request target (original_name py_str h x))
                                   (take i items))
                          (name_request target (VStr (py_str it))))
                       (VStr (py_str it))]}).
Proof.
  intros Hne Hr Hap Hli Hall. apply lang_eqb_false in Hne.
  eexists _, _, _, _.
  split; [exact (translate_prediction_response_spec provider py_str target h rq r d li items Hne Hr Hap Hli Hall)|].
  cbn [heap requests].
  split; [by eexists|]. split; [lia|].
  split; [apply read_fields|].
  split; [apply read_items; apply lookup_insert_eq|].
  assert (Hframe : forall k, k <> "disease" -> k <> "all_predictions" ->
            <["all_predictions" := VRef (length h + 1)]>
              (translated_disease provider target d rq) !! k = d !! k).
  { intros k Hk1 Hk2. rewrite lookup_insert_ne by done.
    unfold translated_disease. destruct (d !! "disease"); [|done].
    by rewrite lookup_insert_ne. }
  split; [exact Hframe|].
  split; [by apply Hframe|]. split; [by apply Hframe|].
  split; [by rewrite length_map, length_seq|].
  intros i it Hit.
  pose proof (lookup_lt_Some _ _ _ Hit) as Hi.
  eexists (length h + 2 + i)%nat, _.
  split; [by rewrite lookup_map, lookup_seq_lt|].
  split; [lia|].
  split.
  { rewrite lookup_app_r by lia.
    replace (length h + 2 + i - length h)%nat with (S (S i)) by lia.
    change ((?o1 :: ?o2 :: map ODict ?ds) !! S (S i)) with (map ODict ds !! i).
    rewrite lookup_map, (translated_dicts_lookup _ _ _ _ _ _ _ _ Hit). reflexivity. }
  split.
  - intros Hrec. split.
    + rewrite lookup_insert_ne by done. by apply item_dict_record.
    + intros k Hk. rewrite lookup_insert_ne by done. by apply item_dict_record.
  - intros Hother.
    rewrite (item_dict_other _ _ _ Hother), (original_name_other _ _ _ Hother).
    rewrite fallback_dict_renamed. by rewrite <- app_assoc.
Qed.

(** ** [store_result] *)

Lemma response_dict_disease r at_ : response_dict r at_ !! "disease" = Some (VStr (disease r)).
Proof. unfold response_dict. by rewrite lookup_insert_eq. Qed.

Lemma response_dict_confidence r at_ :
  response_dict r at_ !! "confidence" = Some (VFloat (res_confidence r)).
Proof. unfold response_dict. rewrite lookup_insert_ne by done. by rewrite lookup_insert_eq. Qed.

Lemma response_dict_items r at_ :
  response_dict r at_ !! "all_predictions" = Some (VRef at_).
Proof.
  unfold response_dict. rewrite !lookup_insert_ne by done. by rewrite lookup_insert_eq.
Qed.

Section StoredResult.

Variable r : PredictionResult.
Variable w : World.

Local Abbreviation base := (length (heap w)).
Local Abbreviation n := (length (all_predictions r)).
Local Abbreviation h1 := (heap (snd (store_result r w))).

Lemma stored_heap :
  h1 = heap w ++ map item_object (all_predictions r)
         ++ [OList (item_refs base n); ODict (response_dict r (base + n))].
Proof. reflexivity. Qed.

Lemma stored_response : fst (store_result r w) = Ok (VRef (base + n + 1)).
Proof. reflexivity. Qed.

Lemma stored_requests : requests (snd (store_result r w)) = requests w.
Proof. reflexivity. Qed.

Lemma stored_length : length h1 = (base + n + 2)%nat.
Proof.
  rewrite stored_heap, !length_app, length_map. cbn [length]. lia.
Qed.

Lemma stored_dict : h1 !! (base + n + 1)%nat = Some (ODict (response_dict r (base + n))).
Proof.
  rewrite stored_heap, app_assoc.
  rewrite lookup_app_r by (rewrite length_app, length_map; lia).
  rewrite length_app, length_map.
  replace (base + n + 1 - (length (heap w) + length (all_predictions r)))%nat
    with 1%nat by lia.
  reflexivity.
Qed.

Lemma stored_list : h1 !! (base + n)%nat = Some (OList (item_refs base n)).
Proof.
  rewrite stored_heap, app_assoc.
  rewrite lookup_app_r by (rewrite length_app, length_map; lia).
  rewrite length_app, length_map.
  replace (base + n - (length (heap w) + length (all_predictions r)))%nat
    with 0%nat by lia.
  reflexivity.
Qed.

Lemma stored_item i it :
  all_predictions r !! i = Some it ->
  h1 !! (base + i)%nat = Some (item_object it).
Proof.
  intros Hi. rewrite stored_heap.
  rewrite lookup_app_r by lia.
  replace (base + i - length (heap w))%nat with i by lia.
  apply lookup_app_l_Some. by rewrite lookup_map, Hi.
Qed.

Lemma stored_refs_valid : Forall (val_in_store h1) (item_refs base n).
Proof.
  apply List.Forall_forall. intros v Hv. unfold item_refs in Hv.
  apply in_map_iff in Hv as (l & <- & Hl). apply in_seq in Hl.
  unfold val_in_store. pose proof stored_length. lia.
Qed.

Lemma stored_item_field i it k :
  all_predictions r !! i = Some it ->
  item_field h1 (VRef (base + i)) k
  = (<["confidence" := VFloat (confidence it)]>
       {["class_name" := VStr (class_name it)]} : gmap string val) !! k.
Proof.
  intros Hi. pose proof (stored_item i it Hi) as E.
  unfold item_field. by rewrite E.
Qed.

End StoredResult.

Lemma stored_item_dict py_str r w it rest :
  all_predictions r = it :: rest ->
  item_dict py_str (heap (snd (store_result r w))) (VRef (length (heap w)))
  = <["confidence" := VFloat (confidence it)]> {["class_name" := VStr (class_name it)]}.
Proof.
  intros Hall. unfold item_dict.
  pose proof (stored_item r w 0 it) as H. rewrite Nat.add_0_r in H.
  rewrite H; [reflexivity|]. by rewrite Hall.
Qed.

Lemma stored_invariant r w :
  result_invariant r ->
  response_invariant (heap (snd (store_result r w)))
    (VRef (length (heap w) + length (all_predictions r) + 1)).
Proof.
  intros (first & rest & Hall & Hd & Hc).
  exists (response_dict r (length (heap w) + length (all_predictions r))),
    (VRef (length (heap w))),
    (map VRef (seq (S (length (heap w))) (length rest))),
    (VStr (disease r)), (VFloat (res_confidence r)).
  assert (Hf : response_fields (heap (snd (store_result r w)))
                 (VRef (length (heap w) + length (all_predictions r) + 1))
               = Some (response_dict r (length (heap w) + length (all_predictions r)))).
  { unfold response_fields. by rewrite stored_dict. }
  split; [exact Hf|].
  split.
  { unfold response_items. rewrite Hf, response_dict_items, stored_list.
    by rewrite Hall. }
  split; [apply response_dict_disease|].
  pose proof (stored_item_field r w 0 first) as Hi. rewrite Nat.add_0_r in Hi.
  split.
  { rewrite Hi by (by rewrite Hall).
    rewrite lookup_insert_ne by done. by rewrite lookup_singleton_eq, Hd. }
  split; [apply response_dict_confidence|].
  rewrite Hi by (by rewrite Hall). by rewrite lookup_insert_eq, Hc.
Qed.

(** What the translation of a stored result leaves in the fields of the
    primary diagnosis, for a target other than "en": [disease] holds the
    outcome of the first request, the name of the first item the outcome
    of the second, and both confidences are the one of the result. *)
Lemma translated_primary provider py_str r w target :
  result_invariant r ->
  target <> "en" ->
  exists response' w' d first rest,
    translate_prediction_response provider py_str
      (VRef (length (heap w) + length (all_predictions r) + 1)) target
      (snd (store_result r w))
    = (Ok response', w') /\
    response_fields (heap w') response' = Some d /\
    response_items (heap w') response' = Some (first :: rest) /\
    d !! "disease"
    = Some (outcome (provider (requests w) (name_request target (VStr (disease r))))
              (VStr (disease r))) /\
    item_field (heap w') first "class_name"
    = Some (outcome (provider (requests w ++ [name_request target (VStr (disease r))])
                       (name_request target (VStr (disease r))))
              (VStr (disease r))) /\
    d !! "confidence" = Some (VFloat (res_confidence r)) /\
    item_field (heap w') first "confidence" = Some (VFloat (res_confidence r)).
Proof.
  intros Hinv Hne.
  pose proof Hinv as (first & rest & Hall & Hd & Hc).
  set (h1 := heap (snd (store_result r w))).
  set (n := length (all_predictions r)).
  eexists _, _.
  exists (<["all_predictions" := VRef (length h1 + 1)]>
            (translated_disease provider target
               (response_dict r (length (heap w) + n)) (requests w))),
    (VRef (length h1 + 2)),
    (map VRef (seq (S (length h1 + 2)) (length rest))).
  split.
  { change (snd (store_result r w)) with (mkWorld h1 (requests w)).
    apply (translate_prediction_response_spec provider py_str target h1 (requests w)
             _ (response_dict r (length (heap w) + n))
             (length (heap w) + n)%nat (item_refs (length (heap w)) n)).
    - by apply lang_eqb_false.
    - apply stored_dict.
    - apply response_dict_items.
    - apply stored_list.
    - apply stored_refs_valid. }
  cbn [heap].
  assert (Hn : n = S (length rest)) by (subst n; by rewrite Hall).
  assert (Hname : original_name py_str h1 (VRef (length (heap w))) = VStr (disease r)).
  { unfold original_name. subst h1. rewrite (stored_item_dict py_str r w first rest Hall).
    rewrite lookup_insert_ne by done. by rewrite lookup_singleton_eq, Hd. }
  split; [apply read_fields|].
  split.
  { rewrite read_items by apply lookup_insert_eq.
    unfold item_refs. rewrite length_map, length_seq, Hn. reflexivity. }
  split.
  { rewrite lookup_insert_ne by done. unfold translated_disease.
    rewrite response_dict_disease. by rewrite lookup_insert_eq. }
  pose proof (read_item_field h1
                (ODict (<["all_predictions" := VRef (length h1 + 1)]>
                   (translated_disease provider target
                      (response_dict r (length (heap w) + n)) (requests w))))
                (OList (map VRef (seq (length h1 + 2) (length (item_refs (length (heap w)) n)))))
                (translated_dicts provider py_str target h1 (item_refs (length (heap w)) n)
                   (requests w ++ disease_requests target (response_dict r (length (heap w) + n))))
                0) as Hread.
  rewrite Nat.add_0_r in Hread.
  assert (Hfirst : item_refs (length (heap w)) n !! 0%nat = Some (VRef (length (heap w)))).
  { unfold item_refs. by rewrite Hn. }
  rewrite (translated_dicts_lookup _ _ _ _ _ _ _ _ Hfirst) in Hread.
  cbn [mbind option_bind take map] in Hread. rewrite app_nil_r, Hname in Hread.
  split.
  { rewrite Hread, lookup_insert_eq.
    unfold disease_requests. rewrite response_dict_disease.
    cbn [option_list option_rect map]. reflexivity. }
  split.
  { rewrite lookup_insert_ne by done. unfold translated_disease.
    rewrite response_dict_disease. rewrite lookup_insert_ne by done.
    apply response_dict_confidence. }
  rewrite Hread, lookup_insert_ne by done.
  subst h1. rewrite (stored_item_dict py_str r w first rest Hall).
  by rewrite lookup_insert_eq, Hc.
Qed.


Lemma response_invariant_confidence h response :
  response_invariant h response -> confidence_invariant h response.
Proof.
  intros (d & first & rest & name & conf & Hf & Hi & _ & _ & Hc & Hic).
  by exists d, first, rest, conf.
Qed.

(** C1, as the code has it. Every result of [predict] has its first
    item as primary diagnosis. For every target language and every
    behaviour of the provider the translation layer returns a response
    for such a result, and in it [confidence] equals the confidence of
    the first item.  The response has the whole invariant when the target
    is "en", and for any other target when the provider answers the
    request for the primary name the same way both times it is sent (once
    for [disease], once for the first item). *)
Theorem primary_is_first_item :
  (forall env png names image boxes r,
      predict env png names image boxes = Ok r -> result_invariant r) /\
  (forall provider py_str r w target,
      result_invariant r ->
      exists response w1 response' w',
        store_result r w = (Ok response, w1) /\
        translate_prediction_response provider py_str response target w1
          = (Ok response', w') /\
        confidence_invariant (heap w') response' /\
        ((target = "en" \/
          provider (requests w) (name_request target (VStr (disease r)))
          = provider (requests w ++ [name_request target (VStr (disease r))])
              (name_request target (VStr (disease r)))) ->
         response_invariant (heap w') response')).
Proof.
  split; [apply predict_invariant|].
  intros provider py_str r w target Hinv.
  exists (VRef (length (heap w) + length (all_predictions r) + 1)),
    (snd (store_result r w)).
  destruct (decide (target = "en")) as [->|Hne].
  { eexists _, _. split; [reflexivity|]. split; [reflexivity|].
    pose proof (stored_invariant r w Hinv) as H.
    split; [by apply response_invariant_confidence|done]. }
  destruct (translated_primary provider py_str r w target Hinv Hne)
    as (response' & w' & d & first & rest & Ht & Hf & Hi & Hd & Hn & Hc & Hic).
  exists response', w'.
  split; [reflexivity|]. split; [exact Ht|].
  split; [by exists d, first, rest, (VFloat (res_confidence r))|].
  intros [->|Halike]; [done|].
  exists d, first, rest,
    (outcome (provider (requests w) (name_request target (VStr (disease r))))
       (VStr (disease r))),
    (VFloat (res_confidence r)).
  rewrite Halike at 2. done.
Qed.

Lemma primary_is_first_item_witness :
  result_invariant blight_result /\
  ("es" = "en" \/
   provider_fails_on_blight (requests empty_world)
     (name_request "es" (VStr (disease blight_result)))
   = provider_fails_on_blight
       (requests empty_world ++ [name_request "es" (VStr (disease blight_result))])
       (name_request "es" (VStr (disease blight_result)))) /\
  exists response w1 response' w',
    store_result blight_result empty_world = (Ok response, w1) /\
    translate_prediction_response provider_fails_on_blight str_unknown
      response "es" w1 = (Ok response', w') /\
    confidence_invariant (heap w') response' /\
    response_invariant (heap w') response'.
Proof.
  destruct primary_is_first_item as [_ H].
  assert (Hinv : result_invariant blight_result).
  { by exists (mkItem "Leaf Blight" (91 # 100)), [mkItem "Healthy" (4 # 10)]. }
  split; [exact Hinv|]. split; [right; reflexivity|].
  destruct (H provider_fails_on_blight str_unknown blight_result empty_world "es" Hinv)
    as (response & w1 & response' & w' & Hs & Ht & Hc & Hr).
  exists response, w1, response', w'.
  split; [exact Hs|]. split; [exact Ht|]. split; [exact Hc|].
  apply Hr. right. reflexivity.
Defined.

(** C1 as stated fails for the translation layer: when the first
    request for "Leaf Blight" raises and the second succeeds, [disease]
    keeps the original and the first item carries the translation. *)
Lemma translated_invariant_counterexample :
  exists response' w' d' first rest,
    translate_prediction_response provider_recovers str_unknown
      blight_response "es" blight_world = (Ok response', w') /\
    response_invariant (heap blight_world) blight_response /\
    response_fields (heap w') response' = Some d' /\
    response_items (heap w') response' = Some (first :: rest) /\
    d' !! "disease" = Some (VStr "Leaf Blight") /\
    item_field (heap w') first "class_name" = Some (VStr "Tizon de la hoja") /\
    ~ response_invariant (heap w') response'.
Proof.
  eexists _, _, _, _, _.
  split; [vm_compute; reflexivity|].
  split.
  { apply (stored_invariant blight_result empty_world).
    by exists (mkItem "Leaf Blight" (91 # 100)), [mkItem "Healthy" (4 # 10)]. }
  split; [vm_compute; reflexivity|].
  split; [vm_compute; reflexivity|].
  split; [vm_compute; reflexivity|].
  split; [vm_compute; reflexivity|].
  intros (d & first & rest & name & conf & Hf & Hi & Hd & Hc & _).
  vm_compute in Hf. injection Hf as <-.
  vm_compute in Hi. injection Hi as <- <-.
  vm_compute in Hd. vm_compute in Hc. congruence.
Qed.


Lemma translation_identity_shortcut_witness :
  ("fr" = "en" \/ "fr" = "fr") /\
  translate_text provider_roya (VStr "Rust") "fr" "fr" rust_world
  = (Ok (VStr "Rust"), rust_world).
Proof.
  split; [by right|].
  destruct translation_identity_shortcut as [_ H].
  apply (H provider_roya (VStr "Rust") "fr" "fr" rust_world). by right.
Defined.

Lemma translation_is_best_effort_witness :
  "es" <> "en" /\
  exists response' w' d' items',
    translate_prediction_response provider_fails_on_blight str_unknown
      blight_response "es" blight_world = (Ok response', w') /\
    response_fields (heap w') response' = Some d' /\
    response_items (heap w') response' = Some items' /\
    let texts :=
      translatable str_unknown (heap blight_world)
        (response_dict blight_result 2) [VRef 0; VRef 1] in
    requests w' = [] ++ map (name_request "es") texts /\
    length (translated (heap w') d' items') = length texts /\
    forall k text,
      texts !! k = Some text ->
      translated (heap w') d' items' !! k
      = Some (outcome
                (provider_fails_on_blight
                   ([] ++ map (name_request "es") (take k texts))
                   (name_request "es" text))
                text).
Proof.
  split; [discriminate|].
  apply (translation_is_best_effort provider_fails_on_blight str_unknown "es"
           (heap blight_world) [] 3 (response_dict blight_result 2) 2
           [VRef 0; VRef 1]).
  - discriminate.
  - reflexivity.
  - reflexivity.
  - reflexivity.
  - repeat constructor.
Defined.

(** The scenario of the specification: the provider raises for
    "Leaf Blight" and succeeds for "Healthy". *)
Example translation_fails_for_blight_only :
  exists w',
    translate_prediction_response provider_fails_on_blight str_unknown
      blight_response "es" blight_world = (Ok (VRef 4), w') /\
    (response_fields (heap w') (VRef 4) ≫= (fun d => d !! "disease"))
      = Some (VStr "Leaf Blight") /\
    response_items (heap w') (VRef 4) = Some [VRef 6; VRef 7] /\
    item_field (heap w') (VRef 6) "class_name" = Some (VStr "Leaf Blight") /\
    item_field (heap w') (VRef 7) "class_name" = Some (VStr "Sano").
Proof. eexists. repeat split; vm_compute; reflexivity. Qed.

Lemma translation_frame_witness :
  "es" <> "en" /\
  exists r' w' d' items',
    translate_prediction_response provider_roya str_of_text rust_response "es"
      rust_world = (Ok (VRef r'), w') /\
    (exists fresh, heap w' = heap rust_world ++ fresh) /\
    (length (heap rust_world) <= r')%nat /\
    response_fields (heap w') (VRef r') = Some d' /\
    response_items (heap w') (VRef r') = Some items' /\
    d' !! "confidence" = Some (VFloat (1 # 2)) /\
    length items' = 1%nat.
Proof.
  split; [discriminate|].
  destruct (translation_frame provider_roya str_of_text "es"
              (heap rust_world) [] 1
              (<["all_predictions" := VRef 0]> {["confidence" := VFloat (1 # 2)]})
              0 [VStr "Rust"])
    as (r' & w' & d' & items' & Hrun & Hext & Hfresh & Hf & Hi & _ & Hc & _ & Hlen & _).
  - discriminate.
  - reflexivity.
  - reflexivity.
  - reflexivity.
  - repeat constructor.
  - exists r', w', d', items'. repeat split; assumption.
Defined.

(** C10 as stated fails in its last part: for a target other than "en"
    the dictionary that replaces a bare item does not hold [str(item)]
    but its translation. *)
Lemma fallback_item_counterexample :
  exists w',
    translate_prediction_response provider_roya str_of_text rust_response "es" rust_world
      = (Ok (VRef 2), w') /\
    response_items (heap w') (VRef 2) = Some [VRef 4] /\
    heap w' !! 4%nat
      = Some (ODict (<["confidence" := VFloat 0]> {["class_name" := VStr "Roya"]})) /\
    heap w' !! 4%nat
      <> Some (ODict (<["confidence" := VFloat 0]>
                        {["class_name" := VStr (str_of_text (VStr "Rust"))]})).
Proof.
  eexists. split; [vm_compute; reflexivity|].
  split; [vm_compute; reflexivity|].
  split; [vm_compute; reflexivity|].
  vm_compute. discriminate.
Qed.

(** With the provider down every string keeps its original value. *)
Example translation_with_provider_down :
  exists w',
    translate_prediction_response provider_down str_unknown
      blight_response "es" blight_world = (Ok (VRef 4), w') /\
    (response_fields (heap w') (VRef 4) ≫= (fun d => d !! "disease"))
      = Some (VStr "Leaf Blight") /\
    item_field (heap w') (VRef 6) "class_name" = Some (VStr "Leaf Blight") /\
    item_field (heap w') (VRef 7) "class_name" = Some (VStr "Healthy") /\
    heap w' !! 3%nat = heap blight_world !! 3%nat.
Proof. eexists. repeat split; vm_compute; reflexivity. Qed.

(** ** Base64 and the data URI, there and back *)

Ltac divlia := zify; Z.to_euclidean_division_equations; lia.

(** A property of all numbers below a bound, checked by running
    through them. *)
Lemma below_by_cases (P : N -> bool) (bound : nat) :
  forallb (fun k => P (N.of_nat k)) (seq 0 bound) = true ->
  forall i : N, (i < N.of_nat bound)%N -> P i = true.
Proof.
  intros H i Hi. rewrite forallb_forall in H.
  rewrite <- (N2Nat.id i). apply H. apply in_seq. lia.
Qed.

Lemma b64_index_char i : (i < 64)%N -> b64_index (b64_char i) = Some i.
Proof.
  intros Hi.
  pose proof (below_by_cases
                (fun i => match b64_index (b64_char i) with
                          | Some j => N.eqb j i
                          | None => false
                          end) 64 eq_refl i Hi) as H.
  cbv beta in H. destruct (b64_index (b64_char i)); [|discriminate].
  apply N.eqb_eq in H. by subst.
Qed.

Lemma b64_char_not_pad i : (i < 64)%N -> Ascii.eqb (b64_char i) b64_pad = false.
Proof.
  intros Hi.
  pose proof (below_by_cases
                (fun i => negb (Ascii.eqb (b64_char i) b64_pad)) 64 eq_refl i Hi) as H.
  by apply negb_true_iff in H.
Qed.

Lemma list_by_threes {A} (P : list A -> Prop) :
  P [] -> (forall a, P [a]) -> (forall a b, P [a; b]) ->
  (forall a b c rest, P rest -> P (a :: b :: c :: rest)) ->
  forall l, P l.
Proof.
  intros H0 H1 H2 H3 l.
  assert (H : P l /\ (forall a, P (a :: l)) /\ (forall a b, P (a :: b :: l))).
  { induction l as [|x l (IH0 & IH1 & IH2)]; [by auto|].
    split; [apply IH1|]. split; [intros a; apply IH2|]. intros a b. by apply H3. }
  apply H.
Qed.

Lemma byte_of_to_N b n : n = Byte.to_N b -> Byte.of_N n = Some b.
Proof. intros ->. apply Byte.of_to_N. Qed.

Lemma b64decode_b64encode bs : b64decode (b64encode bs) = Some bs.
Proof.
  induction bs as [|a|a b|a b c rest IH] using list_by_threes.
  - reflexivity.
  - pose proof (Byte.to_N_bounded a) as Ha.
    cbn [b64encode]. set (n := (Byte.to_N a * 16)%N).
    assert (Hn : (n < 4096)%N) by (subst n; lia).
    assert (Hm : (n / 64 * 64 + n mod 64 = n)%N) by divlia.
    assert (Ea : (n / 16 = Byte.to_N a)%N) by (subst n; divlia).
    clearbody n. cbn [b64decode].
    rewrite !b64_index_char by divlia. cbn [mbind option_bind].
    change (Ascii.eqb "=" b64_pad) with true. cbn [andb String.eqb].
    rewrite Hm, (byte_of_to_N a _ Ea). reflexivity.
  - pose proof (Byte.to_N_bounded a) as Ha. pose proof (Byte.to_N_bounded b) as Hb.
    cbn [b64encode]. set (n := ((Byte.to_N a * 256 + Byte.to_N b) * 4)%N).
    assert (Hn : (n < 262144)%N) by (subst n; lia).
    assert (Hm : ((n / 4096 * 64 + (n / 64) mod 64) * 64 + n mod 64 = n)%N).
    { assert (n / 4096 = n / 64 / 64)%N as -> by divlia. divlia. }
    assert (Ea : (n / 1024 = Byte.to_N a)%N) by (subst n; divlia).
    assert (Eb : ((n / 4) mod 256 = Byte.to_N b)%N) by (subst n; divlia).
    clearbody n. cbn [b64decode].
    rewrite !b64_index_char by divlia. cbn [mbind option_bind].
    rewrite b64_char_not_pad by divlia.
    change (Ascii.eqb "=" b64_pad) with true. cbn [String.eqb].
    rewrite Hm.
    rewrite (byte_of_to_N a _ Ea). cbn [mbind option_bind].
    rewrite (byte_of_to_N b _ Eb). reflexivity.
  - pose proof (Byte.to_N_bounded a) as Ha. pose proof (Byte.to_N_bounded b) as Hb.
    pose proof (Byte.to_N_bounded c) as Hc.
    cbn [b64encode].
    set (n := ((Byte.to_N a * 256 + Byte.to_N b) * 256 + Byte.to_N c)%N).
    assert (Hn : (n < 16777216)%N) by (subst n; lia).
    assert (Hm : (((n / 262144 * 64 + (n / 4096) mod 64) * 64 + (n / 64) mod 64) * 64
                  + n mod 64 = n)%N).
    { assert (n / 4096 = n / 64 / 64)%N as -> by divlia.
      assert (n / 262144 = n / 64 / 64 / 64)%N as -> by divlia.
      divlia. }
    assert (Ea : (n / 65536 = Byte.to_N a)%N) by (subst n; divlia).
    assert (Eb : ((n / 256) mod 256 = Byte.to_N b)%N) by (subst n; divlia).
    assert (Ec : (n mod 256 = Byte.to_N c)%N) by (subst n; divlia).
    clearbody n. cbn [b64decode].
    rewrite !b64_index_char by divlia. cbn [mbind option_bind].
    rewrite !b64_char_not_pad by divlia.
    rewrite Hm.
    rewrite (byte_of_to_N a _ Ea). cbn [mbind option_bind].
    rewrite (byte_of_to_N b _ Eb). cbn [mbind option_bind].
    rewrite (byte_of_to_N c _ Ec). cbn [mbind option_bind].
    by rewrite IH.
Qed.

Lemma strip_prefix_append p s : strip_prefix p (p +:+ s) = Some s.
Proof.
  induction p as [|a p IH]; [reflexivity|].
  change (strip_prefix (String a p) (String a p +:+ s))
    with (if Ascii.eqb a a then strip_prefix p (p +:+ s) else None).
  by rewrite Ascii.eqb_refl.
Qed.

Lemma data_uri_payload_encode png : data_uri_payload (encode_annotated png) = Some png.
Proof.
  unfold data_uri_payload, encode_annotated.
  rewrite strip_prefix_append. cbn [mbind option_bind]. apply b64decode_b64encode.
Qed.

(** X8. The data URI determines the PNG bytes: two images with the same
    [annotated_image] text have the same encoded bytes. *)
Theorem encode_annotated_injective png1 png2 :
  encode_annotated png1 = encode_annotated png2 -> png1 = png2.
Proof.
  intros H. apply (f_equal data_uri_payload) in H.
  rewrite !data_uri_payload_encode in H. by injection H.
Qed.

Lemma encode_annotated_injective_witness :
  encode_annotated png_signature = encode_annotated (firstn 8 (png_signature ++ [Byte.x00])) /\
  png_signature = firstn 8 (png_signature ++ [Byte.x00]).
Proof.
  split; [reflexivity|].
  apply (encode_annotated_injective png_signature
           (firstn 8 (png_signature ++ [Byte.x00]))). reflexivity.
Defined.

Lemma string_length_append (s t : string) :
  String.length (s +:+ t) = (String.length s + String.length t)%nat.
Proof.
  induction s as [|a s IH]; [reflexivity|].
  change (S (String.length (s +:+ t)) = S (String.length s + String.length t)).
  by rewrite IH.
Qed.

Lemma b64encode_length bs :
  String.length (b64encode bs) = (4 * ((length bs + 2) / 3))%nat.
Proof.
  induction bs as [|a|a b|a b c rest IH] using list_by_threes; try reflexivity.
  cbn [b64encode String.length length]. rewrite IH.
  replace (S (S (S (length rest))) + 2)%nat with ((length rest + 2) + 1 * 3)%nat by lia.
  rewrite Nat.div_add by lia. lia.
Qed.

(** X9. The data URI of [n] PNG bytes has 22 + 4 * ceil(n / 3)
    characters. *)
Theorem encode_annotated_length png :
  String.length (encode_annotated png) = (22 + 4 * ((length png + 2) / 3))%nat.
Proof.
  unfold encode_annotated. rewrite string_length_append, b64encode_length. reflexivity.
Qed.

(** ** Font resolution *)

Lemma probe_fonts_none env paths :
  probe_fonts env paths = None <-> Forall (font_unusable env) paths.
Proof.
  unfold font_unusable. induction paths as [|p paths IH]; cbn [probe_fonts].
  - split; [constructor|reflexivity].
  - destruct (path_exists env p) eqn:Ep; [destruct (truetype env p) as [f|] eqn:Et|].
    + split; [discriminate|]. intros H. apply Forall_cons_1 in H as [[H|H] _]; congruence.
    + rewrite IH. split; [intros H; constructor; auto|].
      intros H. by apply Forall_cons_1 in H as [_ H].
    + rewrite IH. split; [intros H; constructor; auto|].
      intros H. by apply Forall_cons_1 in H as [_ H].
Qed.

Lemma probe_fonts_first env pre p post f :
  Forall (font_unusable env) pre ->
  path_exists env p = true ->
  truetype env p = Some f ->
  probe_fonts env (pre ++ p :: post) = Some f.
Proof.
  intros Hpre Hp Hf. induction Hpre as [|q pre [Hq|Hq] _ IH]; cbn [probe_fonts app].
  - by rewrite Hp, Hf.
  - by rewrite Hq.
  - rewrite Hq. by destruct (path_exists env q).
Qed.

(** X1. Font resolution takes the first path of the list that exists
    and loads, whatever follows it; when no path is usable it is the
    built-in default; and no font at all results exactly when no path is
    usable and the default fails to load too. *)
Theorem resolve_font_first_usable env :
  (forall pre p post f,
      font_paths = pre ++ p :: post ->
      Forall (font_unusable env) pre ->
      path_exists env p = true ->
      truetype env p = Some f ->
      resolve_font env = Some f) /\
  (Forall (font_unusable env) font_paths -> resolve_font env = load_default env) /\
  (resolve_font env = None <->
   Forall (font_unusable env) font_paths /\ load_default env = None).
Proof.
  unfold resolve_font. split; [|split].
  - intros pre p post f -> Hpre Hp Hf.
    by rewrite (probe_fonts_first env pre p post f).
  - intros H. apply probe_fonts_none in H. by rewrite H.
  - destruct (probe_fonts env font_paths) as [f|] eqn:E.
    + split; [discriminate|]. intros [H _]. apply probe_fonts_none in H. congruence.
    + apply probe_fonts_none in E. split; [by auto|]. by intros [_ H].
Qed.

(** ** Colours *)

(** X2. For every class id, negative ones included, the colour is one
    of the eight of the palette, ids that differ by 8 share a colour, and
    the ids 0..7 get the colours in the order of the list. *)
Theorem pick_color_in_palette class_id :
  In (pick_color class_id) colors /\
  pick_color (class_id + 8) = pick_color class_id /\
  (forall k, (k < 8)%nat -> pick_color (Z.of_nat k) = nth k colors (0, 0, 0)%Z).
Proof.
  unfold pick_color. change (Z.of_nat (length colors)) with 8%Z.
  split; [|split].
  - apply nth_In. change (length colors) with 8%nat.
    pose proof (Z.mod_pos_bound class_id 8 eq_refl). lia.
  - replace (class_id + 8)%Z with (class_id + 1 * 8)%Z by lia.
    by rewrite Z.mod_add.
  - intros k Hk. rewrite Z.mod_small by lia. by rewrite Nat2Z.id.
Qed.

(** ** The text of a label *)

Lemma round_half_even_percent c :
  confidence_in_range c = true ->
  (0 <= round_half_even (c * 100) <= 100)%Z.
Proof.
  unfold confidence_in_range. intros [H0 H1]%andb_true_iff.
  apply Qle_bool_iff in H0, H1. unfold Qle in H0, H1. cbn in H0, H1.
  unfold round_half_even. destruct c as [n d]. cbn [Qnum Qden Qmult] in *.
  rewrite Pos.mul_1_r.
  assert (Hn : (0 <= n)%Z) by lia. assert (Hd : (n <= Z.pos d)%Z) by lia.
  clear H0 H1.
  pose proof (Z.div_mod (n * 100) (Z.pos d) ltac:(lia)) as Hdm.
  pose proof (Z.mod_pos_bound (n * 100) (Z.pos d) ltac:(lia)) as Hmod.
  set (q := (n * 100 / Z.pos d)%Z) in *. set (r := ((n * 100) mod Z.pos d)%Z) in *.
  assert (Hq0 : (0 <= q)%Z) by nia.
  assert (Hq1 : (q <= 100)%Z) by nia.
  assert (Hq2 : (q = 100 -> r = 0)%Z) by nia.
  destruct (2 * r ?= Z.pos d)%Z eqn:E.
  - destruct (Z.even q); [lia|]. apply Z.compare_eq in E. lia.
  - lia.
  - apply Z.compare_gt_iff in E. lia.
Qed.

Lemma format_percent_length z :
  (0 <= z <= 100)%Z ->
  String.length (pretty (z / 100)%Z +:+ "." +:+ pretty ((z / 10) mod 10)%Z
                   +:+ pretty (z mod 10)%Z) = 4%nat.
Proof.
  intros Hz.
  pose (P := fun i : N =>
               Nat.eqb
                 (String.length (pretty (Z.of_N i / 100)%Z +:+ "."
                                   +:+ pretty ((Z.of_N i / 10) mod 10)%Z
                                   +:+ pretty (Z.of_N i mod 10)%Z)) 4).
  assert (Hall : forallb (fun k => P (N.of_nat k)) (seq 0 101) = true)
    by (vm_compute; reflexivity).
  pose proof (below_by_cases P 101 Hall (Z.to_N z) ltac:(lia)) as H.
  subst P. cbv beta in H. rewrite Z2N.id in H by lia. by apply Nat.eqb_eq in H.
Qed.

Lemma format_2f_length c :
  confidence_in_range c = true -> String.length (format_2f c) = 4%nat.
Proof.
  intros Hc. pose proof (round_half_even_percent c Hc) as Hr.
  unfold format_2f. apply andb_true_iff in Hc as [H0 _]. rewrite H0.
  rewrite Z.abs_eq by lia.
  change ("" +:+ ?s) with s. by apply format_percent_length.
Qed.

(** X3. For a confidence that passes the validation, the label is the
    class name followed by six characters, so without a font its width is
    estimated at 6 * (len(name) + 6) pixels and its height at 12. *)
Theorem label_length name c :
  confidence_in_range c = true ->
  String.length (make_label name c) = (String.length name + 6)%nat /\
  forall env,
    text_size env None (make_label name c)
    = (inject_Z (6 * (Z.of_nat (String.length name) + 6)), 12%Q).
Proof.
  intros Hc.
  assert (Hlen : String.length (make_label name c) = (String.length name + 6)%nat).
  { unfold make_label. rewrite !string_length_append, format_2f_length by exact Hc.
    cbn. lia. }
  split; [exact Hlen|]. intros env. cbn [text_size]. unfold estimate_size.
  rewrite Hlen. f_equal. f_equal. lia.
Qed.

Lemma label_length_witness :
  confidence_in_range (4 # 10) = true /\
  String.length (make_label "Healthy" (4 # 10)) = (String.length "Healthy" + 6)%nat.
Proof.
  split; [reflexivity|]. by apply (label_length "Healthy" (4 # 10)).
Defined.

(** ** Where a label goes *)

(** X4. Whatever the text size, the label background starts at the
    left edge of the box, never above the top of the image, and reaches
    down at least to the top of the box; when there is room above the box
    it ends exactly at the top of the box, otherwise it is pinned to the
    top of the image. *)
Theorem label_placement env font name d x1 y1 x2 y2 text_width text_height :
  det_box d = (x1, y1, x2, y2) ->
  text_size env font (make_label name (det_conf d)) = (text_width, text_height) ->
  exists label_y,
    draw_detection env font name d
    = [ RectOutline x1 y1 x2 y2 (pick_color (det_class_id d)) 3;
        RectFill x1 label_y (x1 + text_width + 10)%Q (label_y + text_height + 5)%Q
          (pick_color (det_class_id d));
        Text (x1 + 5)%Q (label_y + 2)%Q (make_label name (det_conf d))
          (255, 255, 255)%Z font ] /\
    (0 <= label_y)%Q /\
    (y1 <= label_y + text_height + 5)%Q /\
    ((text_height + 5 <= y1)%Q -> (label_y + text_height + 5 == y1)%Q) /\
    ((y1 <= text_height + 5)%Q -> label_y = 0%Q).
Proof.
  intros Hbox Hsize. exists (py_max0 (y1 - text_height - 5)%Q).
  split.
  { unfold draw_detection. rewrite Hbox, Hsize. reflexivity. }
  pose proof (py_max0_nonneg (y1 - text_height - 5)%Q) as H0.
  pose proof (py_max0_upper (y1 - text_height - 5)%Q) as H1.
  split; [exact H0|]. split; [lra|]. split.
  - intros Hroom.
    destruct (py_max0_cases (y1 - text_height - 5)%Q) as [E|E]; rewrite E in *; lra.
  - intros Htop. unfold py_max0.
    destruct (0 ?= y1 - text_height - 5)%Q eqn:E; try reflexivity.
    apply Qlt_alt in E. lra.
Qed.

Lemma label_placement_witness :
  exists label_y,
    draw_detection no_fonts None "Healthy" (mkDet (90, 50, 100, 100)%Q 0 (4 # 10))
    = [ RectOutline 90 50 100 100 (pick_color 0) 3;
        RectFill 90 label_y (90 + 78 + 10)%Q (label_y + 12 + 5)%Q (pick_color 0);
        Text (90 + 5)%Q (label_y + 2)%Q (make_label "Healthy" (4 # 10))
          (255, 255, 255)%Z None ] /\
    (0 <= label_y)%Q /\
    (50 <= label_y + 12 + 5)%Q /\
    ((12 + 5 <= 50)%Q -> (label_y + 12 + 5 == 50)%Q) /\
    ((50 <= 12 + 5)%Q -> label_y = 0%Q).
Proof.
  apply (label_placement no_fonts None "Healthy"
           (mkDet (90, 50, 100, 100)%Q 0 (4 # 10)) 90 50 100 100 78 12);
    reflexivity.
Defined.

(** ** When [predict] raises *)

Lemma detection_loop_raise env font names dets :
  forall ops items e,
    detection_loop env font names dets ops items = Raise e ->
    first_rejected env font names dets e.
Proof.
  unfold first_rejected.
  destruct (draw_text_font env font) as [f|fe] eqn:Ef.
  - induction dets as [|d dets IH]; intros ops items e; [discriminate|].
    destruct (names !! det_class_id d) as [name|] eqn:En.
    + rewrite (detection_loop_step _ _ _ _ _ _ _ _ En), Ef.
      unfold new_PredictionItem.
      destruct (confidence_in_range (det_conf d)) eqn:Ec; cbn [bind_result].
      * intros H. apply IH in H as (pre & d' & post & -> & Hpre & Hd).
        exists (d :: pre), d', post. split; [reflexivity|]. split; [|exact Hd].
        cbn [forallb]. unfold well_formed_detection at 1. by rewrite En, Ec.
      * intros [= <-]. exists [], d, dets. split; [reflexivity|]. split; [reflexivity|].
        right. by rewrite En.
    + cbn [detection_loop]. rewrite En.
      intros [= <-]. exists [], d, dets. split; [reflexivity|]. split; [reflexivity|].
      by left.
  - intros ops items e. destruct dets as [|d dets]; [discriminate|].
    destruct (names !! det_class_id d) as [name|] eqn:En.
    + rewrite (detection_loop_step _ _ _ _ _ _ _ _ En), Ef.
      intros [= <-]. exists d, dets. split; [reflexivity|]. right. by rewrite En.
    + cbn [detection_loop]. rewrite En.
      intros [= <-]. exists d, dets. split; [reflexivity|]. by left.
Qed.

Lemma detection_loop_is_ok env font names dets :
  forall ops items,
    is_ok (detection_loop env font names dets ops items)
    = forallb (well_formed_detection names) dets
      && (is_ok (draw_text_font env font) || (length dets =? 0)%nat).
Proof.
  induction dets as [|d dets IH]; intros ops items.
  - cbn. by rewrite orb_true_r.
  - cbn [forallb length Nat.eqb]. unfold well_formed_detection at 1.
    destruct (names !! det_class_id d) as [name|] eqn:En;
      [|cbn [detection_loop]; by rewrite En].
    rewrite (detection_loop_step _ _ _ _ _ _ _ _ En).
    destruct (draw_text_font env font) as [f|fe].
    + unfold new_PredictionItem.
      destruct (confidence_in_range (det_conf d)); cbn [bind_result andb]; [|reflexivity].
      rewrite IH. cbn [is_ok orb]. by rewrite !andb_true_r.
    + cbn [is_ok orb]. by rewrite andb_false_r.
Qed.

Lemma resolve_font_draws_bool env :
  is_ok (draw_text_font env (resolve_font env))
  = bool_decide (is_Some (resolve_font env)).
Proof.
  destruct (resolve_font env) as [f|] eqn:E.
  - by rewrite bool_decide_true.
  - rewrite bool_decide_false by (by intros [? ?]).
    rewrite <- E, resolve_font_none_raises; done.
Qed.

(** X5. [predict] returns exactly when every detection has its class
    id in the table of names and a confidence within [0, 1] and, unless
    there is no detection at all, a font was resolved.  When it raises,
    the exception is that of the first iteration that fails: [KeyError]
    for an unknown class id, else [ValidationError].  On a host where no
    font is resolved that is the very first iteration: [predict] raises
    for every non-empty list of detections, with [KeyError] when the
    first class id is unknown and else, from [draw.text], with what
    [ImageFont.load_default()] raises. *)
Theorem predict_rejects_first_bad_detection env png names image boxes :
  is_ok (predict env png names image boxes)
  = forallb (well_formed_detection names) (default [] boxes)
    && (bool_decide (is_Some (resolve_font env))
        || (length (default [] boxes) =? 0)%nat) /\
  (forall e,
      predict env png names image boxes = Raise e ->
      first_rejected env (resolve_font env) names (default [] boxes) e) /\
  (resolve_font env = None ->
   forall d rest,
     boxes = Some (d :: rest) ->
     predict env png names image boxes
     = Raise (match names !! det_class_id d with
              | Some _ => load_default_error env
              | None => KeyError
              end)).
Proof.
  assert (Hraise : forall d rest e,
             predict env png names image (Some (d :: rest)) = Raise e ->
             detection_loop env (resolve_font env) names (d :: rest) [] [] = Raise e).
  { intros d rest e He.
    pose proof (predict_is_ok env png names image d rest) as Hok.
    rewrite He in Hok. cbn [is_ok] in Hok.
    unfold predict in He.
    destruct (detection_loop env (resolve_font env) names (d :: rest) [] [])
      as [[ops items]|e'] eqn:E; [discriminate|].
    cbn [bind_result] in He. by injection He as <-. }
  split; [|split].
  - destruct boxes as [[|d rest]|]; cbn [default]; try (by rewrite orb_true_r).
    by rewrite predict_is_ok, detection_loop_is_ok, resolve_font_draws_bool.
  - intros e He. destruct boxes as [[|d rest]|]; try discriminate.
    cbn [default]. eapply detection_loop_raise. by apply Hraise.
  - intros Hnone d rest ->.
    destruct (predict env png names image (Some (d :: rest))) as [r|e] eqn:E.
    + pose proof (predict_is_ok env png names image d rest) as Hok.
      rewrite E, detection_loop_is_ok, resolve_font_draws_bool in Hok.
      rewrite Hnone, bool_decide_false in Hok by (by intros [? ?]).
      cbn in Hok. by rewrite andb_false_r in Hok.
    + apply Hraise, detection_loop_raise in E. unfold first_rejected in E.
      rewrite resolve_font_none_raises in E by exact Hnone.
      destruct E as (d' & post & [= <- <-] & [[-> ->]|[[name ->] ->]]); reflexivity.
Qed.

Lemma predict_rejects_first_bad_detection_witness :
  resolve_font no_fonts = None /\
  predict no_fonts signature_only two_classes square_100 (Some blight_and_healthy)
  = Raise OSError.
Proof.
  split; [reflexivity|].
  destruct (predict_rejects_first_bad_detection no_fonts signature_only two_classes
              square_100 (Some blight_and_healthy)) as (_ & _ & H).
  exact (H eq_refl _ _ eq_refl).
Defined.

(** On a host with a font a detection of an unknown class is what makes
    [predict] raise. *)
Example predict_unknown_class :
  predict dejavu_host signature_only two_classes square_100
    (Some [mkDet (0, 0, 5, 5)%Q 1 (1 # 2); mkDet (0, 0, 5, 5)%Q 7 (3 # 2)])
  = Raise KeyError.
Proof. reflexivity. Qed.

(** ** How many items and drawing calls *)

Lemma detection_loop_counts env font names dets :
  forall ops items ops' items',
    detection_loop env font names dets ops items = Ok (ops', items') ->
    length ops' = (length ops + 3 * length dets)%nat /\
    length items' = (length items + length dets)%nat.
Proof.
  induction dets as [|d dets IH]; intros ops items ops' items'; cbn [detection_loop].
  - intros [= <- <-]. cbn. lia.
  - destruct (names !! det_class_id d) as [name|]; [|discriminate].
    destruct (draw_text_font env font); cbn [bind_result]; [|discriminate].
    destruct (new_PredictionItem name (det_conf d)) as [it|]; cbn [bind_result];
      [|discriminate].
    intros H. apply IH in H as [H1 H2].
    rewrite H1, H2, !length_app.
    assert (length (draw_detection env font name d) = 3%nat) as ->.
    { unfold draw_detection. destruct (det_box d) as [[[? ?] ?] ?].
      by destruct (text_size env font (make_label name (det_conf d))). }
    cbn [length]. lia.
Qed.

(** X6. What [predict] returns has one item per detection, or the one
    sentinel item when there is none; [all_predictions] is never empty. *)
Theorem predict_one_item_per_detection env png names image boxes r :
  predict env png names image boxes = Ok r ->
  length (all_predictions r) = Nat.max 1 (length (default [] boxes)) /\
  all_predictions r <> [].
Proof.
  intros H.
  assert (Hlen : length (all_predictions r) = Nat.max 1 (length (default [] boxes))).
  { unfold predict in H. destruct boxes as [[|d rest]|]; try (by injection H as <-).
    destruct (detection_loop env (resolve_font env) names (d :: rest) [] [])
      as [[ops items]|e] eqn:E; [|discriminate].
    apply detection_loop_counts in E as [_ E]. cbn [bind_result] in H.
    destruct (sort_by_confidence_desc items) as [|p others] eqn:Es; [discriminate|].
    injection H as <-. cbn [all_predictions default].
    rewrite <- Es, (Permutation_length (sort_by_confidence_desc_perm items)), E.
    unfold id. cbn [length]. lia. }
  split; [exact Hlen|]. intros E. rewrite E in Hlen. cbn in Hlen. lia.
Qed.

Lemma predict_one_item_per_detection_witness :
  exists r,
    predict dejavu_host signature_only two_classes square_100 (Some blight_and_healthy)
      = Ok r /\
    length (all_predictions r) = Nat.max 1 (length (default [] (Some blight_and_healthy))) /\
    all_predictions r <> [].
Proof.
  eexists. split; [reflexivity|].
  apply (predict_one_item_per_detection dejavu_host signature_only two_classes
           square_100 (Some blight_and_healthy)). reflexivity.
Defined.

(** ** [translate_disease_names] for the default language *)

Lemma is_dict_app h ext v :
  val_in_store h v -> is_dict (h ++ ext) v = is_dict h v.
Proof.
  destruct v as [| | |l]; try reflexivity. intros Hv.
  unfold is_dict. by rewrite (val_in_store_lookup h ext l Hv).
Qed.

Lemma to_dict_shared_spec py_str pre ext rq pred :
  val_in_store pre pred ->
  to_dict_shared py_str pred (mkWorld (pre ++ ext) rq)
  = if is_dict pre pred then (Ok pred, mkWorld (pre ++ ext) rq)
    else (Ok (VRef (length (pre ++ ext))),
          mkWorld ((pre ++ ext) ++ [ODict (item_dict py_str pre pred)]) rq).
Proof.
  intros Hv. destruct pred as [| | |l]; try reflexivity.
  unfold to_dict_shared, is_dict, item_dict, bind, load. cbn [heap].
  rewrite (val_in_store_lookup pre ext l Hv).
  destruct (pre !! l) as [[]|]; reflexivity.
Qed.

Lemma for_each_convert_one py_str pre items :
  Forall (val_in_store pre) items ->
  forall acc fresh rq,
  for_each (convert_one py_str (length pre)) items
    (mkWorld (pre ++ OList acc :: fresh) rq)
  = (Ok tt,
     mkWorld
       (pre ++ OList (acc ++ fst (converted_items py_str pre
                                    (length pre + 1 + length fresh) items))
          :: fresh ++ snd (converted_items py_str pre
                             (length pre + 1 + length fresh) items))
       rq).
Proof.
  induction 1 as [|it items Hit Hall IH]; intros acc fresh rq.
  - cbn. by rewrite !app_nil_r.
  - cbn [for_each converted_items]. unfold bind at 1, convert_one, bind at 1.
    rewrite to_dict_shared_spec by exact Hit.
    destruct (is_dict pre it) eqn:Ed.
    + unfold list_append, bind, load. cbn [heap].
      rewrite list_lookup_middle by reflexivity.
      unfold store. cbn [heap requests]. rewrite store_at_end.
      rewrite IH.
      destruct (converted_items py_str pre (length pre + 1 + length fresh) items)
        as [vs os]. cbn [fst snd]. rewrite <- app_assoc. reflexivity.
    + unfold list_append, bind, load. cbn [heap].
      rewrite <- app_assoc. cbn [app].
      rewrite list_lookup_middle by reflexivity.
      unfold store. cbn [heap requests]. rewrite store_at_end.
      rewrite IH. rewrite !length_app. cbn [length].
      replace (length pre + 1 + (length fresh + 1))%nat
        with (S (length pre + 1 + length fresh)) by lia.
      replace (length pre + S (length fresh))%nat
        with (length pre + 1 + length fresh)%nat by lia.
      destruct (converted_items py_str pre (S (length pre + 1 + length fresh)) items)
        as [vs os]. cbn [fst snd]. rewrite <- !app_assoc. reflexivity.
Qed.

Lemma translate_disease_names_en_spec provider py_str h rq li items :
  h !! li = Some (OList items) ->
  Forall (val_in_store h) items ->
  translate_disease_names provider py_str (VRef li) "en" (mkWorld h rq)
  = (Ok (VRef (length h)),
     mkWorld
       (h ++ OList (fst (converted_items py_str h (length h + 1) items))
          :: snd (converted_items py_str h (length h + 1) items))
       rq).
Proof.
  intros Hli Hall. unfold translate_disease_names. cbn [lang_eqb String.eqb Ascii.eqb Bool.eqb].
  unfold bind at 1, alloc. cbn [heap requests].
  unfold bind at 1, iterate, bind at 1, load. cbn [heap].
  rewrite (lookup_app_l_Some _ _ _ _ Hli). unfold ret at 1.
  unfold bind at 1.
  rewrite (for_each_convert_one py_str h items Hall [] [] rq).
  cbn [length app]. rewrite Nat.add_0_r. reflexivity.
Qed.

Lemma converted_items_lookup py_str h items :
  forall next i it,
    items !! i = Some it ->
    let '(vs, os) := converted_items py_str h next items in
    length vs = length items /\
    (is_dict h it = true -> vs !! i = Some it) /\
    (is_dict h it = false ->
     exists j, vs !! i = Some (VRef (next + j)) /\
               os !! j = Some (ODict (item_dict py_str h it))).
Proof.
  induction items as [|x items IH]; intros next i it Hi; [done|].
  cbn [converted_items].
  destruct i as [|i].
  - injection Hi as ->.
    destruct (is_dict h it) eqn:Ed.
    + destruct (converted_items py_str h next items) as [vs os] eqn:E.
      split.
      { cbn [length]. f_equal.
        destruct items as [|y items']; [by injection E as <- <-|].
        specialize (IH next 0%nat y eq_refl). rewrite E in IH. apply IH. }
      split; [done|]. discriminate.
    + destruct (converted_items py_str h (S next) items) as [vs os] eqn:E.
      split.
      { cbn [length]. f_equal.
        destruct items as [|y items']; [by injection E as <- <-|].
        specialize (IH (S next) 0%nat y eq_refl). rewrite E in IH. apply IH. }
      split; [discriminate|]. intros _. exists 0%nat.
      by rewrite Nat.add_0_r.
  - rewrite lookup_cons in Hi.
    destruct (is_dict h x).
    + specialize (IH next i it Hi).
      destruct (converted_items py_str h next items) as [vs os].
      destruct IH as (Hlen & Hd & Ho). split; [cbn [length]; by f_equal|].
      split; [exact Hd|exact Ho].
    + specialize (IH (S next) i it Hi).
      destruct (converted_items py_str h (S next) items) as [vs os].
      destruct IH as (Hlen & Hd & Ho). split; [cbn [length]; by f_equal|].
      split; [exact Hd|]. intros Hn. destruct (Ho Hn) as (j & Hj & Hos).
      exists (S j). split; [|exact Hos].
      rewrite lookup_cons. rewrite Hj. do 2 f_equal. lia.
Qed.

(** X11. For the language "en" [translate_disease_names] sends no
    request and only adds objects to the store; the list it returns has
    one entry per item; a dictionary item is returned as the very same
    object, any other item as a new dictionary with its untranslated
    fields. *)
Theorem translate_disease_names_en provider py_str h rq li items :
  h !! li = Some (OList items) ->
  Forall (val_in_store h) items ->
  exists converted fresh,
    translate_disease_names provider py_str (VRef li) "en" (mkWorld h rq)
    = (Ok (VRef (length h)), mkWorld (h ++ OList converted :: fresh) rq) /\
    length converted = length items /\
    forall i it,
      items !! i = Some it ->
      (is_dict h it = true -> converted !! i = Some it) /\
      (is_dict h it = false ->
       exists l,
         converted !! i = Some (VRef l) /\
         (length h < l)%nat /\
         (h ++ OList converted :: fresh) !! l = Some (ODict (item_dict py_str h it))).
Proof.
  intros Hli Hall.
  exists (fst (converted_items py_str h (length h + 1) items)),
    (snd (converted_items py_str h (length h + 1) items)).
  split; [by apply translate_disease_names_en_spec|].
  destruct items as [|x items'] eqn:Ei; [split; [reflexivity|]; intros i it; done|].
  rewrite <- Ei in *.
  assert (Hlen : length (fst (converted_items py_str h (length h + 1) items))
                 = length items).
  { pose proof (converted_items_lookup py_str h items (length h + 1) 0%nat x) as H.
    rewrite Ei in H. specialize (H eq_refl). rewrite <- Ei in H.
    destruct (converted_items py_str h (length h + 1) items). apply H. }
  split; [exact Hlen|].
  intros i it Hi.
  pose proof (converted_items_lookup py_str h items (length h + 1) i it Hi) as H.
  destruct (converted_items py_str h (length h + 1) items) as [vs os].
  cbn [fst snd]. destruct H as (_ & Hd & Ho).
  split; [exact Hd|]. intros Hn. destruct (Ho Hn) as (j & Hj & Hos).
  exists (length h + 1 + j)%nat. split; [exact Hj|]. split; [lia|].
  rewrite lookup_app_r by lia.
  replace (length h + 1 + j - length h)%nat with (S j) by lia.
  exact Hos.
Qed.

Lemma translate_disease_names_en_witness :
  exists converted fresh,
    translate_disease_names provider_roya str_of_text (VRef 2) "en" blight_world
    = (Ok (VRef (length (heap blight_world))),
       mkWorld (heap blight_world ++ OList converted :: fresh) []) /\
    length converted = 2%nat.
Proof.
  destruct (translate_disease_names_en provider_roya str_of_text
              (heap blight_world) [] 2 [VRef 0; VRef 1])
    as (converted & fresh & Hrun & Hlen & _).
  - reflexivity.
  - repeat constructor.
  - exists converted, fresh. split; [exact Hrun|exact Hlen].
Defined.

(** ** A response without the optional keys *)

Lemma translate_prediction_response_no_items provider py_str target h rq r d :
  lang_eqb target "en" = false ->
  h !! r = Some (ODict d) ->
  d !! "all_predictions" = None ->
  translate_prediction_response provider py_str (VRef r) target (mkWorld h rq)
  = (Ok (VRef (length h)),
     mkWorld (h ++ [ODict (translated_disease provider target d rq)])
       (rq ++ disease_requests target d)).
Proof.
  intros Hne Hr Hap.
  unfold translate_prediction_response. rewrite Hne.
  unfold bind at 1, dict_copy, bind at 1, load. cbn [heap]. rewrite Hr.
  unfold alloc. cbn [heap requests].
  unfold bind at 1, dict_lookup, bind at 1, load. cbn [heap].
  rewrite list_lookup_middle by reflexivity. unfold ret at 1.
  assert (Hstep :
    (match d !! "disease" with
     | Some original_disease =>
         let! translated_disease0 := translate_text provider original_disease target "en" in
         dict_set (length h) "disease" translated_disease0
     | None => ret ()
     end) (mkWorld (h ++ [ODict d]) rq)
    = (Ok tt, mkWorld (h ++ [ODict (translated_disease provider target d rq)])
                (rq ++ disease_requests target d))).
  { unfold translated_disease, disease_requests.
    destruct (d !! "disease") as [od|]; cbn [option_list map].
    - unfold bind at 1. rewrite translate_text_spec by exact Hne.
      unfold dict_set, bind, load. cbn [heap].
      rewrite list_lookup_middle by reflexivity.
      unfold store. cbn [heap requests]. by rewrite store_at_end.
    - unfold ret. by rewrite app_nil_r. }
  unfold bind at 1. rewrite Hstep. clear Hstep.
  assert (Hap1 : translated_disease provider target d rq !! "all_predictions" = None).
  { unfold translated_disease. destruct (d !! "disease"); [|exact Hap].
    by rewrite lookup_insert_ne. }
  unfold bind at 1, dict_lookup, bind at 1, load. cbn [heap].
  rewrite list_lookup_middle by reflexivity. unfold ret at 1. rewrite Hap1.
  reflexivity.
Qed.

(** X12. A response without [all_predictions] is copied into a new
    dictionary in which every key but [disease] keeps its value; without
    [disease] too the copy equals the input and no request is sent; with
    [disease] exactly one request is sent and the key holds its outcome. *)
Theorem translate_response_missing_keys provider py_str target h rq r d :
  target <> "en" ->
  h !! r = Some (ODict d) ->
  d !! "all_predictions" = None ->
  exists d' sent,
    translate_prediction_response provider py_str (VRef r) target (mkWorld h rq)
    = (Ok (VRef (length h)), mkWorld (h ++ [ODict d']) (rq ++ sent)) /\
    (forall k, k <> "disease" -> d' !! k = d !! k) /\
    (d !! "disease" = None -> d' = d /\ sent = []) /\
    (forall text,
        d !! "disease" = Some text ->
        sent = [name_request target text] /\
        d' !! "disease" = Some (outcome (provider rq (name_request target text)) text)).
Proof.
  intros Hne Hr Hap. apply lang_eqb_false in Hne.
  exists (translated_disease provider target d rq), (disease_requests target d).
  split; [by apply translate_prediction_response_no_items|].
  unfold translated_disease, disease_requests.
  destruct (d !! "disease") as [od|] eqn:Ed.
  - split; [intros k Hk; by rewrite lookup_insert_ne|].
    split; [discriminate|]. intros text [= <-].
    split; [reflexivity|]. by rewrite lookup_insert_eq.
  - split; [done|]. split; [done|]. discriminate.
Qed.

Lemma translate_response_missing_keys_witness :
  exists d' sent,
    translate_prediction_response provider_roya str_of_text (VRef 0) "es"
      (mkWorld [ODict {["confidence" := VFloat (1 # 2)]}] [])
    = (Ok (VRef 1),
       mkWorld ([ODict {["confidence" := VFloat (1 # 2)]}] ++ [ODict d']) ([] ++ sent)) /\
    d' = {["confidence" := VFloat (1 # 2)]} /\ sent = [].
Proof.
  destruct (translate_response_missing_keys provider_roya str_of_text "es"
              [ODict {["confidence" := VFloat (1 # 2)]}] [] 0
              {["confidence" := VFloat (1 # 2)]})
    as (d' & sent & Hrun & _ & Hnone & _).
  - discriminate.
  - reflexivity.
  - reflexivity.
  - exists d', sent. split; [exact Hrun|]. by apply Hnone.
Defined.

(** ** The catalogue of languages *)

Lemma dict_copy_spec h rq l d :
  h !! l = Some (ODict d) ->
  dict_copy (VRef l) (mkWorld h rq) = (Ok (length h), mkWorld (h ++ [ODict d]) rq).
Proof. intros H. unfold dict_copy, bind, load. cbn [heap]. by rewrite H. Qed.

(** X13. [get_supported_languages] sends no request and returns a new
    dictionary with the entries of the catalogue; writing into the
    returned dictionary leaves the catalogue as it is, and the next call
    returns the entries of the catalogue again. *)
Theorem get_supported_languages_copies self h rq catalog :
  h !! supported_langs self = Some (ODict catalog) ->
  get_supported_languages self (mkWorld h rq)
  = (Ok (VRef (length h)), mkWorld (h ++ [ODict catalog]) rq) /\
  forall k v,
    let w1 := snd (get_supported_languages self (mkWorld h rq)) in
    let w2 := snd (dict_set (length h) k v w1) in
    heap w2 !! supported_langs self = Some (ODict catalog) /\
    heap w2 !! length h = Some (ODict (<[k := v]> catalog)) /\
    get_supported_languages self w2
    = (Ok (VRef (length (heap w2))), mkWorld (heap w2 ++ [ODict catalog]) rq).
Proof.
  intros H.
  assert (Hrun : get_supported_languages self (mkWorld h rq)
                 = (Ok (VRef (length h)), mkWorld (h ++ [ODict catalog]) rq)).
  { unfold get_supported_languages, bind. by rewrite (dict_copy_spec h rq _ catalog H). }
  split; [exact Hrun|]. intros k v. cbv zeta. rewrite Hrun. cbn [snd].
  assert (Hset : dict_set (length h) k v (mkWorld (h ++ [ODict catalog]) rq)
                 = (Ok tt, mkWorld (h ++ [ODict (<[k := v]> catalog)]) rq)).
  { unfold dict_set, bind, load. cbn [heap].
    rewrite list_lookup_middle by reflexivity.
    unfold store. cbn [heap requests]. by rewrite store_at_end. }
  rewrite Hset. cbn [snd heap].
  assert (Hold : (h ++ [ODict (<[k := v]> catalog)]) !! supported_langs self
                 = Some (ODict catalog)) by by apply lookup_app_l_Some.
  split; [exact Hold|].
  split; [by apply list_lookup_middle|].
  unfold get_supported_languages, bind.
  by rewrite (dict_copy_spec _ rq _ catalog Hold).
Qed.

Lemma get_supported_languages_copies_witness :
  get_supported_languages (mkService 0 0) (mkWorld [ODict SUPPORTED_LANGUAGES] [])
  = (Ok (VRef 1), mkWorld ([ODict SUPPORTED_LANGUAGES] ++ [ODict SUPPORTED_LANGUAGES]) []).
Proof.
  apply (get_supported_languages_copies (mkService 0 0)
           [ODict SUPPORTED_LANGUAGES] [] SUPPORTED_LANGUAGES).
  reflexivity.
Defined.

(** The table has 29 languages and the default one is among them. *)
Example supported_languages_table :
  size SUPPORTED_LANGUAGES = 29%nat /\
  SUPPORTED_LANGUAGES !! "en" = Some (VStr "English") /\
  SUPPORTED_LANGUAGES !! "zh" = Some (VStr "Chinese (Simplified)") /\
  SUPPORTED_LANGUAGES !! "xx" = None.
Proof. repeat split; vm_compute; reflexivity. Qed.

(** ** The translation service singleton *)

Lemma get_translator_cached catalog s t :
  _translation_service s = Some t -> get_translator catalog s = (t, s).
Proof. intros H. unfold get_translator. by rewrite H. Qed.

Lemma get_translator_calls_cached catalog n s t :
  _translation_service s = Some t ->
  get_translator_calls catalog n s = (repeat t n, s).
Proof.
  intros H. induction n as [|n IH]; [reflexivity|].
  cbn [get_translator_calls]. by rewrite (get_translator_cached _ _ _ H), IH.
Qed.

(** X14. From the start of the process any number of [get_translator]
    calls return one and the same service, constructed once. *)
Theorem get_translator_singleton catalog n :
  get_translator_calls catalog (S n) translator_init
  = (repeat (mkService 0 catalog) (S n),
     mkTranslatorState (Some (mkService 0 catalog)) 1).
Proof.
  cbn [get_translator_calls]. unfold get_translator at 1. cbn.
  by rewrite (get_translator_calls_cached catalog n _ (mkService 0 catalog)).
Qed.

(** ** [validate_image] *)

(** X15. [validate_image] accepts exactly the contents that PIL opens
    and verifies and that have at most 10 * 1024 * 1024 bytes; it is
    accepted exactly when no message is returned; and content that PIL
    rejects is reported as an invalid image, whatever its size. *)
Theorem validate_image_accepts pil_verify file_content :
  (fst (validate_image pil_verify file_content) = true <->
   pil_verify file_content = None /\
   (N.of_nat (length file_content) <= 10485760)%N) /\
  (fst (validate_image pil_verify file_content) = true <->
   snd (validate_image pil_verify file_content) = None) /\
  (forall e,
      pil_verify file_content = Some e ->
      validate_image pil_verify file_content
      = (false, Some ("Invalid image file: " +:+ e))).
Proof.
  unfold validate_image. change max_size with 10485760%N.
  destruct (pil_verify file_content) as [e|].
  - split; [split; [discriminate|intros [? _]; discriminate]|].
    split; [split; discriminate|]. by intros e' [= <-].
  - destruct (10485760 <? N.of_nat (length file_content))%N eqn:E.
    + apply N.ltb_lt in E.
      split; [split; [discriminate|intros [_ ?]; lia]|].
      split; [split; discriminate|]. discriminate.
    + apply N.ltb_ge in E.
      split; [split; [done|done]|]. split; [done|]. discriminate.
Qed.

Lemma validate_image_accepts_witness :
  validate_image (fun _ => Some "cannot identify image file") png_signature
  = (false, Some "Invalid image file: cannot identify image file").
Proof.
  destruct (validate_image_accepts (fun _ => Some "cannot identify image file")
              png_signature) as (_ & _ & H).
  by apply H.
Defined.

(** ** What [predict] returns passes the schema *)

Lemma detection_loop_valid env font names dets :
  forall ops items ops' items',
    detection_loop env font names dets ops items = Ok (ops', items') ->
    Forall valid_item items -> Forall valid_item items'.
Proof.
  induction dets as [|d dets IH]; intros ops items ops' items'; cbn [detection_loop].
  - by intros [= <- <-].
  - destruct (names !! det_class_id d) as [name|]; [|discriminate].
    destruct (draw_text_font env font); cbn [bind_result]; [|discriminate].
    unfold new_PredictionItem.
    destruct (confidence_in_range (det_conf d)) eqn:Ec; cbn [bind_result]; [|discriminate].
    intros H Hall. eapply IH; [exact H|].
    apply Forall_app. split; [exact Hall|]. by repeat constructor.
Qed.

Lemma predict_valid env png names image boxes r :
  predict env png names image boxes = Ok r ->
  confidence_in_range (res_confidence r) = true /\ Forall valid_item (all_predictions r).
Proof.
  unfold predict. destruct boxes as [[|d rest]|]; try (intros [= <-]; by repeat constructor).
  destruct (detection_loop env (resolve_font env) names (d :: rest) [] [])
    as [[ops items]|e] eqn:E; [|discriminate].
  apply detection_loop_valid in E; [|constructor]. cbn [bind_result].
  destruct (sort_by_confidence_desc items) as [|p others] eqn:Es; [discriminate|].
  intros [= <-]. cbn [res_confidence all_predictions].
  assert (Hs : Forall valid_item (p :: others)).
  { rewrite <- Es. eapply Permutation_Forall; [|exact E].
    symmetry. apply sort_by_confidence_desc_perm. }
  split; [|exact Hs]. by apply Forall_cons_1 in Hs as [Hp _].
Qed.

Lemma validate_items_ok h refs items :
  Forall2 (reads_as h) refs items ->
  Forall valid_item items ->
  validate_items h refs = Ok items.
Proof.
  induction 1 as [|v it refs items (f & Hf & Hn & Hc) _ IH]; intros Hv; [reflexivity|].
  apply Forall_cons_1 in Hv as [Hit Hv].
  cbn [validate_items]. unfold validate_item. rewrite Hf, Hn, Hc.
  unfold new_PredictionItem. unfold valid_item in Hit. rewrite Hit.
  cbn [bind_result]. rewrite (IH Hv). cbn [bind_result]. by destruct it.
Qed.

Lemma stored_refs_read r w :
  Forall2 (reads_as (heap (snd (store_result r w))))
    (item_refs (length (heap w)) (length (all_predictions r)))
    (all_predictions r).
Proof.
  apply Forall2_same_length_lookup_2.
  { unfold item_refs. by rewrite length_map, length_seq. }
  intros i v it Hv Hit. unfold item_refs in Hv.
  rewrite lookup_map in Hv. rewrite lookup_seq_lt in Hv by (by eapply lookup_lt_Some).
  injection Hv as <-.
  eexists. unfold item_record. rewrite (stored_item r w i it Hit).
  split; [reflexivity|]. split.
  - rewrite lookup_insert_ne by done. by rewrite lookup_singleton_eq.
  - by rewrite lookup_insert_eq.
Qed.

Lemma response_dict_image r at_ :
  response_dict r at_ !! "annotated_image" = Some (VStr (annotated_image r)).
Proof.
  unfold response_dict. rewrite !lookup_insert_ne by done. by rewrite lookup_singleton_eq.
Qed.

Lemma stored_response_items r w :
  response_items (heap (snd (store_result r w)))
    (VRef (length (heap w) + length (all_predictions r) + 1))
  = Some (item_refs (length (heap w)) (length (all_predictions r))).
Proof.
  unfold response_items, response_fields.
  by rewrite stored_dict, response_dict_items, stored_list.
Qed.

Lemma validate_stored_result r w :
  confidence_in_range (res_confidence r) = true ->
  Forall valid_item (all_predictions r) ->
  validate_response (heap (snd (store_result r w))) (VRef (length (heap w) + length (all_predictions r) + 1))
  = Ok r.
Proof.
  intros Hc Hall. unfold validate_response.
  rewrite stored_response_items.
  unfold response_fields. rewrite stored_dict.
  rewrite response_dict_disease, response_dict_confidence, response_dict_image, Hc.
  rewrite (validate_items_ok _ _ _ (stored_refs_read r w) Hall).
  cbn [bind_result]. by destruct r.
Qed.

(** X16. The dictionary [predict] returns, with confidences in
    [0, 1], passes the validation of [PredictionResponse] and is read
    back as the very result. *)
Theorem stored_result_validates r w :
  confidence_in_range (res_confidence r) = true ->
  Forall valid_item (all_predictions r) ->
  validate_response (heap (snd (store_result r w))) (VRef (length (heap w) + length (all_predictions r) + 1))
  = Ok r.
Proof. apply validate_stored_result. Qed.

(** ** A translated response passes the schema *)

Lemma outcome_text answer s : outcome answer (VStr s) = VStr (default s answer).
Proof. by destruct answer. Qed.

Lemma translated_dicts_records provider py_str target h items :
  forall base past,
    (forall i it, items !! i = Some it -> h !! (base + i)%nat = Some (item_object it)) ->
    Forall2 dict_reads_as
      (translated_dicts provider py_str target h (item_refs base (length items)) past)
      (translated_records provider target items past).
Proof.
  induction items as [|it items IH]; intros base past Hobj; [constructor|].
  cbn [length translated_records]. unfold item_refs. cbn [seq map translated_dicts].
  assert (Hd : item_dict py_str h (VRef base)
               = <["confidence" := VFloat (confidence it)]>
                   {["class_name" := VStr (class_name it)]}).
  { unfold item_dict. pose proof (Hobj 0%nat it eq_refl) as H0.
    rewrite Nat.add_0_r in H0. by rewrite H0. }
  assert (Hn : original_name py_str h (VRef base) = VStr (class_name it)).
  { unfold original_name. rewrite Hd, lookup_insert_ne by done.
    by rewrite lookup_singleton_eq. }
  rewrite Hn, Hd. constructor.
  - split.
    + by rewrite lookup_insert_eq, outcome_text.
    + rewrite lookup_insert_ne by done. by rewrite lookup_insert_eq.
  - apply (IH (S base)). intros i it' Hi.
    replace (S base + i)%nat with (base + S i)%nat by lia. by apply Hobj.
Qed.

Lemma translated_records_valid provider target items :
  forall past,
    Forall valid_item items ->
    Forall valid_item (translated_records provider target items past).
Proof.
  induction items as [|it items IH]; intros past H; [constructor|].
  apply Forall_cons_1 in H as [Hit H]. cbn [translated_records].
  constructor; [exact Hit|by apply IH].
Qed.

Lemma translated_records_confidences provider target items :
  forall past,
    map confidence (translated_records provider target items past) = map confidence items.
Proof.
  induction items as [|it items IH]; intros past; [reflexivity|].
  cbn [translated_records map confidence]. by rewrite IH.
Qed.

Lemma translated_refs_read (h : list obj) o1 o2 dicts items :
  Forall2 dict_reads_as dicts items ->
  Forall2 (reads_as (h ++ o1 :: o2 :: map ODict dicts))
    (map VRef (seq (length h + 2) (length dicts))) items.
Proof.
  intros H. apply Forall2_same_length_lookup_2.
  { rewrite length_map, length_seq. by eapply Forall2_length. }
  intros i v it Hv Hit.
  destruct (Forall2_lookup_r _ _ _ _ _ H Hit) as (f & Hf & Hfi & Hfc).
  rewrite lookup_map, lookup_seq_lt in Hv by (by eapply lookup_lt_Some).
  injection Hv as <-.
  exists f. split; [|by split].
  unfold item_record. rewrite lookup_app_r by lia.
  replace (length h + 2 + i - length h)%nat with (S (S i)) by lia.
  change ((o1 :: o2 :: map ODict dicts) !! S (S i)) with (map ODict dicts !! i).
  by rewrite lookup_map, Hf.
Qed.

Lemma stored_original_names py_str target r w :
  map (fun v => name_request target
                  (original_name py_str (heap (snd (store_result r w))) v))
    (item_refs (length (heap w)) (length (all_predictions r)))
  = map (fun it => name_request target (VStr (class_name it))) (all_predictions r).
Proof.
  apply list_eq. intros i. rewrite !lookup_map. unfold item_refs. rewrite lookup_map.
  destruct (all_predictions r !! i) as [it|] eqn:Hi.
  - rewrite lookup_seq_lt by (by eapply lookup_lt_Some). cbn [fmap option_fmap option_map].
    do 2 f_equal. unfold original_name, item_dict.
    rewrite (stored_item r w i it Hi). cbn [item_object].
    rewrite lookup_insert_ne by done. by rewrite lookup_singleton_eq.
  - rewrite lookup_seq_ge by (by apply lookup_ge_None). reflexivity.
Qed.

Lemma validate_translated_result provider py_str target r w :
  target <> "en" ->
  confidence_in_range (res_confidence r) = true ->
  Forall valid_item (all_predictions r) ->
  exists response' w',
    translate_prediction_response provider py_str
      (VRef (length (heap w) + length (all_predictions r) + 1)) target
      (snd (store_result r w))
    = (Ok response', w') /\
    validate_response (heap w') response'
    = Ok (translated_result provider target r (requests w)) /\
    requests w' = requests w ++ translation_requests target r.
Proof.
  intros Hne Hc Hall. apply lang_eqb_false in Hne.
  set (h1 := heap (snd (store_result r w))).
  set (n := length (all_predictions r)).
  set (d := response_dict r (length (heap w) + n)).
  eexists _, _. split.
  { change (snd (store_result r w)) with (mkWorld h1 (requests w)).
    apply (translate_prediction_response_spec provider py_str target h1 (requests w)
             _ d (length (heap w) + n)%nat (item_refs (length (heap w)) n) Hne).
    - apply stored_dict.
    - apply response_dict_items.
    - apply stored_list.
    - apply stored_refs_valid. }
  cbn [heap requests].
  assert (Hreq : disease_requests target (response_dict r (length (heap w) + n))
                 = [name_request target (VStr (disease r))]).
  { unfold disease_requests. by rewrite response_dict_disease. }
  split.
  2:{ subst d. rewrite Hreq. subst h1 n. by rewrite stored_original_names. }
  assert (Hdis : translated_disease provider target d (requests w) !! "disease"
                 = Some (VStr (default (disease r)
                                 (provider (requests w)
                                    (name_request target (VStr (disease r))))))).
  { unfold translated_disease. subst d. rewrite response_dict_disease.
    by rewrite lookup_insert_eq, outcome_text. }
  assert (Hother : forall k, k <> "disease" ->
            translated_disease provider target d (requests w) !! k = d !! k).
  { intros k Hk. unfold translated_disease. subst d. rewrite response_dict_disease.
    by rewrite lookup_insert_ne. }
  unfold validate_response.
  rewrite read_items by apply lookup_insert_eq.
  rewrite read_fields.
  rewrite !lookup_insert_ne by done.
  rewrite Hdis, !Hother by done. subst d.
  rewrite response_dict_confidence, response_dict_image, Hc.
  rewrite Hreq.
  rewrite (validate_items_ok _ _
             (translated_records provider target (all_predictions r)
                (requests w ++ [name_request target (VStr (disease r))]))).
  - reflexivity.
  - unfold item_refs at 1. rewrite length_map, length_seq.
    rewrite <- (translated_dicts_length provider py_str target h1
                  (item_refs (length (heap w)) n)
                  (requests w ++ [name_request target (VStr (disease r))])).
    replace (length (translated_dicts provider py_str target h1
                       (item_refs (length (heap w)) n)
                       (requests w ++ [name_request target (VStr (disease r))])))
      with (length (translated_dicts provider py_str target h1
                       (item_refs (length (heap w)) (length (all_predictions r)))
                       (requests w ++ [name_request target (VStr (disease r))])))
      by reflexivity.
    apply translated_refs_read. apply translated_dicts_records.
    intros i it Hi. by apply stored_item.
  - by apply translated_records_valid.
Qed.

(** X17. For a target other than "en" the translation of such a
    dictionary always returns, sends one request for [disease] and one
    per item, and what it returns passes the validation of
    [PredictionResponse]: the confidences and the image are those of the
    input, every name is its translation or, where the request failed,
    the original. *)
Theorem translated_result_validates provider py_str target r w :
  target <> "en" ->
  confidence_in_range (res_confidence r) = true ->
  Forall valid_item (all_predictions r) ->
  exists response' w',
    translate_prediction_response provider py_str
      (VRef (length (heap w) + length (all_predictions r) + 1)) target
      (snd (store_result r w))
    = (Ok response', w') /\
    validate_response (heap w') response'
    = Ok (translated_result provider target r (requests w)) /\
    requests w' = requests w ++ translation_requests target r.
Proof. apply validate_translated_result. Qed.

(** ** main.py: start-up and health *)

Section MainFacts.

Variable INFERENCE_AVAILABLE : bool.
Variable host : LoadEnv.
Variable pil_verify : list Byte.byte -> option string.
Variable pil_open : list Byte.byte -> result (string * Image).
Variable convert_rgb : Image -> Image.
Variable detector : ModelInference -> Image -> result (option (list Detection)).
Variable names : gmap Z string.
Variable env : FontEnv.
Variable png_save : Image -> list (DrawOp (Font env)) -> list Byte.byte.
Variable provider : list request -> request -> option string.
Variable py_str : val -> string.
Variable exn_text : exn -> string.
Variable catalog : loc.

Local Abbreviation get_model' := (main_get_model INFERENCE_AVAILABLE host).
Local Abbreviation endpoint :=
  (predict_disease INFERENCE_AVAILABLE host pil_verify pil_open convert_rgb detector
     names env png_save provider py_str exn_text catalog).

Lemma main_get_model_ok s h s' :
  get_model' s = (Ok h, s') ->
  INFERENCE_AVAILABLE = true /\ get_model host s = (Ok h, s') /\
  _model_instance s' = Some h.
Proof.
  unfold main_get_model. destruct INFERENCE_AVAILABLE; [|discriminate].
  intros H. split; [reflexivity|]. split; [exact H|]. by eapply get_model_ok.
Qed.

(** X18. [startup_event] leaves the state as it is when the weights
    file is reported missing; when the file is reported present and the
    model loads, the model is cached and every later [get_model] returns
    it without constructing; when loading raises, start-up swallows the
    exception and the global stays unset. *)
Theorem startup_preloads :
  (forall s, startup_event INFERENCE_AVAILABLE host false s = s) /\
  (forall s h,
      fst (get_model' s) = Ok h ->
      let s' := startup_event INFERENCE_AVAILABLE host true s in
      _model_instance s' = Some h /\
      forall n, get_model_calls host n s' = (repeat (Ok h) n, s')) /\
  (forall s e,
      fst (get_model' s) = Raise e ->
      _model_instance s = None ->
      _model_instance (startup_event INFERENCE_AVAILABLE host true s) = None).
Proof.
  split; [reflexivity|]. split.
  - intros s h H. cbv zeta. unfold startup_event. cbn [negb].
    destruct (get_model' s) as [r s'] eqn:E. cbn [fst snd] in *. subst r.
    apply main_get_model_ok in E as (_ & _ & Hc).
    split; [exact Hc|]. intros n. by apply get_model_calls_cached.
  - intros s e H Hnone. unfold startup_event. cbn [negb].
    unfold main_get_model in *. destruct INFERENCE_AVAILABLE; [|exact Hnone].
    destruct (get_model host s) as [r s'] eqn:E. cbn [fst snd] in *. subst r.
    by apply get_model_raise in E as (_ & _ & ->).
Qed.

(** X19. [health_check] runs [get_model]: the status is "healthy"
    exactly when the model is loaded, which is exactly when [get_model]
    returned, and then the model is cached for every later call; the
    field [error] is filled exactly when [get_model] raised
    [ImportError]; [ultralytics_available] repeats the import flag of
    main.py. *)
Theorem health_check_reports exists_now s :
  let report := fst (health_check INFERENCE_AVAILABLE host exn_text exists_now s) in
  let s' := snd (health_check INFERENCE_AVAILABLE host exn_text exists_now s) in
  s' = snd (get_model' s) /\
  model_exists report = exists_now /\
  ultralytics_available report = INFERENCE_AVAILABLE /\
  (status report = "healthy" <-> model_loaded report = true) /\
  (status report = "healthy" \/ status report = "degraded") /\
  (model_loaded report = true <-> is_ok (fst (get_model' s)) = true) /\
  (model_loaded report = true ->
   exists h, _model_instance s' = Some h /\
             forall n, get_model_calls host n s' = (repeat (Ok h) n, s')) /\
  (error report = Some (exn_text ImportError) <-> fst (get_model' s) = Raise ImportError) /\
  (error report = None <-> fst (get_model' s) <> Raise ImportError).
Proof.
  cbv zeta. unfold health_check.
  destruct (get_model' s) as [r s'] eqn:E. cbn [fst snd status model_loaded error
    model_exists ultralytics_available].
  split; [reflexivity|]. split; [reflexivity|]. split; [reflexivity|].
  destruct r as [h|e]; cbn [is_ok].
  - split; [done|]. split; [by left|]. split; [done|]. split.
    + intros _. exists h. apply main_get_model_ok in E as (_ & _ & Hc).
      split; [exact Hc|]. intros n. by apply get_model_calls_cached.
    + split; [split; discriminate|]. split; [discriminate|done].
  - split; [split; discriminate|]. split; [by right|]. split; [done|].
    split; [discriminate|].
    destruct e; (split; [split; try discriminate; try done|split; try discriminate; try done]).
    all: try (intros _; discriminate). all: intros H; by contradiction H.
Qed.

(** On a host where the module of the inference imports but
    ultralytics is missing, the report says [ultralytics_available] and
    carries the text of the import error. *)
Example health_without_ultralytics :
  fst (health_check true (mkLoadEnv false (fun _ => true) (fun _ => true))
         (fun _ => "not installed") true adapter_init)
  = mkHealth "degraded" true false true (Some "not installed").
Proof. reflexivity. Qed.

(** ** main.py: [predict_disease] *)

Lemma http_raise_code {A} e :
  exists detail,
    @http_raise exn_text A e = HttpError 500 detail \/
    @http_raise exn_text A e = HttpError 503 detail.
Proof. unfold http_raise, http_error_of. destruct e; cbn; eauto. Qed.

(** X20. [predict_disease] answers with the status 200, 400, 500 or
    503 only; a 400 leaves the state of the process as it was; and unless
    a language other than "en" is asked for, no request is sent to the
    translation provider. *)
Theorem predict_disease_statuses content_type file_content lang st :
  match fst (endpoint content_type file_content lang st) with
  | Http200 _ => True
  | HttpError code _ => code = 400%Z \/ code = 500%Z \/ code = 503%Z
  end /\
  (forall detail,
      fst (endpoint content_type file_content lang st) = HttpError 400 detail ->
      snd (endpoint content_type file_content lang st) = st) /\
  (wants_translation lang = false ->
   requests (app_world (snd (endpoint content_type file_content lang st)))
   = requests (app_world st)).
Proof.
  assert (Hraise : forall e (s : AppState),
            match @http_raise exn_text PredictionResult e with
            | Http200 _ => True
            | HttpError code _ => code = 400%Z \/ code = 500%Z \/ code = 503%Z
            end /\
            (forall detail,
                @http_raise exn_text PredictionResult e = HttpError 400 detail -> s = st)).
  { intros e s. destruct (@http_raise_code PredictionResult e) as (detail & [-> | ->]);
      (split; [auto|discriminate]). }
  unfold predict_disease.
  destruct (negb _); [cbn; by auto|].
  destruct (validate_image pil_verify file_content) as [[|] msg]; [|cbn; by auto].
  destruct (pil_open file_content) as [[mode opened]|e].
  2:{ cbn [fst snd]. destruct (Hraise e st) as [H1 H2]. by auto. }
  destruct (get_model' (app_model st)) as [[model|e] s'].
  2:{ cbn [fst snd app_world]. destruct (Hraise e (mkApp s' (app_translator st) (app_world st))) as [H1 H2].
      by auto. }
  destruct (model_predict detector names env png_save model _) as [r|e].
  2:{ cbn [fst snd app_world]. destruct (Hraise e (mkApp s' (app_translator st) (app_world st))) as [H1 H2].
      by auto. }
  unfold store_result.
  destruct (wants_translation lang) eqn:Ew.
  - destruct (get_translator catalog (app_translator st)) as [tr t'].
    destruct (translate_prediction_response _ _ _ _ _) as [[translated|e] w2];
      destruct (validate_response _ _) as [body|e']; cbn [fst snd];
      try (split; [done|]; split; [discriminate|discriminate]);
      (destruct (Hraise e' (mkApp s' t' w2)) as [H1 H2]; split; [exact H1|];
       split; [exact H2|discriminate]).
  - destruct (validate_response _ _) as [body|e']; cbn [fst snd app_world requests].
    + split; [done|]. split; [discriminate|done].
    + destruct (Hraise e' (mkApp s' (app_translator st)
                   (mkWorld (heap (app_world st)
                               ++ map item_object (all_predictions r)
                               ++ [OList (item_refs (length (heap (app_world st)))
                                            (length (all_predictions r)));
                                   ODict (response_dict r
                                            (length (heap (app_world st))
                                             + length (all_predictions r)))])
                      (requests (app_world st))))) as [H1 H2].
      split; [exact H1|]. split; [exact H2|done].
Qed.

(** X21. When the upload is an accepted image, the model is available
    and [predict] returns, [predict_disease] answers 200 for every value
    of [lang] and every behaviour of the provider: with the result of
    [predict] itself when no translation is asked for, else with its
    translation, at the price of one request for [disease] and one per
    item. *)
Theorem predict_disease_success content_type file_content lang st mode opened m s' r :
  is_image_type content_type = true ->
  fst (validate_image pil_verify file_content) = true ->
  pil_open file_content = Ok (mode, opened) ->
  get_model' (app_model st) = (Ok m, s') ->
  model_predict detector names env png_save m
    (if String.eqb mode "RGB" then opened else convert_rgb opened) = Ok r ->
  fst (endpoint content_type file_content lang st)
  = Http200 (if wants_translation lang
             then translated_result provider (default "" lang) r
                    (requests (app_world st))
             else r) /\
  app_model (snd (endpoint content_type file_content lang st)) = s' /\
  requests (app_world (snd (endpoint content_type file_content lang st)))
  = requests (app_world st)
      ++ (if wants_translation lang then translation_requests (default "" lang) r else []).
Proof.
  intros Hct Hvalid Hopen Hmodel Hpred.
  assert (Hr : confidence_in_range (res_confidence r) = true
               /\ Forall valid_item (all_predictions r)).
  { unfold model_predict in Hpred.
    destruct (detector m _) as [boxes|e]; [|discriminate].
    cbn [bind_result] in Hpred. by eapply predict_valid. }
  destruct Hr as [Hc Hall].
  unfold predict_disease. fold (is_image_type content_type). rewrite Hct. cbn [negb].
  destruct (validate_image pil_verify file_content) as [ok msg]. cbn [fst] in Hvalid.
  subst ok. rewrite Hopen, Hmodel, Hpred.
  pose (w1 := snd (store_result r (app_world st))).
  change (store_result r (app_world st))
    with (Ok (VRef (length (heap (app_world st)) + length (all_predictions r) + 1)), w1).
  cbv iota beta.
  destruct (wants_translation lang) eqn:Ew.
  - destruct lang as [l|]; [|discriminate]. cbn [default].
    assert (Hne : l <> "en").
    { unfold wants_translation in Ew. apply andb_true_iff in Ew as [_ Ew].
      apply negb_true_iff in Ew. by apply String.eqb_neq in Ew. }
    destruct (get_translator catalog (app_translator st)) as [tr t'].
    destruct (validate_translated_result provider py_str l r (app_world st) Hne Hc Hall)
      as (response' & w' & Hrun & Hval & Hreq).
    change (snd (store_result r (app_world st))) with w1 in Hrun.
    unfold id. rewrite Hrun. rewrite Hval. by split.
  - pose proof (validate_stored_result r (app_world st) Hc Hall) as Hval.
    change (snd (store_result r (app_world st))) with w1 in Hval.
    rewrite Hval. cbn [fst snd app_model app_world]. subst w1.
    split; [reflexivity|]. split; [reflexivity|]. cbn [snd requests store_result].
    by rewrite app_nil_r.
Qed.

(** X22. When the model is not loaded and its construction raises,
    [predict_disease] answers 503 for [ImportError] and
    [FileNotFoundError] and 500 for any other exception, leaves the world
    of the translation layer untouched and the global unset, so that the
    next request constructs again. *)
Theorem predict_disease_model_unavailable content_type file_content lang st mode opened e :
  is_image_type content_type = true ->
  fst (validate_image pil_verify file_content) = true ->
  pil_open file_content = Ok (mode, opened) ->
  INFERENCE_AVAILABLE = true ->
  _model_instance (app_model st) = None ->
  ModelInference_init host (length (constructions (app_model st))) = Raise e ->
  exists detail,
    endpoint content_type file_content lang st
    = (HttpError (match e with
                  | ImportError | FileNotFoundError => 503
                  | _ => 500
                  end) detail,
       mkApp (mkAdapter None (constructions (app_model st) ++ [Raise e]))
         (app_translator st) (app_world st)).
Proof.
  intros Hct Hvalid Hopen Hinf Hnone Hinit.
  unfold predict_disease. fold (is_image_type content_type). rewrite Hct. cbn [negb].
  destruct (validate_image pil_verify file_content) as [ok msg]. cbn [fst] in Hvalid.
  subst ok. rewrite Hopen.
  unfold main_get_model. rewrite Hinf. unfold get_model, construct.
  rewrite Hnone, Hinit.
  exists (snd (http_error_of exn_text e)).
  unfold http_raise, http_error_of. by destruct e.
Qed.

End MainFacts.

Lemma stored_result_validates_witness :
  validate_response (heap (snd (store_result blight_result empty_world)))
    (VRef (length (heap empty_world) + length (all_predictions blight_result) + 1))
  = Ok blight_result.
Proof.
  apply (stored_result_validates blight_result empty_world); [reflexivity|].
  repeat constructor.
Defined.

Lemma translated_result_validates_witness :
  exists response' w',
    translate_prediction_response provider_fails_on_blight str_unknown
      (VRef (length (heap empty_world) + length (all_predictions blight_result) + 1))
      "es" (snd (store_result blight_result empty_world))
    = (Ok response', w') /\
    validate_response (heap w') response'
    = Ok (translated_result provider_fails_on_blight "es" blight_result
            (requests empty_world)) /\
    requests w' = requests empty_world ++ translation_requests "es" blight_result.
Proof.
  apply (translated_result_validates provider_fails_on_blight str_unknown "es"
           blight_result empty_world); [discriminate|reflexivity|].
  repeat constructor.
Defined.

(** The scenario of the specification through the schema: the provider
    fails for "Leaf Blight" and answers "Sano" for "Healthy". *)
Example translated_blight_result :
  translated_result provider_fails_on_blight "es" blight_result []
  = mkResult "Leaf Blight" (91 # 100)
      [mkItem "Leaf Blight" (91 # 100); mkItem "Sano" (4 # 10)]
      "data:image/png;base64,iVBORw0KGgo=".
Proof. reflexivity. Qed.

Lemma startup_preloads_witness :
  fst (main_get_model true always_loads adapter_init) = Ok (mkModel 0) /\
  _model_instance (startup_event true always_loads true adapter_init)
  = Some (mkModel 0).
Proof.
  split; [reflexivity|].
  destruct (startup_preloads true always_loads) as (_ & H & _).
  by apply (H adapter_init (mkModel 0)).
Defined.

Lemma health_check_reports_witness :
  model_loaded (fst (health_check true always_loads plain_text true adapter_init)) = true /\
  exists h,
    _model_instance (snd (health_check true always_loads plain_text true adapter_init))
    = Some h.
Proof.
  split; [reflexivity|].
  destruct (health_check_reports true always_loads plain_text true adapter_init)
    as (_ & _ & _ & _ & _ & _ & H & _).
  destruct (H eq_refl) as (h & Hh & _). by exists h.
Defined.

Lemma predict_disease_statuses_witness :
  wants_translation (Some "en") = false /\
  requests (app_world (snd (predict_disease true always_loads accepts_all opens_square
                              id finds_blight two_classes dejavu_host signature_only
                              provider_fails_on_blight str_unknown plain_text 0
                              (Some "image/png") png_signature (Some "en") fresh_app)))
  = requests (app_world fresh_app).
Proof.
  split; [reflexivity|].
  destruct (predict_disease_statuses true always_loads accepts_all opens_square
              id finds_blight two_classes dejavu_host signature_only
              provider_fails_on_blight str_unknown plain_text 0
              (Some "image/png") png_signature (Some "en") fresh_app) as (_ & _ & H).
  by apply H.
Defined.

Lemma predict_disease_success_witness :
  fst (predict_disease true always_loads accepts_all opens_square id finds_blight
         two_classes dejavu_host signature_only provider_fails_on_blight str_unknown
         plain_text 0 (Some "image/png") png_signature (Some "es") fresh_app)
  = Http200 (mkResult "Leaf Blight" (91 # 100)
               [mkItem "Leaf Blight" (91 # 100); mkItem "Sano" (4 # 10)]
               "data:image/png;base64,iVBORw0KGgo=").
Proof.
  exact (proj1 (predict_disease_success true always_loads accepts_all opens_square id
                  finds_blight two_classes dejavu_host signature_only
                  provider_fails_on_blight str_unknown plain_text 0
                  (Some "image/png") png_signature (Some "es") fresh_app
                  "RGB" square_100 (mkModel 0)
                  (mkAdapter (Some (mkModel 0)) [Ok (mkModel 0)]) blight_result
                  eq_refl eq_refl eq_refl eq_refl eq_refl)).
Defined.

Lemma predict_disease_model_unavailable_witness :
  exists detail,
    predict_disease true file_arrives_late accepts_all opens_square id finds_blight
      two_classes dejavu_host signature_only provider_fails_on_blight str_unknown
      plain_text 0 (Some "image/png") png_signature None fresh_app
    = (HttpError 503 detail,
       mkApp (mkAdapter None [Raise FileNotFoundError]) translator_init empty_world).
Proof.
  apply (predict_disease_model_unavailable true file_arrives_late accepts_all
           opens_square id finds_blight two_classes dejavu_host signature_only
           provider_fails_on_blight str_unknown plain_text 0
           (Some "image/png") png_signature None fresh_app "RGB" square_100
           FileNotFoundError); reflexivity.
Defined.

(** ** The model adapter under every schedule *)

Lemma count_past_insert callers i c c' :
  callers !! i = Some c ->
  (count_past (<[i := c']> callers) + (if past_construct c then 1 else 0)
   = count_past callers + (if past_construct c' then 1 else 0))%nat.
Proof.
  intros Hi. unfold count_past.
  rewrite <- (take_drop_middle callers i c Hi) at 2.
  rewrite insert_take_drop by (by eapply lookup_lt_Some).
  rewrite !List.filter_app, !length_app. cbn [List.filter].
  destruct (past_construct c), (past_construct c'); cbn [length]; lia.
Qed.

Lemma caller_backed_mono s s' c :
  (forall r, In r (constructions s) -> In r (constructions s')) ->
  (forall h, _model_instance s = Some h -> exists h', _model_instance s' = Some h') ->
  caller_backed s c -> caller_backed s' c.
Proof.
  intros Hin Hglob. destruct c as [| |h| |r|e]; cbn; auto.
  - intros [h Hh]. by eapply Hglob.
  - intros (h & -> & Hh). eauto.
Qed.

Lemma sched_step_invariant host cfg i :
  schedule_invariant cfg -> schedule_invariant (sched_step host cfg i).
Proof.
  destruct cfg as [s callers]. unfold sched_step. cbn [fst snd].
  destruct (callers !! i) as [c|] eqn:Hi; [|done].
  unfold schedule_invariant. cbn [fst snd]. intros (Hglob & Hall & Hcount).
  pose proof (Forall_lookup_1 _ _ _ _ Hall Hi) as Hc.
  pose proof (count_past_insert callers i c) as Hins.
  destruct c as [| |h| |r|e]; cbn [caller_step].
  - (* the test *)
    destruct (_model_instance s) as [h|] eqn:Eg; cbn [fst snd].
    + specialize (Hins AtReturn Hi). cbn [past_construct] in Hins.
      split; [rewrite Eg; exact Hglob|]. split; [|lia].
      apply Forall_insert; [exact Hall|]. cbn. by eauto.
    + specialize (Hins AtConstruct Hi). cbn [past_construct] in Hins.
      split; [rewrite Eg; exact Hglob|]. split; [|lia].
      by apply Forall_insert.
  - (* the constructor *)
    unfold construct.
    destruct (ModelInference_init host (length (constructions s))) as [h|e] eqn:Ei;
      cbn [fst snd _model_instance constructions].
    + specialize (Hins (AtAssign h) Hi). cbn [past_construct] in Hins.
      split; [intros h' Hh'; apply in_or_app; left; by apply Hglob|].
      split; [|rewrite length_app; cbn [length]; lia].
      apply Forall_insert.
      * eapply Forall_impl; [exact Hall|]. intros c'.
        apply caller_backed_mono; cbn [constructions _model_instance]; [|by eauto].
        intros r' Hr'. apply in_or_app. by left.
      * cbn. apply in_or_app. right. by left.
    + specialize (Hins (Raised e) Hi). cbn [past_construct] in Hins.
      split; [intros h' Hh'; apply in_or_app; left; by apply Hglob|].
      split; [|rewrite length_app; cbn [length]; lia].
      apply Forall_insert.
      * eapply Forall_impl; [exact Hall|]. intros c'.
        apply caller_backed_mono; cbn [constructions _model_instance]; [|by eauto].
        intros r' Hr'. apply in_or_app. by left.
      * cbn. apply in_or_app. right. by left.
  - (* the assignment *)
    cbn [fst snd _model_instance constructions]. cbn in Hc.
    specialize (Hins AtReturn Hi). cbn [past_construct] in Hins.
    split; [by intros h' [= <-]|]. split; [|lia].
    apply Forall_insert.
    + eapply Forall_impl; [exact Hall|]. intros c'.
      apply caller_backed_mono; cbn [constructions _model_instance]; by eauto.
    + cbn. by eauto.
  - (* the return *)
    cbn [fst snd]. cbn in Hc. destruct Hc as [h Hh].
    specialize (Hins (Returned (_model_instance s)) Hi). cbn [past_construct] in Hins.
    split; [exact Hglob|]. split; [|lia].
    apply Forall_insert; [exact Hall|]. cbn. exists h. split; [exact Hh|by apply Hglob].
  - cbn [fst snd]. rewrite list_insert_id by exact Hi. by split.
  - cbn [fst snd]. rewrite list_insert_id by exact Hi. by split.
Qed.

Lemma sched_step_length host cfg i :
  length (snd (sched_step host cfg i)) = length (snd cfg).
Proof.
  unfold sched_step. destruct (snd cfg !! i) as [c|]; [|reflexivity].
  destruct (caller_step host (fst cfg) c). cbn [snd]. apply length_insert.
Qed.

Lemma run_schedule_invariant host sched :
  forall cfg,
    schedule_invariant cfg ->
    schedule_invariant (run_schedule host sched cfg) /\
    length (snd (run_schedule host sched cfg)) = length (snd cfg).
Proof.
  induction sched as [|i sched IH]; intros cfg Hinv; [by split|].
  cbn [run_schedule fold_left].
  destruct (IH (sched_step host cfg i) (sched_step_invariant host cfg i Hinv)) as [H1 H2].
  split; [exact H1|]. unfold run_schedule in H2. by rewrite H2, sched_step_length.
Qed.

Lemma count_past_le callers : (count_past callers <= length callers)%nat.
Proof. unfold count_past. apply List.filter_length_le. Qed.

(** X10. For any number of callers and any schedule: no more
    constructor calls are made than there are callers, the global only
    ever holds an object that a constructor call returned, and a caller
    that has returned holds such an object, never [None]. *)
Theorem get_model_under_any_schedule host sched k :
  let cfg := run_schedule host sched (adapter_init, repeat AtTest k) in
  length (snd cfg) = k /\
  (length (constructions (fst cfg)) <= k)%nat /\
  (forall h, _model_instance (fst cfg) = Some h -> In (Ok h) (constructions (fst cfg))) /\
  (forall i r,
      snd cfg !! i = Some (Returned r) ->
      exists h, r = Some h /\ In (Ok h) (constructions (fst cfg))).
Proof.
  cbv zeta.
  assert (Hinit : schedule_invariant (adapter_init, repeat AtTest k)).
  { split; [discriminate|]. split; [|cbn; lia].
    cbn [fst snd]. apply List.Forall_forall. intros c Hc.
    apply repeat_spec in Hc. by subst. }
  destruct (run_schedule_invariant host sched _ Hinit) as [(Hglob & Hall & Hcount) Hlen].
  cbn [snd] in Hlen. rewrite repeat_length in Hlen.
  split; [exact Hlen|].
  split; [pose proof (count_past_le (snd (run_schedule host sched (adapter_init, repeat AtTest k)))); lia|].
  split; [exact Hglob|].
  intros i r Hi. exact (Forall_lookup_1 _ _ _ _ Hall Hi).
Qed.

Lemma get_model_under_any_schedule_witness :
  snd (run_schedule always_loads [0; 1; 0; 0; 0; 1; 1; 1]%nat
         (adapter_init, repeat AtTest 2)) !! 1%nat
  = Some (Returned (Some (mkModel 1))) /\
  exists h,
    Some (mkModel 1) = Some h /\
    In (Ok h)
      (constructions
         (fst (run_schedule always_loads [0; 1; 0; 0; 0; 1; 1; 1]%nat
                 (adapter_init, repeat AtTest 2)))).
Proof.
  split; [reflexivity|].
  destruct (get_model_under_any_schedule always_loads [0; 1; 0; 0; 0; 1; 1; 1]%nat 2)
    as (_ & _ & _ & H).
  by apply (H 1%nat).
Defined.

Lemma resolve_font_first_usable_witness :
  font_paths
  = ["/System/Library/Fonts/Helvetica.ttc"]
      ++ "/usr/share/fonts/truetype/dejavu/DejaVuSans.ttf" :: ["C:/Windows/Fonts/arial.ttf"] /\
  resolve_font dejavu_host = Some tt.
Proof.
  split; [reflexivity|].
  destruct (resolve_font_first_usable dejavu_host) as (H & _ & _).
  apply (H ["/System/Library/Fonts/Helvetica.ttc"]
           "/usr/share/fonts/truetype/dejavu/DejaVuSans.ttf"
           ["C:/Windows/Fonts/arial.ttf"] tt); try reflexivity.
  repeat constructor.
Defined.

Lemma pick_color_in_palette_witness :
  (3 < 8)%nat /\ pick_color (Z.of_nat 3) = nth 3 colors (0, 0, 0)%Z.
Proof.
  split; [lia|].
  destruct (pick_color_in_palette 3) as (_ & _ & H). apply (H 3%nat). lia.
Defined.

Lemma stable_descending_sort_unique_witness :
  StronglySorted by_confidence_desc
    [mkItem "Leaf Blight" (91 # 100); mkItem "Healthy" (4 # 10)] /\
  [mkItem "Leaf Blight" (91 # 100); mkItem "Healthy" (4 # 10)]
  = sort_by_confidence_desc
      [mkItem "Healthy" (4 # 10); mkItem "Leaf Blight" (91 # 100)].
Proof.
  assert (Hs : StronglySorted by_confidence_desc
                 [mkItem "Leaf Blight" (91 # 100); mkItem "Healthy" (4 # 10)]).
  { repeat constructor. unfold by_confidence_desc, Qle. cbn. lia. }
  split; [exact Hs|].
  apply (stable_descending_sort_unique
           [mkItem "Healthy" (4 # 10); mkItem "Leaf Blight" (91 # 100)]
           [mkItem "Leaf Blight" (91 # 100); mkItem "Healthy" (4 # 10)] Hs).
  intros c.
  apply (sort_by_confidence_desc_stable c
           [mkItem "Healthy" (4 # 10); mkItem "Leaf Blight" (91 # 100)]).
Defined.
